(** * MOSDAC chat client: session manager, fallback resolver and export

    A shallow embedding of the conversational core of the client:
    [src/types/index.ts], [src/services/mockData.ts], [src/services/api.ts],
    [src/hooks/useChat.ts] and the rename guard of [src/components/Sidebar.tsx].

    Conventions of the embedding.
    - A JavaScript string is a [string]; one [ascii] stands for one code
      unit.  Case mapping and whitespace are the ASCII ones; the bytes of
      non-ASCII literals are carried unchanged.
    - A JavaScript number is a finite decimal [number] (the values that
      number literals and JSON texts denote).
    - A [Date] is a time value in milliseconds since the epoch, or the
      Invalid Date.
    - React state is threaded explicitly: a state updater [setSessions (prev
      => ...)] is a function on the previous collection, and every reading of
      the clock is an argument of the operation that performs it.
    - An [await] splits a function in two: what runs before it and what runs
      once the promise has settled, with the way it settled as an argument. *)

From Stdlib Require Import ZArith String Ascii List Lia Bool DecimalString.
From stdpp Require Import base option list strings gmap.

Import ListNotations.
Set Warnings "-register-all".
Local Open Scope string_scope.
#[local] Arguments String.append !_ _ / : simpl nomatch.

(* ===================================================================== *)
(** * Part I.  Definitions                                                *)
(* ===================================================================== *)

(** ** The JavaScript runtime, as far as the program uses it *)

Module JS.

(** *** Strings *)

(** The double quote character (code 34). *)
Definition dquote : ascii := ascii_of_nat 34.
Definition newline : ascii := ascii_of_nat 10.
Definition backslash : ascii := ascii_of_nat 92.

Definition str (c : ascii) : string := String c EmptyString.

Definition toLowerCaseChar (c : ascii) : ascii :=
  let n := nat_of_ascii c in
  if (65 <=? n)%nat && (n <=? 90)%nat then ascii_of_nat (n + 32) else c.

(** [String.prototype.toLowerCase]. *)
Fixpoint toLowerCase (s : string) : string :=
  match s with
  | EmptyString => EmptyString
  | String c r => String (toLowerCaseChar c) (toLowerCase r)
  end.

(** [s.includes(k)]: [k] occurs in [s] as a contiguous substring. *)
Fixpoint includes (s k : string) : bool :=
  String.prefix k s ||
  match s with
  | EmptyString => false
  | String _ r => includes r k
  end.

(** [k] occurs in [s]. *)
Definition occursIn (k s : string) : Prop := exists a b, s = a ++ k ++ b.





(** Truthiness of a string: every string but the empty one. *)
Definition truthy (s : string) : bool :=
  match s with EmptyString => false | _ => true end.

(** [s.slice(0, n)] for [n >= 0]. *)
Fixpoint sliceTo (n : nat) (s : string) : string :=
  match n, s with
  | S n', String c r => String c (sliceTo n' r)
  | _, _ => EmptyString
  end.

(** The global replacement of the CSV text column: every double quote is
    written twice. *)
Fixpoint doubleQuotes (s : string) : string :=
  match s with
  | EmptyString => EmptyString
  | String c r =>
      if Ascii.eqb c dquote then String dquote (String dquote (doubleQuotes r))
      else String c (doubleQuotes r)
  end.

(** [parts.join(sep)]. *)
Fixpoint join (sep : string) (parts : list string) : string :=
  match parts with
  | [] => EmptyString
  | [p] => p
  | p :: rest => p ++ sep ++ join sep rest
  end.

(** [s.split(sep)] for a one-character separator: the pieces between the
    occurrences of [sep]. *)
Fixpoint splitChar (sep : ascii) (s : string) : list string :=
  match s with
  | EmptyString => [EmptyString]
  | String c r =>
      if Ascii.eqb c sep then EmptyString :: splitChar sep r
      else match splitChar sep r with
           | p :: ps => String c p :: ps
           | [] => [str c]
           end
  end.

(** [a.slice(from, to)] on arrays, for [0 <= from <= to]. *)
Definition sliceArr {A} (from to : nat) (l : list A) : list A :=
  firstn (to - from) (skipn from l).

(** The placeholder [`] stands for the double quote in the string literals
    below; [q] puts the quotes back. *)
Fixpoint q (s : string) : string :=
  match s with
  | EmptyString => EmptyString
  | String c r => String (if Ascii.eqb c (ascii_of_nat 96) then dquote else c) (q r)
  end.

(** [allChars p s]: every character of [s] satisfies [p]. *)
Fixpoint allChars (p : ascii -> bool) (s : string) : bool :=
  match s with
  | EmptyString => true
  | String c r => p c && allChars p r
  end.

Definition notNewline (c : ascii) : bool := negb (Ascii.eqb c newline).

(** The number of lines of a text: the pieces between line feeds. *)
Definition lineCount (s : string) : nat := length (splitChar newline s).

(** *** Decimal digits *)

Definition digitChar (d : Z) : ascii := ascii_of_nat (48 + Z.to_nat d).

Definition digitVal (c : ascii) : option Z :=
  let n := nat_of_ascii c in
  if (48 <=? n)%nat && (n <=? 57)%nat then Some (Z.of_nat n - 48)%Z else None.

(** The last [w] decimal digits of [n], most significant first. *)
Fixpoint pad (w : nat) (n : Z) : string :=
  match w with
  | O => EmptyString
  | S w' => pad w' (n / 10)%Z ++ str (digitChar (n mod 10)%Z)
  end.

Fixpoint countDigits (fuel : nat) (n : Z) : nat :=
  match fuel with
  | O => 1
  | S f => if (n <? 10)%Z then 1 else S (countDigits f (n / 10)%Z)
  end.

(** The decimal numeral of [n >= 0], without leading zeros. *)
Definition numeral (n : Z) : string :=
  pad (countDigits (Z.to_nat (Z.log2 n)) n) n.

(** [String(n)] for an integer [n]. *)
Definition intToString (n : Z) : string :=
  if (n <? 0)%Z then "-" ++ numeral (- n)%Z else numeral n.

Fixpoint zeros (n : nat) : string :=
  match n with
  | O => EmptyString
  | S k => String "0" (zeros k)
  end.

Fixpoint dropString (n : nat) (s : string) : string :=
  match n, s with
  | S n', String _ r => dropString n' r
  | _, _ => s
  end.

(** *** Numbers *)

(** A finite decimal [mantissa * 10 ^ exponent]. *)
Record number := Dec { mantissa : Z; exponent : Z }.

(** Zero is the only falsy number of the model. *)
Definition isZero (x : number) : bool := (mantissa x =? 0)%Z.

(** The significand without its trailing zeros, and the exponent adjusted. *)
Fixpoint stripZeros (fuel : nat) (s e : Z) : Z * Z :=
  match fuel with
  | O => (s, e)
  | S f =>
      if ((s mod 10 =? 0) && negb (s =? 0))%Z then stripZeros f (s / 10)%Z (e + 1)%Z
      else (s, e)
  end.

(** [Number.prototype.toString] in radix 10: with [k] digits [ds] and the
    decimal point after the [n]-th of them, the value is written in
    positional notation when [-6 < n <= 21] and with an exponent otherwise. *)
Definition numberToString (x : number) : string :=
  if (mantissa x =? 0)%Z then "0"
  else
    let '(s, e) := stripZeros (Z.to_nat (Z.log2 (Z.abs (mantissa x)))) (Z.abs (mantissa x)) (exponent x) in
    let ds := numeral s in
    let k := Z.of_nat (String.length ds) in
    let n := (k + e)%Z in
    let body :=
      if ((k <=? n) && (n <=? 21))%Z then ds ++ zeros (Z.to_nat (n - k))
      else if ((0 <? n) && (n <=? 21))%Z then
        sliceTo (Z.to_nat n) ds ++ "." ++ dropString (Z.to_nat n) ds
      else if ((-6 <? n) && (n <=? 0))%Z then "0." ++ zeros (Z.to_nat (- n)) ++ ds
      else
        let mant := if (k =? 1)%Z then ds else sliceTo 1 ds ++ "." ++ dropString 1 ds in
        mant ++ "e" ++ (if (n - 1 <? 0)%Z then "-" else "+") ++ numeral (Z.abs (n - 1)) in
    if (mantissa x <? 0)%Z then "-" ++ body else body.

(** *** Dates *)

Local Open Scope Z_scope.

(** A Date object holds a time value, or NaN (the Invalid Date). *)
Inductive Date := TimeValue (t : Z) | InvalidDate.

Definition msPerDay : Z := 86400000.
Definition maxTime : Z := 8640000000000000.

(** The time values a Date can hold. *)
Definition validTime (t : Z) : Prop := - maxTime <= t <= maxTime.

Definition validDate (d : Date) : Prop :=
  match d with
  | TimeValue t => validTime t
  | InvalidDate => False
  end.

Definition TimeClip (t : Z) : Date :=
  if Z.abs t <=? maxTime then TimeValue t else InvalidDate.

Definition Day (t : Z) : Z := t / msPerDay.
Definition TimeWithinDay (t : Z) : Z := t mod msPerDay.

Definition DayFromYear (y : Z) : Z :=
  365 * (y - 1970) + (y - 1969) / 4 - (y - 1901) / 100 + (y - 1601) / 400.

Definition DaysInYear (y : Z) : Z := DayFromYear (y + 1) - DayFromYear y.

Definition InLeapYear (y : Z) : Z := if DaysInYear y =? 366 then 1 else 0.

(** The year of day [d]: the largest [y] with [DayFromYear y <= d], found
    from an estimate that is off by at most one. *)
Definition YearFromDay (d : Z) : Z :=
  let y0 := 400 * d / 146097 + 1970 in
  if d <? DayFromYear y0 then y0 - 1
  else if DayFromYear (y0 + 1) <=? d then y0 + 1
  else y0.

(** The first day of month [m] (counted from 0) within its year. *)
Definition monthStart (m leap : Z) : Z :=
  match m with
  | 0 => 0 | 1 => 31 | 2 => 59 + leap | 3 => 90 + leap | 4 => 120 + leap
  | 5 => 151 + leap | 6 => 181 + leap | 7 => 212 + leap | 8 => 243 + leap
  | 9 => 273 + leap | 10 => 304 + leap | _ => 334 + leap
  end.

Definition MonthFromDayInYear (diy leap : Z) : Z :=
  if diy <? 31 then 0
  else if diy <? 59 + leap then 1
  else if diy <? 90 + leap then 2
  else if diy <? 120 + leap then 3
  else if diy <? 151 + leap then 4
  else if diy <? 181 + leap then 5
  else if diy <? 212 + leap then 6
  else if diy <? 243 + leap then 7
  else if diy <? 273 + leap then 8
  else if diy <? 304 + leap then 9
  else if diy <? 334 + leap then 10
  else 11.

Definition MakeDay (y m d : Z) : Z :=
  DayFromYear y + monthStart m (InLeapYear y) + d - 1.

(** The date-time string of a time value: four digits of year, or a sign
    and six digits outside 0..9999. *)
Definition isoOfTime (t : Z) : string :=
  let day := Day t in
  let tod := TimeWithinDay t in
  let y := YearFromDay day in
  let leap := InLeapYear y in
  let diy := day - DayFromYear y in
  let m := MonthFromDayInYear diy leap in
  let dt := diy - monthStart m leap + 1 in
  let year :=
    if (0 <=? y) && (y <=? 9999) then pad 4 y
    else (if y <? 0 then "-" else "+") ++ pad 6 (Z.abs y) in
  year ++ "-" ++ pad 2 (m + 1) ++ "-" ++ pad 2 dt ++ "T" ++
  pad 2 (tod / 3600000) ++ ":" ++ pad 2 (tod / 60000 mod 60) ++ ":" ++
  pad 2 (tod / 1000 mod 60) ++ "." ++ pad 3 (tod mod 1000) ++ "Z".

(** [Date.prototype.toISOString]; [None] is the RangeError thrown for the
    Invalid Date. *)
Definition toISOString (d : Date) : option string :=
  match d with
  | TimeValue t => Some (isoOfTime t)
  | InvalidDate => None
  end.

(** Reading the date-time strings back. *)
Fixpoint readDigits (w : nat) (acc : Z) (s : string) : option (Z * string) :=
  match w with
  | O => Some (acc, s)
  | S w' =>
      match s with
      | String c r =>
          match digitVal c with
          | Some d => readDigits w' (10 * acc + d) r
          | None => None
          end
      | EmptyString => None
      end
  end.

Definition expect (c : ascii) (s : string) : option string :=
  match s with
  | String c' r => if Ascii.eqb c c' then Some r else None
  | EmptyString => None
  end.

Definition readYear (s : string) : option (Z * string) :=
  match s with
  | String "+" r => readDigits 6 0 r
  | String "-" r =>
      '(y, r') ← readDigits 6 0 r;
      if y =? 0 then None else Some (- y, r')
  | _ => readDigits 4 0 s
  end.

(** [new Date(s)] for a string in the complete date-time form with
    milliseconds and the UTC designator, the form [toISOString] writes.
    Every other string gives the Invalid Date here; the shorter and the
    legacy forms that engines also accept are never written by the program. *)
Definition parseISO (s : string) : Date :=
  let parsed :=
    '(y, s) ← readYear s;
    s ← expect "-" s;
    '(mo, s) ← readDigits 2 0 s;
    s ← expect "-" s;
    '(d, s) ← readDigits 2 0 s;
    s ← expect "T" s;
    '(h, s) ← readDigits 2 0 s;
    s ← expect ":" s;
    '(mi, s) ← readDigits 2 0 s;
    s ← expect ":" s;
    '(sec, s) ← readDigits 2 0 s;
    s ← expect "." s;
    '(ms, s) ← readDigits 3 0 s;
    s ← expect "Z" s;
    if negb (String.eqb s "") then None
    else if negb ((1 <=? mo) && (mo <=? 12) && (1 <=? d) && (d <=? 31)) then None
    else if negb ((h <=? 23) && (mi <=? 59) && (sec <=? 59)) then None
    else Some (MakeDay y (mo - 1) d * msPerDay
               + h * 3600000 + mi * 60000 + sec * 1000 + ms) in
  match parsed with
  | Some t => TimeClip t
  | None => InvalidDate
  end.

Local Close Scope Z_scope.

(** *** JSON texts *)

(** The values [JSON.stringify] serialises.  A property whose value is
    [undefined] is not written, so it is simply left out of [JObj]. *)
Inductive JSON :=
| JNull
| JBool (b : bool)
| JNum (n : number)
| JStr (s : string)
| JArr (items : list JSON)
| JObj (fields : list (string * JSON)).

Definition hexChar (d : nat) : ascii :=
  if (d <? 10)%nat then ascii_of_nat (48 + d) else ascii_of_nat (87 + d).

(** One character of a quoted JSON string. *)
Definition quoteChar (c : ascii) : string :=
  let n := nat_of_ascii c in
  if Ascii.eqb c dquote then String backslash (str dquote)
  else if Ascii.eqb c backslash then String backslash (str backslash)
  else if (n =? 8)%nat then String backslash "b"
  else if (n =? 9)%nat then String backslash "t"
  else if (n =? 10)%nat then String backslash "n"
  else if (n =? 12)%nat then String backslash "f"
  else if (n =? 13)%nat then String backslash "r"
  else if (n <? 32)%nat then
    String backslash ("u00" ++ str (hexChar (n / 16)) ++ str (hexChar (n mod 16)))
  else str c.

Fixpoint quoteBody (s : string) : string :=
  match s with
  | EmptyString => EmptyString
  | String c r => quoteChar c ++ quoteBody r
  end.

Definition quoteJSONString (s : string) : string :=
  str dquote ++ quoteBody s ++ str dquote.

(** [JSON.stringify(v, null, gap)] below the indentation [indent].  With
    an empty [gap] the text is compact; otherwise every member starts on a
    line of its own, one [gap] deeper than the enclosing bracket. *)
Fixpoint serialize (gap indent : string) (v : JSON) : string :=
  let inner := indent ++ gap in
  let wrap (open close : string) (parts : list string) :=
    match parts with
    | [] => open ++ close
    | _ =>
        if truthy gap
        then open ++ str newline ++ inner
             ++ join ("," ++ str newline ++ inner) parts
             ++ str newline ++ indent ++ close
        else open ++ join "," parts ++ close
    end in
  match v with
  | JNull => "null"
  | JBool true => "true"
  | JBool false => "false"
  | JNum n => numberToString n
  | JStr s => quoteJSONString s
  | JArr items => wrap "[" "]" (List.map (serialize gap inner) items)
  | JObj fields =>
      wrap "{" "}"
        (List.map (fun kv => quoteJSONString (fst kv)
                             ++ (if truthy gap then ": " else ":")
                             ++ serialize gap inner (snd kv)) fields)
  end.

(** [JSON.stringify(v, null, 2)]. *)
Definition stringifyPretty (v : JSON) : string := serialize "  " "" v.

(** The members of an object literal, the undefined ones dropped. *)
Definition members (fields : list (string * option JSON)) : list (string * JSON) :=
  omap (fun kv => match snd kv with Some v => Some (fst kv, v) | None => None end) fields.

End JS.


Import JS.

(** ** The data model ([src/types/index.ts]) *)

Inductive Sender := user | bot.

Record Source := {
  src_url : string;
  src_title : string;
  src_content : string;
  src_relevance : number
}.

Record Entity := {
  ent_text : string;
  ent_label : string;
  ent_confidence : number;
  ent_start : option Z;
  ent_end : option Z
}.

(** An optional property is [None] when it is absent or undefined.  The
    text of a message is declared a string; the reply built in
    [sendMessage] can nevertheless be undefined, hence the option. *)
Record Message := {
  msg_id : string;
  msg_text : option string;
  msg_sender : Sender;
  msg_timestamp : Date;
  msg_sources : option (list Source);
  msg_entities : option (list Entity);
  msg_confidence : option number
}.

Record ChatSession := {
  id : string;
  title : string;
  messages : list Message;
  createdAt : Date;
  updatedAt : Date
}.

(** ** The local substitute ([src/services/mockData.ts]) *)

Definition mockSources : list Source := [
  {| src_url := "https://mosdac.gov.in/satellite-data";
     src_title := "MOSDAC Satellite Data Archive";
     src_content := "INSAT-3D provides meteorological and oceanographic data for weather forecasting and climate monitoring.";
     src_relevance := Dec 95 (-2) |};
  {| src_url := "https://mosdac.gov.in/weather-services";
     src_title := "Weather Services - MOSDAC";
     src_content := "Real-time weather data and forecasts using satellite imagery and ground-based observations.";
     src_relevance := Dec 87 (-2) |}
].

Definition mockEntities : list Entity := [
  {| ent_text := "INSAT-3D"; ent_label := "SATELLITE"; ent_confidence := Dec 99 (-2);
     ent_start := None; ent_end := None |};
  {| ent_text := "weather forecasting"; ent_label := "SERVICE"; ent_confidence := Dec 85 (-2);
     ent_start := None; ent_end := None |};
  {| ent_text := "MOSDAC"; ent_label := "ORGANIZATION"; ent_confidence := Dec 95 (-2);
     ent_start := None; ent_end := None |}
].

(** What [getMockResponse] returns: an entry of the table, which carries its
    keyword in [query], or the default object, which has no such property. *)
Record MockResponse := {
  query : option string;
  response : string;
  sources : list Source;
  entities : list Entity;
  confidence : number
}.

Definition insatBody : string :=
"INSAT-3D is a geostationary meteorological satellite that provides:

• **Weather Monitoring**: Real-time atmospheric conditions, cloud imagery, and precipitation data
• **Disaster Management**: Early warning systems for cyclones, floods, and severe weather events  
• **Climate Research**: Long-term climate data for research and analysis
• **Ocean Monitoring**: Sea surface temperature and oceanographic parameters

The satellite operates from 82°E longitude and covers the entire Indian subcontinent and surrounding regions.".

Definition weatherBody : string :=
"MOSDAC provides comprehensive weather services including:

• **Real-time Data**: Current weather conditions from satellite and ground observations
• **Forecasting**: Short-term (1-3 days) and medium-term (3-7 days) weather predictions
• **Severe Weather Alerts**: Warnings for cyclones, thunderstorms, and extreme weather
• **Climate Monitoring**: Long-term climate trends and seasonal patterns

Our data is used by meteorological departments, researchers, and disaster management agencies across India.".

Definition mockBotResponses : list MockResponse := [
  {| query := Some "insat";
     response := insatBody;
     sources := mockSources;
     entities := mockEntities;
     confidence := Dec 92 (-2) |};
  {| query := Some "weather";
     response := weatherBody;
     sources := sliceArr 0 1 mockSources;
     entities := sliceArr 1 2 mockEntities;
     confidence := Dec 88 (-2) |}
].

(** The default answer quotes the query as it was typed. *)
Definition defaultBody (q0 : string) : string :=
"I understand you're asking about " ++ str dquote ++ q0 ++ str dquote ++ ". Based on MOSDAC's data archive, I can help you with:

• **Satellite Data**: Information about INSAT, SCATSAT, and other satellite missions
• **Weather Services**: Current conditions, forecasts, and climate data
• **Ocean Data**: Sea surface temperature, wave height, and marine parameters
• **Research Tools**: Data access, APIs, and analysis capabilities

Could you please be more specific about what aspect you'd like to know more about?".

Definition defaultResponse (q0 : string) : MockResponse :=
  {| query := None;
     response := defaultBody q0;
     sources := mockSources;
     entities := [];
     confidence := Dec 75 (-2) |}.

(** The loop of [getMockResponse]: the first entry whose keyword occurs in
    the lowercased query. *)
Fixpoint firstMatch (lowerQuery : string) (table : list MockResponse) : option MockResponse :=
  match table with
  | [] => None
  | mock :: rest =>
      if match query mock with
         | Some k => includes lowerQuery k
         | None => false
         end
      then Some mock
      else firstMatch lowerQuery rest
  end.

Definition getMockResponse (q0 : string) : MockResponse :=
  let lowerQuery := toLowerCase q0 in
  match firstMatch lowerQuery mockBotResponses with
  | Some mock => mock
  | None => defaultResponse q0
  end.

(** ** The remote service ([src/services/api.ts]) *)

(** How a promise settles. *)
Inductive Settled (A : Type) :=
| Fulfilled (a : A)
| Rejected (reason : string).
Arguments Fulfilled {A} a.
Arguments Rejected {A} reason.

(** The reply object as [sendMessage] reads it, whichever path produced it:
    the service answers in [answer], the local substitute in [response]. *)
Record ResponseObject := {
  r_answer : option string;
  r_response : option string;
  r_sources : option (list Source);
  r_entities : option (list Entity);
  r_confidence : option number
}.

(** A parsed body is [null], on which every property access throws, or a
    value whose properties can be read. *)
Inductive ResponseBody :=
| BodyNull
| BodyObject (r : ResponseObject).

(** What [fetch] and [response.json()] can do. *)
Inductive FetchOutcome :=
| NetworkError (reason : string)
| HttpStatus (statusText : string)
| MalformedBody (reason : string)
| HttpOk (body : ResponseBody).

Module apiService.

(** [request]: a response that is not ok is turned into an error; a
    rejected [fetch] or [json()] rejects the call as it is. *)
Definition request (o : FetchOutcome) : Settled ResponseBody :=
  match o with
  | NetworkError reason => Rejected reason
  | HttpStatus statusText => Rejected ("API Error: " ++ statusText)
  | MalformedBody reason => Rejected reason
  | HttpOk body => Fulfilled body
  end.

Definition sendMessage (o : FetchOutcome) : Settled ResponseBody := request o.

End apiService.

(** ** The hook ([src/hooks/useChat.ts]) *)

Record ChatState := {
  sessions : list ChatSession;
  currentSessionId : option string;
  isLoading : bool
}.

Definition initialState : ChatState :=
  {| sessions := []; currentSessionId := None; isLoading := false |}.

(** [new Date()] at clock reading [t]. *)
Definition newDate (t : Z) : Date := TimeValue t.

(** [sessions.find(s => s.id === sessionId)]. *)
Definition findSession (sessionId : string) (l : list ChatSession) : option ChatSession :=
  List.find (fun s => String.eqb (id s) sessionId) l.

Definition currentSession (st : ChatState) : option ChatSession :=
  match currentSessionId st with
  | Some sid => findSession sid (sessions st)
  | None => None
  end.

(** The three readings of the clock in [createNewSession]. *)
Record CreateClock := { c_id : Z; c_createdAt : Z; c_updatedAt : Z }.

Definition createNewSession (clk : CreateClock) (st : ChatState) : ChatSession * ChatState :=
  let newSession :=
    {| id := intToString (c_id clk);
       title := "New Chat";
       messages := [];
       createdAt := newDate (c_createdAt clk);
       updatedAt := newDate (c_updatedAt clk) |} in
  (newSession,
   {| sessions := newSession :: sessions st;
      currentSessionId := Some (id newSession);
      isLoading := isLoading st |}).

Definition selectSession (sessionId : string) (st : ChatState) : ChatState :=
  {| sessions := sessions st;
     currentSessionId := Some sessionId;
     isLoading := isLoading st |}.

Definition deleteSession (sessionId : string) (st : ChatState) : ChatState :=
  {| sessions := List.filter (fun s => negb (String.eqb (id s) sessionId)) (sessions st);
     currentSessionId :=
       match currentSessionId st with
       | Some cur => if String.eqb cur sessionId then None else Some cur
       | None => None
       end;
     isLoading := isLoading st |}.

Definition renameSession (sessionId newTitle : string) (now : Z) (st : ChatState) : ChatState :=
  {| sessions :=
       List.map (fun s =>
         if String.eqb (id s) sessionId
         then {| id := id s; title := newTitle; messages := messages s;
                 createdAt := createdAt s; updatedAt := newDate now |}
         else s) (sessions st);
     currentSessionId := currentSessionId st;
     isLoading := isLoading st |}.


(** *** Sending a message *)

(** The updater that adds the user message; the first message of a session
    also gives it its title. *)
Definition addUserMessage (sessionId : string) (userMessage : Message) (text : string)
    (now : Z) (prev : list ChatSession) : list ChatSession :=
  List.map (fun session =>
    if String.eqb (id session) sessionId
    then {| id := id session;
            title := if (length (messages session) =? 0)%nat
                     then sliceTo 50 text else title session;
            messages := messages session ++ [userMessage];
            createdAt := createdAt session;
            updatedAt := newDate now |}
    else session) prev.

(** The updater that adds the reply, real or not. *)
Definition addBotMessage (sessionId : string) (botMessage : Message)
    (now : Z) (prev : list ChatSession) : list ChatSession :=
  List.map (fun session =>
    if String.eqb (id session) sessionId
    then {| id := id session;
            title := title session;
            messages := messages session ++ [botMessage];
            createdAt := createdAt session;
            updatedAt := newDate now |}
    else session) prev.

(** A session id is missing when it is [null] or the empty string. *)
Definition falsyId (sid : option string) : bool :=
  match sid with
  | Some s => negb (truthy s)
  | None => true
  end.

Record BeginClock := {
  c_session : CreateClock;
  c_userId : Z;
  c_userTimestamp : Z;
  c_userUpdatedAt : Z
}.

Record SettleClock := {
  c_botId : Z;
  c_botTimestamp : Z;
  c_botUpdatedAt : Z
}.

Definition userMessageOf (text : string) (clk : BeginClock) : Message :=
  {| msg_id := intToString (c_userId clk);
     msg_text := Some text;
     msg_sender := user;
     msg_timestamp := newDate (c_userTimestamp clk);
     msg_sources := None;
     msg_entities := None;
     msg_confidence := None |}.

(** The part of [sendMessage] that runs before the remote call: the target
    session id is fixed, a session is created when none is current, and the
    user message is added.  The result carries the captured id. *)
Definition sendMessageBegin (text : string) (clk : BeginClock) (st : ChatState)
    : string * ChatState :=
  let '(sessionId, st1) :=
    match currentSessionId st with
    | Some sid =>
        if truthy sid then (sid, st)
        else let '(newSession, st') := createNewSession (c_session clk) st in
             (id newSession, st')
    | None =>
        let '(newSession, st') := createNewSession (c_session clk) st in
        (id newSession, st')
    end in
  (sessionId,
   {| sessions := addUserMessage sessionId (userMessageOf text clk) text
                    (c_userUpdatedAt clk) (sessions st1);
      currentSessionId := currentSessionId st1;
      isLoading := true |}).

Definition ofMock (m : MockResponse) : ResponseObject :=
  {| r_answer := None;
     r_response := Some (response m);
     r_sources := Some (sources m);
     r_entities := Some (entities m);
     r_confidence := Some (confidence m) |}.

(** The inner [try]/[catch] of [sendMessage]: the answer of the service, or
    on any rejection the local substitute for the same text.  The delay
    that the [catch] block waits for first changes no state. *)
Definition resolveResponse (text : string) (api : Settled ResponseBody)
    : Settled ResponseBody :=
  match api with
  | Fulfilled body => Fulfilled body
  | Rejected apiError => Fulfilled (BodyObject (ofMock (getMockResponse text)))
  end.

(** [a || b] on optional strings. *)
Definition orElse (a b : option string) : option string :=
  match a with
  | Some s => if truthy s then Some s else b
  | None => b
  end.

(** The reply message; [None] is the TypeError of reading a property of
    [null]. *)
Definition botMessageOf (body : ResponseBody) (clk : SettleClock) : option Message :=
  match body with
  | BodyNull => None
  | BodyObject r =>
      Some {| msg_id := intToString (c_botId clk + 1);
              msg_text := orElse (r_answer r) (r_response r);
              msg_sender := bot;
              msg_timestamp := newDate (c_botTimestamp clk);
              msg_sources := r_sources r;
              msg_entities := r_entities r;
              msg_confidence := r_confidence r |}
  end.

Definition apologyText : string :=
  "Sorry, I encountered an error processing your request. Please check your connection and try again.".

Definition errorMessageOf (clk : SettleClock) : Message :=
  {| msg_id := intToString (c_botId clk + 1);
     msg_text := Some apologyText;
     msg_sender := bot;
     msg_timestamp := newDate (c_botTimestamp clk);
     msg_sources := None;
     msg_entities := None;
     msg_confidence := Some (Dec 1 (-1)) |}.

(** The message added when the call settles: the reply, or the apology when
    anything inside the outer [try] threw. *)
Definition replyOf (text : string) (api : Settled ResponseBody) (clk : SettleClock) : Message :=
  match resolveResponse text api with
  | Fulfilled body =>
      match botMessageOf body clk with
      | Some botMessage => botMessage
      | None => errorMessageOf clk
      end
  | Rejected _ => errorMessageOf clk
  end.

(** The part of [sendMessage] that runs once the remote call has settled.
    The clock readings are those of the path taken. *)
Definition sendMessageSettle (sessionId text : string) (api : Settled ResponseBody)
    (clk : SettleClock) (st : ChatState) : ChatState :=
  {| sessions := addBotMessage sessionId (replyOf text api clk)
                   (c_botUpdatedAt clk) (sessions st);
     currentSessionId := currentSessionId st;
     isLoading := false |}.

(** A call of [sendMessage] during which nothing else touches the state. *)
Definition sendMessage (text : string) (fetched : FetchOutcome)
    (bclk : BeginClock) (sclk : SettleClock) (st : ChatState) : ChatState :=
  let '(sessionId, st1) := sendMessageBegin text bclk st in
  sendMessageSettle sessionId text (apiService.sendMessage fetched) sclk st1.

(** *** The rename guard of the sidebar ([src/components/Sidebar.tsx]) *)

(** [handleFinishEdit] calls [onRenameSession], which is [renameSession],
    only with a title that is not empty once trimmed.  The editing fields it
    clears afterwards are local to the sidebar. *)


(** *** Persistence in [localStorage] *)

(** What [Date.prototype.toJSON] yields: the date-time string, or [null]
    for the Invalid Date. *)
Inductive JDate :=
| JDateString (s : string)
| JDateNull.

Definition dateToJSON (d : Date) : JDate :=
  match toISOString d with
  | Some s => JDateString s
  | None => JDateNull
  end.

(** [new Date(v)] for a value read back: a string is parsed, [null] is
    converted to the number 0. *)
Definition dateOfJSON (v : JDate) : Date :=
  match v with
  | JDateString s => parseISO s
  | JDateNull => TimeValue 0
  end.

(** The structure that [JSON.stringify(sessions)] writes and [JSON.parse]
    reads back: the sessions with every Date replaced by its JSON value. *)
Record StoredMessage := {
  sm_id : string;
  sm_text : option string;
  sm_sender : Sender;
  sm_timestamp : JDate;
  sm_sources : option (list Source);
  sm_entities : option (list Entity);
  sm_confidence : option number
}.

Record StoredSession := {
  ss_id : string;
  ss_title : string;
  ss_messages : list StoredMessage;
  ss_createdAt : JDate;
  ss_updatedAt : JDate
}.

(** The item under the key [mosdac-sessions]: a text that does not parse to
    an array of sessions, or the document it parses to. *)
Inductive StoredItem :=
| Unreadable
| Document (d : list StoredSession).

Definition storeMessage (m : Message) : StoredMessage :=
  {| sm_id := msg_id m; sm_text := msg_text m; sm_sender := msg_sender m;
     sm_timestamp := dateToJSON (msg_timestamp m);
     sm_sources := msg_sources m; sm_entities := msg_entities m;
     sm_confidence := msg_confidence m |}.

Definition storeSession (s : ChatSession) : StoredSession :=
  {| ss_id := id s; ss_title := title s;
     ss_messages := List.map storeMessage (messages s);
     ss_createdAt := dateToJSON (createdAt s);
     ss_updatedAt := dateToJSON (updatedAt s) |}.

Definition reviveMessage (m : StoredMessage) : Message :=
  {| msg_id := sm_id m; msg_text := sm_text m; msg_sender := sm_sender m;
     msg_timestamp := dateOfJSON (sm_timestamp m);
     msg_sources := sm_sources m; msg_entities := sm_entities m;
     msg_confidence := sm_confidence m |}.

Definition reviveSession (s : StoredSession) : ChatSession :=
  {| id := ss_id s; title := ss_title s;
     messages := List.map reviveMessage (ss_messages s);
     createdAt := dateOfJSON (ss_createdAt s);
     updatedAt := dateOfJSON (ss_updatedAt s) |}.

(** The effect that runs on mount. *)
Definition loadSessions (item : option StoredItem) (current : list ChatSession)
    : list ChatSession :=
  match item with
  | Some (Document d) => List.map reviveSession d
  | Some Unreadable => current
  | None => current
  end.

(** The effect that runs whenever [sessions] has changed. *)
Definition saveSessions (l : list ChatSession) (item : option StoredItem)
    : option StoredItem :=
  if (0 <? length l)%nat then Some (Document (List.map storeSession l)) else item.

(** The page: the state of the hook and the stored item. *)
Record Page := {
  hook : ChatState;
  localStorage : option StoredItem
}.

(** The calls of the session repository. *)
Inductive RepoCall :=
| CreateSession (clk : CreateClock)
| DeleteSession (sessionId : string)
| RenameSession (sessionId newTitle : string) (now : Z).

Definition call (c : RepoCall) (st : ChatState) : ChatState :=
  match c with
  | CreateSession clk => snd (createNewSession clk st)
  | DeleteSession sessionId => deleteSession sessionId st
  | RenameSession sessionId newTitle now => renameSession sessionId newTitle now st
  end.

(** A sequence of calls, each in a render of its own. *)
Definition run (calls : list RepoCall) (st : ChatState) : ChatState :=
  fold_left (fun st c => call c st) calls st.

(** The current-session pointer is unset or names a session of the
    collection. *)
Definition pointerValid (st : ChatState) : Prop :=
  match currentSessionId st with
  | Some sid => exists s, In s (sessions st) /\ id s = sid
  | None => True
  end.

(** Everything that changes the session collection: the calls of the
    repository and the two updaters of [sendMessage]. *)
Inductive Mutation :=
| Call (c : RepoCall)
| AppendUserMessage (text : string) (clk : BeginClock)
| AppendReply (sessionId text : string) (api : Settled ResponseBody) (clk : SettleClock).

Definition mutate (m : Mutation) (st : ChatState) : ChatState :=
  match m with
  | Call c => call c st
  | AppendUserMessage text clk => snd (sendMessageBegin text clk st)
  | AppendReply sessionId text api clk => sendMessageSettle sessionId text api clk st
  end.

(** A mutation, the render it causes, and the save effect of that render. *)
Definition commit (m : Mutation) (p : Page) : Page :=
  let st := mutate m (hook p) in
  {| hook := st; localStorage := saveSessions (sessions st) (localStorage p) |}.

(** *** Export *)

Record ExportOptions := {
  format : string;
  includeMessages : bool;
  includeSources : bool;
  includeEntities : bool;
  includeMetadata : bool;
  dateRange : string;
  selectedSessions : list string
}.

Record ExportData := {
  exportedAt : string;
  options : ExportOptions;
  exportedSessions : list ChatSession
}.

Record Download := {
  filename : string;
  mimeType : string;
  content : string
}.

(** The readings of the clock in [exportData]: for [exportedAt], for the
    file name, and for the heading of the HTML report. *)
Record ExportClock := { c_exportedAt : Z; c_filename : Z; c_report : Z }.

Definition senderName (s : Sender) : string :=
  match s with user => "user" | bot => "bot" end.

Definition jsonOfDate (d : Date) : JSON :=
  match dateToJSON d with
  | JDateString s => JStr s
  | JDateNull => JNull
  end.

Definition jsonOfSource (x : Source) : JSON :=
  JObj [("url", JStr (src_url x)); ("title", JStr (src_title x));
        ("content", JStr (src_content x)); ("relevance", JNum (src_relevance x))].

Definition jsonOfEntity (x : Entity) : JSON :=
  JObj (members
    [("text", Some (JStr (ent_text x))); ("label", Some (JStr (ent_label x)));
     ("confidence", Some (JNum (ent_confidence x)));
     ("start", (fun z => JNum (Dec z 0)) <$> ent_start x);
     ("end", (fun z => JNum (Dec z 0)) <$> ent_end x)]).

Definition jsonOfMessage (m : Message) : JSON :=
  JObj (members
    [("id", Some (JStr (msg_id m)));
     ("text", JStr <$> msg_text m);
     ("sender", Some (JStr (senderName (msg_sender m))));
     ("timestamp", Some (jsonOfDate (msg_timestamp m)));
     ("sources", (fun l => JArr (List.map jsonOfSource l)) <$> msg_sources m);
     ("entities", (fun l => JArr (List.map jsonOfEntity l)) <$> msg_entities m);
     ("confidence", JNum <$> msg_confidence m)]).

Definition jsonOfSession (s : ChatSession) : JSON :=
  JObj [("id", JStr (id s)); ("title", JStr (title s));
        ("messages", JArr (List.map jsonOfMessage (messages s)));
        ("createdAt", jsonOfDate (createdAt s));
        ("updatedAt", jsonOfDate (updatedAt s))].

Definition jsonOfOptions (o : ExportOptions) : JSON :=
  JObj [("format", JStr (format o));
        ("includeMessages", JBool (includeMessages o));
        ("includeSources", JBool (includeSources o));
        ("includeEntities", JBool (includeEntities o));
        ("includeMetadata", JBool (includeMetadata o));
        ("dateRange", JStr (dateRange o));
        ("selectedSessions", JArr (List.map JStr (selectedSessions o)))].

Definition jsonOfExportData (d : ExportData) : JSON :=
  JObj [("exportedAt", JStr (exportedAt d));
        ("options", jsonOfOptions (options d));
        ("sessions", JArr (List.map jsonOfSession (exportedSessions d)))].

(** [sessions.filter(s => options.selectedSessions.includes(s.id))]. *)
Definition selectSessions (o : ExportOptions) (l : list ChatSession) : list ChatSession :=
  List.filter (fun s => existsb (String.eqb (id s)) (selectedSessions o)) l.

Definition withMessages (s : ChatSession) (ms : list Message) : ChatSession :=
  {| id := id s; title := title s; messages := ms;
     createdAt := createdAt s; updatedAt := updatedAt s |}.

Definition dropMessages (l : list ChatSession) : list ChatSession :=
  List.map (fun s => withMessages s []) l.

Definition dropSources (l : list ChatSession) : list ChatSession :=
  List.map (fun s => withMessages s
    (List.map (fun m =>
       {| msg_id := msg_id m; msg_text := msg_text m; msg_sender := msg_sender m;
          msg_timestamp := msg_timestamp m; msg_sources := None;
          msg_entities := msg_entities m; msg_confidence := msg_confidence m |})
     (messages s))) l.

Definition dropEntities (l : list ChatSession) : list ChatSession :=
  List.map (fun s => withMessages s
    (List.map (fun m =>
       {| msg_id := msg_id m; msg_text := msg_text m; msg_sender := msg_sender m;
          msg_timestamp := msg_timestamp m; msg_sources := msg_sources m;
          msg_entities := None; msg_confidence := msg_confidence m |})
     (messages s))) l.

(** The object that the JSON branches dump. *)
Definition buildExportData (o : ExportOptions) (clk : ExportClock)
    (l : list ChatSession) : ExportData :=
  let l0 := selectSessions o l in
  let l1 := if includeMessages o then l0 else dropMessages l0 in
  let l2 := if includeSources o then l1 else dropSources l1 in
  let l3 := if includeEntities o then l2 else dropEntities l2 in
  {| exportedAt := isoOfTime (c_exportedAt clk); options := o; exportedSessions := l3 |}.

Definition csvHeader : string :=
  "Session ID,Title,Message ID,Sender,Text,Timestamp,Confidence".

Definition quoted (s : string) : string := str dquote ++ s ++ str dquote.

(** [message.confidence || ''] as the join writes it. *)
Definition confidenceColumn (c : option number) : string :=
  match c with
  | Some x => if isZero x then "" else numberToString x
  | None => ""
  end.

(** One row; [None] when building it throws (an undefined text, or the
    Invalid Date as timestamp). *)
Definition csvRow (session : ChatSession) (message : Message) : option string :=
  text ← msg_text message;
  stamp ← toISOString (msg_timestamp message);
  Some (join "," [id session; quoted (title session); msg_id message;
                  senderName (msg_sender message); quoted (doubleQuotes text);
                  stamp; confidenceColumn (msg_confidence message)]).

Definition csvRows (selected : list ChatSession) : option (list string) :=
  rows ← mapM (fun session => mapM (csvRow session) (messages session)) selected;
  Some (csvHeader :: concat rows).

Definition exportJson (d : ExportData) (name : string) : Download :=
  {| filename := name ++ ".json";
     mimeType := "application/json";
     content := stringifyPretty (jsonOfExportData d) |}.

Definition exportCsv (selected : list ChatSession) (name : string) : option Download :=
  rows ← csvRows selected;
  Some {| filename := name ++ ".csv";
          mimeType := "text/csv";
          content := join (str newline) rows |}.

Section Rendering.

(** [Date.prototype.toLocaleString] depends on the locale of the browser. *)
Variable toLocaleString : Date -> string.

Definition htmlMessage (message : Message) : string :=
  q "
                <div class=`message " ++ senderName (msg_sender message) ++ q "`>
                    <strong>"
  ++ (match msg_sender message with user => "You" | bot => "MOSDAC AI" end) ++ ":</strong>
                    <p>"
  ++ (match msg_text message with Some t => t | None => "undefined" end) ++ q "</p>
                    <div class=`metadata`>"
  ++ toLocaleString (msg_timestamp message) ++ "</div>
                </div>
            ".

Definition htmlSession (session : ChatSession) : string :=
  q "
        <div class=`session`>
            <h2>" ++ title session ++ q "</h2>
            <p class=`metadata`>Created: "
  ++ toLocaleString (createdAt session) ++ "</p>
            "
  ++ join "" (List.map htmlMessage (messages session)) ++ "
        </div>
    ".

Definition htmlReport (selected : list ChatSession) (clk : ExportClock) : string :=
  "
<!DOCTYPE html>
<html>
<head>
    <title>MOSDAC Chat Export</title>
    <style>
        body { font-family: Arial, sans-serif; margin: 20px; }
        .session { margin-bottom: 30px; border: 1px solid #ddd; padding: 15px; }
        .message { margin: 10px 0; padding: 10px; border-radius: 5px; }
        .user { background: #e3f2fd; }
        .bot { background: #f5f5f5; }
        .metadata { font-size: 0.8em; color: #666; }
    </style>
</head>
<body>
    <h1>MOSDAC Chat Export</h1>
    <p>Exported on: " ++ toLocaleString (newDate (c_report clk)) ++ "</p>
    "
  ++ join "" (List.map htmlSession selected) ++ "
</body>
</html>".

Definition exportHtml (selected : list ChatSession) (clk : ExportClock) (name : string)
    : Download :=
  {| filename := name ++ ".html";
     mimeType := "text/html";
     content := htmlReport selected clk |}.

(** The [switch] on the format.  The JSON branches dump the export object;
    the CSV and HTML branches read the selected sessions. *)
Definition renderExport (o : ExportOptions) (clk : ExportClock)
    (data : ExportData) (selected : list ChatSession) : option Download :=
  let timestamp := hd "" (splitChar "T" (isoOfTime (c_filename clk))) in
  let name := "mosdac-export-" ++ timestamp in
  if String.eqb (format o) "json" then Some (exportJson data name)
  else if String.eqb (format o) "csv" then exportCsv selected name
  else if String.eqb (format o) "html" then Some (exportHtml selected clk name)
  else Some (exportJson data name).

(** [exportData]: the file handed to the browser, or [None] when an
    exception ends the call before the download. *)
Definition exportData (o : ExportOptions) (clk : ExportClock) (l : list ChatSession)
    : option Download :=
  renderExport o clk (buildExportData o clk l) (selectSessions o l).

End Rendering.

(** ** The export on the object graph

    [exportData] builds its result with [filter], [map] and object spread,
    and assigns to [exportData.sessions].  Whether this can change a session
    that the hook holds depends on which objects are shared, so here the
    sessions are objects in a store: the state of the hook is a reference to
    an array of references to session objects, whose [messages] property is
    a reference to an array of references to message objects. *)

Module Graph.

Definition loc := positive.

Inductive object :=
| SessionObject (sid stitle : string) (smessages : loc) (created updated : Date)
| MessageObject (m : Message)
| ArrayObject (items : list loc)
| ExportObject (exported : string) (opts : ExportOptions) (esessions : loc).

Abbreviation heap := (gmap loc object).

(** A computation on the store; [None] is an exception. *)
Definition M (A : Type) : Type := heap -> option (A * heap).

Definition ret {A} (a : A) : M A := fun h => Some (a, h).

Definition bind {A B} (c : M A) (k : A -> M B) : M B :=
  fun h => match c h with
           | Some (a, h') => k a h'
           | None => None
           end.

Notation "x <- c ;; k" := (bind c (fun x => k))
  (at level 100, c at next level, right associativity).

(** An object literal, or the array returned by [filter] or [map]. *)
Definition alloc (o : object) : M loc :=
  fun h => let l := fresh (dom h) in Some (l, <[l := o]> h).

Definition readArray (l : loc) : M (list loc) :=
  fun h => match h !! l with
           | Some (ArrayObject items) => Some (items, h)
           | _ => None
           end.

Definition readObject (l : loc) : M object :=
  fun h => match h !! l with
           | Some o => Some (o, h)
           | None => None
           end.

(** The assignment [exportData.sessions = a]. *)
Definition assignSessions (l a : loc) : M unit :=
  fun h => match h !! l with
           | Some (ExportObject exported opts _) =>
               Some (tt, <[l := ExportObject exported opts a]> h)
           | _ => None
           end.

Fixpoint mapLocs (f : loc -> M loc) (ls : list loc) : M (list loc) :=
  match ls with
  | [] => ret []
  | l :: rest => l' <- f l ;; rest' <- mapLocs f rest ;; ret (l' :: rest')
  end.

Fixpoint filterLocs (keep : loc -> M bool) (ls : list loc) : M (list loc) :=
  match ls with
  | [] => ret []
  | l :: rest =>
      b <- keep l ;; rest' <- filterLocs keep rest ;;
      ret (if b then l :: rest' else rest')
  end.

(** [a.map(f)] and [a.filter(keep)]: a new array. *)
Definition arrayMap (f : loc -> M loc) (a : loc) : M loc :=
  items <- readArray a ;; items' <- mapLocs f items ;; alloc (ArrayObject items').

Definition arrayFilter (keep : loc -> M bool) (a : loc) : M loc :=
  items <- readArray a ;; items' <- filterLocs keep items ;; alloc (ArrayObject items').

(** [s => options.selectedSessions.includes(s.id)]. *)
Definition isSelected (o : ExportOptions) (l : loc) : M bool :=
  s <- readObject l ;;
  match s with
  | SessionObject sid _ _ _ _ => ret (existsb (String.eqb sid) (selectedSessions o))
  | _ => fun _ => None
  end.

(** [s => ({ ...s, messages: [] })]. *)
Definition withoutMessages (l : loc) : M loc :=
  s <- readObject l ;;
  match s with
  | SessionObject sid stitle _ created updated =>
      empty <- alloc (ArrayObject []) ;;
      alloc (SessionObject sid stitle empty created updated)
  | _ => fun _ => None
  end.

(** [m => ({ ...m, sources: undefined })] and the same for the entities. *)
Definition withoutSources (l : loc) : M loc :=
  o <- readObject l ;;
  match o with
  | MessageObject m =>
      alloc (MessageObject
        {| msg_id := msg_id m; msg_text := msg_text m; msg_sender := msg_sender m;
           msg_timestamp := msg_timestamp m; msg_sources := None;
           msg_entities := msg_entities m; msg_confidence := msg_confidence m |})
  | _ => fun _ => None
  end.

Definition withoutEntities (l : loc) : M loc :=
  o <- readObject l ;;
  match o with
  | MessageObject m =>
      alloc (MessageObject
        {| msg_id := msg_id m; msg_text := msg_text m; msg_sender := msg_sender m;
           msg_timestamp := msg_timestamp m; msg_sources := msg_sources m;
           msg_entities := None; msg_confidence := msg_confidence m |})
  | _ => fun _ => None
  end.

(** [s => ({ ...s, messages: s.messages.map(f) })]. *)
Definition mapMessages (f : loc -> M loc) (l : loc) : M loc :=
  s <- readObject l ;;
  match s with
  | SessionObject sid stitle smessages created updated =>
      smessages' <- arrayMap f smessages ;;
      alloc (SessionObject sid stitle smessages' created updated)
  | _ => fun _ => None
  end.

(** [exportData.sessions = exportData.sessions.map(f)]. *)
Definition remapSessions (f : loc -> M loc) (dataRef : loc) : M unit :=
  d <- readObject dataRef ;;
  match d with
  | ExportObject _ _ esessions =>
      a <- arrayMap f esessions ;; assignSessions dataRef a
  | _ => fun _ => None
  end.

(** Reading the graph, as the serialisers do. *)
Definition messageAt (h : heap) (l : loc) : option Message :=
  match h !! l with
  | Some (MessageObject m) => Some m
  | _ => None
  end.

Definition messagesAt (h : heap) (a : loc) : option (list Message) :=
  match h !! a with
  | Some (ArrayObject items) => mapM (messageAt h) items
  | _ => None
  end.

Definition sessionAt (h : heap) (l : loc) : option ChatSession :=
  match h !! l with
  | Some (SessionObject sid stitle smessages created updated) =>
      ms ← messagesAt h smessages;
      Some {| id := sid; title := stitle; messages := ms;
              createdAt := created; updatedAt := updated |}
  | _ => None
  end.

Definition sessionsAt (h : heap) (a : loc) : option (list ChatSession) :=
  match h !! a with
  | Some (ArrayObject items) => mapM (sessionAt h) items
  | _ => None
  end.

Definition exportDataAt (h : heap) (l : loc) : option ExportData :=
  match h !! l with
  | Some (ExportObject exported opts esessions) =>
      ss ← sessionsAt h esessions;
      Some {| exportedAt := exported; options := opts; exportedSessions := ss |}
  | _ => None
  end.

Definition readSessions (a : loc) : M (list ChatSession) :=
  fun h => match sessionsAt h a with
           | Some l => Some (l, h)
           | None => None
           end.

Definition readExportData (l : loc) : M ExportData :=
  fun h => match exportDataAt h l with
           | Some d => Some (d, h)
           | None => None
           end.

(** The state of the hook, its collection held by reference. *)
Record Machine := {
  store : heap;
  sessionsRef : loc;
  current : option string;
  loading : bool
}.

(** The collection that the hook holds. *)
Definition collection (m : Machine) : option (list ChatSession) :=
  sessionsAt (store m) (sessionsRef m).

Section Calls.

Variable toLocaleString : Date -> string.

(** [exportData(options)], statement by statement.  The result is the file
    handed to the browser, if any. *)
Definition exportData (o : ExportOptions) (clk : ExportClock) (sessionsRef : loc)
    : M (option Download) :=
  selectedRef <- arrayFilter (isSelected o) sessionsRef ;;
  dataRef <- alloc (ExportObject (isoOfTime (c_exportedAt clk)) o selectedRef) ;;
  _ <- (if includeMessages o then ret tt else remapSessions withoutMessages dataRef) ;;
  _ <- (if includeSources o then ret tt
        else remapSessions (mapMessages withoutSources) dataRef) ;;
  _ <- (if includeEntities o then ret tt
        else remapSessions (mapMessages withoutEntities) dataRef) ;;
  data <- readExportData dataRef ;;
  selected <- readSessions selectedRef ;;
  ret (renderExport toLocaleString o clk data selected).

(** A call of [exportData] from the state of the hook; [None] when an
    object of the graph is not what the code takes it to be. *)
Definition exportCall (o : ExportOptions) (clk : ExportClock) (m : Machine)
    : option (option Download * Machine) :=
  match exportData o clk (sessionsRef m) (store m) with
  | Some (file, h) =>
      Some (file, {| store := h; sessionsRef := sessionsRef m;
                     current := current m; loading := loading m |})
  | None => None
  end.

End Calls.

(** Putting a collection into a store. *)
Fixpoint allocAll {A} (f : A -> M loc) (xs : list A) : M (list loc) :=
  match xs with
  | [] => ret []
  | x :: rest => l <- f x ;; ls <- allocAll f rest ;; ret (l :: ls)
  end.

Definition allocSession (s : ChatSession) : M loc :=
  ms <- allocAll (fun m => alloc (MessageObject m)) (messages s) ;;
  a <- alloc (ArrayObject ms) ;;
  alloc (SessionObject (id s) (title s) a (createdAt s) (updatedAt s)).

Definition allocSessions (l : list ChatSession) : M loc :=
  ss <- allocAll allocSession l ;; alloc (ArrayObject ss).

Definition machineOf (l : list ChatSession) (cur : option string) : option Machine :=
  match allocSessions l ∅ with
  | Some (r, h) => Some {| store := h; sessionsRef := r; current := cur; loading := false |}
  | None => None
  end.

End Graph.

(** ** Specifications on the object graph *)

Module GraphSpec.
Import Graph.

(** [c] started in [h] returns a value and a store that satisfy [Q], and
    the store it returns extends [h]: no object of [h] is changed. *)
Definition grows {A} (c : M A) (h : heap) (Q : A -> heap -> Prop) : Prop :=
  exists a h', c h = Some (a, h') /\ h ⊆ h' /\ Q a h'.

Definition isExportObject (o : object) : bool :=
  match o with
  | ExportObject _ _ _ => true
  | _ => false
  end.

(** Every session, message and array of [h] is in [h'] as it was. *)
Definition preserved (h h' : heap) : Prop :=
  forall l o, h !! l = Some o -> isExportObject o = false -> h' !! l = Some o.

(** Reading an array of references element by element. *)
Definition arrayAt {X} (R : heap -> loc -> option X) (h : heap) (a : loc)
    : option (list X) :=
  match h !! a with
  | Some (ArrayObject items) => mapM (R h) items
  | _ => None
  end.

(** A reading that gives the same result when sessions, messages and arrays
    are kept. *)
Definition stable {X} (R : heap -> loc -> option X) : Prop :=
  forall h h' l x, preserved h h' -> R h l = Some x -> R h' l = Some x.

Definition stripSources (m : Message) : Message :=
  {| msg_id := msg_id m; msg_text := msg_text m; msg_sender := msg_sender m;
     msg_timestamp := msg_timestamp m; msg_sources := None;
     msg_entities := msg_entities m; msg_confidence := msg_confidence m |}.

Definition stripEntities (m : Message) : Message :=
  {| msg_id := msg_id m; msg_text := msg_text m; msg_sender := msg_sender m;
     msg_timestamp := msg_timestamp m; msg_sources := msg_sources m;
     msg_entities := None; msg_confidence := msg_confidence m |}.

(** The state in the middle of [exportData]: the store [h0] of the hook is
    untouched, the export object [d] is not one of its objects, and [d] holds
    the sessions [cur] while the array [sel] holds the selected ones. *)
Definition exporting (h0 : heap) (d : loc) (e : string) (o : ExportOptions)
    (sel : loc) (selected cur : list ChatSession) (h : heap) : Prop :=
  h0 ⊆ h /\ h0 !! d = None
  /\ sessionsAt h sel = Some selected
  /\ exists a, h !! d = Some (ExportObject e o a) /\ sessionsAt h a = Some cur.

End GraphSpec.

(** ** Well-formed timestamps *)

Definition messageDated (m : Message) : Prop := validDate (msg_timestamp m).

(** Every timestamp of the session is a valid Date, as every Date made by
    [new Date()] is. *)
Definition sessionDated (s : ChatSession) : Prop :=
  validDate (createdAt s) /\ validDate (updatedAt s) /\ Forall messageDated (messages s).

Definition validDateb (d : Date) : bool :=
  match d with
  | TimeValue t => ((- maxTime <=? t) && (t <=? maxTime))%Z
  | InvalidDate => false
  end.

Definition sessionDatedb (s : ChatSession) : bool :=
  validDateb (createdAt s) && validDateb (updatedAt s)
  && forallb (fun m => validDateb (msg_timestamp m)) (messages s).

(** ** What the CSV export needs of its input *)

(** Building the row of a message does not throw: its text is defined and
    its timestamp is not the Invalid Date. *)
Definition messageReady (m : Message) : bool :=
  match msg_text m, msg_timestamp m with
  | Some _, TimeValue _ => true
  | _, _ => false
  end.

Definition csvReady (s : ChatSession) : bool := forallb messageReady (messages s).

(** No line feed in the string. *)
Definition singleLine (s : string) : bool := allChars notNewline s.

Definition messageSingleLine (m : Message) : bool :=
  singleLine (msg_id m)
  && match msg_text m with Some t => singleLine t | None => true end.

Definition sessionSingleLine (s : ChatSession) : bool :=
  singleLine (id s) && singleLine (title s) && forallb messageSingleLine (messages s).

(** The messages of the selected sessions, each with its session, session
    by session and within a session in the order of the conversation. *)
Definition messagesInOrder (selected : list ChatSession) : list (ChatSession * Message) :=
  flat_map (fun s => List.map (pair s) (messages s)) selected.

(** [row] is the CSV row of message [snd sm] of session [fst sm]. *)
Definition rowFor (row : string) (sm : ChatSession * Message) : Prop :=
  exists text stamp,
    msg_text (snd sm) = Some text
    /\ toISOString (msg_timestamp (snd sm)) = Some stamp
    /\ row = join "," [id (fst sm); quoted (title (fst sm)); msg_id (snd sm);
                       senderName (msg_sender (snd sm)); quoted (doubleQuotes text);
                       stamp; confidenceColumn (msg_confidence (snd sm))].

(** Reading a quoted CSV field: two double quotes stand for one. *)
Fixpoint undoubleQuotes (s : string) : string :=
  match s with
  | EmptyString => EmptyString
  | String c r =>
      if Ascii.eqb c dquote
      then match r with
           | String c' r' => String c' (undoubleQuotes r')
           | EmptyString => str c
           end
      else String c (undoubleQuotes r)
  end.

Definition withFormat (f : string) (o : ExportOptions) : ExportOptions :=
  {| format := f;
     includeMessages := includeMessages o;
     includeSources := includeSources o;
     includeEntities := includeEntities o;
     includeMetadata := includeMetadata o;
     dateRange := dateRange o;
     selectedSessions := selectedSessions o |}.

(** The name of the exported file without its extension. *)
Definition exportName (clk : ExportClock) : string :=
  "mosdac-export-" ++ hd "" (splitChar "T" (isoOfTime (c_filename clk))).

(** ** What a call of [sendMessage] starts from *)

(** The collection the appends of a call act on: the collection of the
    state, with the new session in front when the call creates one. *)
Definition sessionsAtSend (clk : BeginClock) (st : ChatState) : list ChatSession :=
  if falsyId (currentSessionId st)
  then fst (createNewSession (c_session clk) st) :: sessions st
  else sessions st.

(** The session id the call captures. *)
Definition capturedId (clk : BeginClock) (st : ChatState) : string :=
  fst (sendMessageBegin "" clk st).

(** ** What the user can do while a call waits *)

Inductive UiEvent :=
| Repo (c : RepoCall)
| Select (sessionId : string).

Definition react (e : UiEvent) (st : ChatState) : ChatState :=
  match e with
  | Repo c => call c st
  | Select sessionId => selectSession sessionId st
  end.

Definition reactAll (events : list UiEvent) (st : ChatState) : ChatState :=
  fold_left (fun st e => react e st) events st.

(** The event neither deletes the sessions with id [sid] nor creates one. *)
Definition spares (sid : string) (e : UiEvent) : bool :=
  match e with
  | Repo (DeleteSession d) => negb (String.eqb d sid)
  | Repo (CreateSession clk) => negb (String.eqb (intToString (c_id clk)) sid)
  | Repo (RenameSession _ _ _) => true
  | Select _ => true
  end.

(** The message sequences of the sessions with id [sid]. *)
Definition messagesOf (sid : string) (l : list ChatSession) : list (list Message) :=
  List.map messages (List.filter (fun s => String.eqb (id s) sid) l).

(** The clock readings of a mutation that become timestamps are time
    values a Date can hold. *)
Definition createClocked (clk : CreateClock) : Prop :=
  validTime (c_createdAt clk) /\ validTime (c_updatedAt clk).

Definition mutationClocked (m : Mutation) : Prop :=
  match m with
  | Call (CreateSession clk) => createClocked clk
  | Call (DeleteSession _) => True
  | Call (RenameSession _ _ now) => validTime now
  | AppendUserMessage _ clk =>
      createClocked (c_session clk) /\ validTime (c_userTimestamp clk)
      /\ validTime (c_userUpdatedAt clk)
  | AppendReply _ _ _ clk =>
      validTime (c_botTimestamp clk) /\ validTime (c_botUpdatedAt clk)
  end.

(** ** The callers of the hook ([src/App.tsx], [src/components/ChatInput.tsx]) *)

(** The part of [sendMessage] before the remote call, as the callback of a
    given render: [captured] is the [currentSessionId] that render saw, which
    state updates queued since then have not changed. *)
Definition sendMessageBeginFrom (captured : option string) (text : string)
    (clk : BeginClock) (st : ChatState) : string * ChatState :=
  let '(sessionId, st1) :=
    match captured with
    | Some sid =>
        if truthy sid then (sid, st)
        else let '(newSession, st') := createNewSession (c_session clk) st in
             (id newSession, st')
    | None =>
        let '(newSession, st') := createNewSession (c_session clk) st in
        (id newSession, st')
    end in
  (sessionId,
   {| sessions := addUserMessage sessionId (userMessageOf text clk) text
                    (c_userUpdatedAt clk) (sessions st1);
      currentSessionId := currentSessionId st1;
      isLoading := true |}).

(** [handleQuickStart]: both calls are made in the render that shows the
    welcome screen, so [sendMessage] still sees the pointer of that render. *)
Definition handleQuickStart (q0 : string) (clk0 : CreateClock) (clk : BeginClock)
    (st : ChatState) : string * ChatState :=
  let st1 := if falsyId (currentSessionId st) then snd (createNewSession clk0 st) else st in
  sendMessageBeginFrom (currentSessionId st) q0 clk st1.

Record File := { fileName : string; fileSize : Z }.

(** [(size / 1024).toFixed(1)] for a size in bytes, which is not negative:
    the quotient is exact, and it is rounded to the nearest tenth, a tie
    going up. *)
Definition kilobytes (bytes : Z) : string :=
  let n := ((20 * bytes + 1024) / 2048)%Z in
  intToString (n / 10)%Z ++ "." ++ str (digitChar (n mod 10)%Z).

Definition fileMessage (f : File) : string :=
  "📎 Uploaded file: " ++ fileName f ++ " (" ++ kilobytes (fileSize f) ++ " KB)".

(** [handleFileUpload]: one [sendMessage] per file, all from the same
    render; each runs up to its remote call before the next starts.  The
    result lists the session ids the calls captured. *)
Fixpoint handleFileUpload (captured : option string) (files : list (File * BeginClock))
    (st : ChatState) : list string * ChatState :=
  match files with
  | [] => ([], st)
  | (f, clk) :: rest =>
      let '(sid, st1) := sendMessageBeginFrom captured (fileMessage f) clk st in
      let '(sids, st2) := handleFileUpload captured rest st1 in
      (sid :: sids, st2)
  end.


(** ** Editing a title in the sidebar ([src/components/Sidebar.tsx]) *)




(** ** The export dialog ([src/components/ExportModal.tsx]) *)

Definition initialExportOptions : ExportOptions :=
  {| format := "json"; includeMessages := true; includeSources := true;
     includeEntities := true; includeMetadata := true; dateRange := "all";
     selectedSessions := [] |}.

Definition withSelected (sel : list string) (o : ExportOptions) : ExportOptions :=
  {| format := format o;
     includeMessages := includeMessages o;
     includeSources := includeSources o;
     includeEntities := includeEntities o;
     includeMetadata := includeMetadata o;
     dateRange := dateRange o;
     selectedSessions := sel |}.

(** The check box that selects every session, or none. *)
Definition toggleAll (checked : bool) (l : list ChatSession) (o : ExportOptions)
    : ExportOptions :=
  withSelected (if checked then List.map id l else []) o.

(** The check box of one session. *)
Definition toggleSession (sessionId : string) (checked : bool) (o : ExportOptions)
    : ExportOptions :=
  withSelected
    (if checked then (selectedSessions o ++ [sessionId])%list
     else List.filter (fun i => negb (String.eqb i sessionId)) (selectedSessions o)) o.

(** A click on the export button, which is disabled while nothing is
    selected: [None] when the click does nothing, and otherwise what
    [handleExport] gets from [exportData] for the options as they are. *)
Definition clickExport (toLocaleString : Date -> string) (o : ExportOptions)
    (clk : ExportClock) (l : list ChatSession) : option (option Download) :=
  if (length (selectedSessions o) =? 0)%nat then None
  else Some (exportData toLocaleString o clk l).

(** ** The settings hook ([src/hooks/useSettings.ts]) *)

(** A numeric setting: a finite number, the NaN that [parseInt] gives for an
    input that is not a number, an infinity, or the [null] that a stored
    value which is not finite is read back as. *)
Inductive NumberSetting :=
| IsNumber (n : number)
| IsNaN
| IsInfinity (negative : bool)
| IsNull.

Record Settings := {
  theme : string;
  language : string;
  enableNotifications : bool;
  enableVoice : bool;
  apiEndpoint : string;
  apiKey : string;
  requestTimeout : NumberSetting;
  enableRealTimeUpdates : bool;
  maxMessages : NumberSetting;
  autoSaveInterval : NumberSetting;
  enableCaching : bool;
  enableAnalytics : bool
}.

(** [Partial<Settings>], and the object a stored text parses to: a field is
    [None] when the property is absent. *)
Record PartialSettings := {
  p_theme : option string;
  p_language : option string;
  p_enableNotifications : option bool;
  p_enableVoice : option bool;
  p_apiEndpoint : option string;
  p_apiKey : option string;
  p_requestTimeout : option NumberSetting;
  p_enableRealTimeUpdates : option bool;
  p_maxMessages : option NumberSetting;
  p_autoSaveInterval : option NumberSetting;
  p_enableCaching : option bool;
  p_enableAnalytics : option bool
}.

Definition defaultSettings : Settings :=
  {| theme := "light";
     language := "en";
     enableNotifications := true;
     enableVoice := true;
     apiEndpoint := "http://localhost:8000/api/v1";
     apiKey := "";
     requestTimeout := IsNumber (Dec 30 0);
     enableRealTimeUpdates := true;
     maxMessages := IsNumber (Dec 100 0);
     autoSaveInterval := IsNumber (Dec 5 0);
     enableCaching := true;
     enableAnalytics := false |}.

(** The spread [{ ...s, ...p }]. *)
Definition mergeSettings (s : Settings) (p : PartialSettings) : Settings :=
  {| theme := default (theme s) (p_theme p);
     language := default (language s) (p_language p);
     enableNotifications := default (enableNotifications s) (p_enableNotifications p);
     enableVoice := default (enableVoice s) (p_enableVoice p);
     apiEndpoint := default (apiEndpoint s) (p_apiEndpoint p);
     apiKey := default (apiKey s) (p_apiKey p);
     requestTimeout := default (requestTimeout s) (p_requestTimeout p);
     enableRealTimeUpdates := default (enableRealTimeUpdates s) (p_enableRealTimeUpdates p);
     maxMessages := default (maxMessages s) (p_maxMessages p);
     autoSaveInterval := default (autoSaveInterval s) (p_autoSaveInterval p);
     enableCaching := default (enableCaching s) (p_enableCaching p);
     enableAnalytics := default (enableAnalytics s) (p_enableAnalytics p) |}.

(** [JSON.stringify] writes a number that is not finite as [null]. *)
Definition storedNumber (x : NumberSetting) : NumberSetting :=
  match x with
  | IsNumber n => IsNumber n
  | IsNaN => IsNull
  | IsInfinity _ => IsNull
  | IsNull => IsNull
  end.

(** What [JSON.stringify(settings)] writes and [JSON.parse] reads back. *)
Definition storeSettings (s : Settings) : PartialSettings :=
  {| p_theme := Some (theme s);
     p_language := Some (language s);
     p_enableNotifications := Some (enableNotifications s);
     p_enableVoice := Some (enableVoice s);
     p_apiEndpoint := Some (apiEndpoint s);
     p_apiKey := Some (apiKey s);
     p_requestTimeout := Some (storedNumber (requestTimeout s));
     p_enableRealTimeUpdates := Some (enableRealTimeUpdates s);
     p_maxMessages := Some (storedNumber (maxMessages s));
     p_autoSaveInterval := Some (storedNumber (autoSaveInterval s));
     p_enableCaching := Some (enableCaching s);
     p_enableAnalytics := Some (enableAnalytics s) |}.

(** The item under the key [mosdac-settings]. *)
Inductive SettingsItem :=
| UnreadableSettings
| SettingsDocument (p : PartialSettings).

(** The effect that runs on mount. *)
Definition loadSettings (item : option SettingsItem) (current : Settings) : Settings :=
  match item with
  | Some (SettingsDocument parsed) => mergeSettings defaultSettings parsed
  | Some UnreadableSettings => current
  | None => current
  end.

(** [updateSettings], on the settings [s] of the render it belongs to: the
    new state and the item it writes. *)
Definition updateSettings (s : Settings) (newSettings : PartialSettings)
    : Settings * option SettingsItem :=
  let updatedSettings := mergeSettings s newSettings in
  (updatedSettings, Some (SettingsDocument (storeSettings updatedSettings))).

(** The settings with every number that is not finite turned into [null]. *)
Definition nonFiniteAsNull (s : Settings) : Settings :=
  {| theme := theme s;
     language := language s;
     enableNotifications := enableNotifications s;
     enableVoice := enableVoice s;
     apiEndpoint := apiEndpoint s;
     apiKey := apiKey s;
     requestTimeout := storedNumber (requestTimeout s);
     enableRealTimeUpdates := enableRealTimeUpdates s;
     maxMessages := storedNumber (maxMessages s);
     autoSaveInterval := storedNumber (autoSaveInterval s);
     enableCaching := enableCaching s;
     enableAnalytics := enableAnalytics s |}.

Definition notFinite (x : NumberSetting) : bool :=
  match x with
  | IsNaN => true
  | IsInfinity _ => true
  | _ => false
  end.

Definition hasNotFinite (s : Settings) : bool :=
  notFinite (requestTimeout s) || notFinite (maxMessages s)
  || notFinite (autoSaveInterval s).

(** ** A run of the page *)

(** Mutations one after the other, each with its render and save effect. *)
Definition commits (ms : list Mutation) (p : Page) : Page :=
  fold_left (fun p m => commit m p) ms p.

(** The page after mounting: the load effect has read the stored item. *)
Definition mount (item : option StoredItem) : Page :=
  {| hook := {| sessions := loadSessions item (sessions initialState);
                currentSessionId := currentSessionId initialState;
                isLoading := isLoading initialState |};
     localStorage := saveSessions (loadSessions item (sessions initialState))
                       (saveSessions (sessions initialState) item) |}.

(** ** Sample data used by the examples *)

Definition sampleSession : ChatSession :=
  {| id := "1"; title := "New Chat"; messages := [];
     createdAt := TimeValue 0; updatedAt := TimeValue 0 |}.

Definition sampleState : ChatState :=
  {| sessions := [sampleSession]; currentSessionId := Some "1"; isLoading := false |}.

Definition undatedSession : ChatSession :=
  {| id := "1"; title := "New Chat"; messages := [];
     createdAt := InvalidDate; updatedAt := TimeValue 0 |}.

Definition samplePage : Page :=
  {| hook := sampleState;
     localStorage := Some (Document [storeSession sampleSession]) |}.

Definition sampleBegin : BeginClock :=
  {| c_session := {| c_id := 1700000000000; c_createdAt := 1700000000000;
                     c_updatedAt := 1700000000001 |};
     c_userId := 1700000000002;
     c_userTimestamp := 1700000000002;
     c_userUpdatedAt := 1700000000003 |}.

Definition sampleSettle : SettleClock :=
  {| c_botId := 1700000002000; c_botTimestamp := 1700000002000;
     c_botUpdatedAt := 1700000002001 |}.

(** One exchange answered by the local substitute. *)
Definition sampleConversation : list ChatSession :=
  sessions (sendMessage "What is INSAT-3D?" (NetworkError "Failed to fetch")
              sampleBegin sampleSettle initialState).

Definition sampleLocale (d : Date) : string :=
  match toISOString d with
  | Some s => s
  | None => "Invalid Date"
  end.

Definition sampleOptions : ExportOptions :=
  {| format := "json"; includeMessages := true; includeSources := true;
     includeEntities := true; includeMetadata := true; dateRange := "all";
     selectedSessions := ["1"; "2"] |}.

Definition sampleExportClock : ExportClock :=
  {| c_exportedAt := 1700000003000; c_filename := 1700000003000;
     c_report := 1700000003001 |}.

Definition plainMessage (i t : string) (who : Sender) (at_ : Z) : Message :=
  {| msg_id := i; msg_text := Some t; msg_sender := who;
     msg_timestamp := TimeValue at_;
     msg_sources := None; msg_entities := None; msg_confidence := None |}.

(** Two sessions with three messages, each on one line. *)
Definition threeMessages : list ChatSession :=
  [{| id := "1"; title := "Rain, today";
      messages := [plainMessage "11" "Rain, today?" user 1700000000000;
                   plainMessage "12" (q "It says `no`.") bot 1700000001000];
      createdAt := TimeValue 1700000000000; updatedAt := TimeValue 1700000001000 |};
   {| id := "2"; title := "Tides";
      messages := [plainMessage "21" "Tides" user 1700000002000];
      createdAt := TimeValue 1700000002000; updatedAt := TimeValue 1700000002000 |}].

(** The same, one reply running over two lines. *)
Definition threeMessagesTwoLines : list ChatSession :=
  [{| id := "1"; title := "Rain, today";
      messages := [plainMessage "11" "Rain, today?" user 1700000000000;
                   plainMessage "12" "No rain.
Clear sky." bot 1700000001000];
      createdAt := TimeValue 1700000000000; updatedAt := TimeValue 1700000001000 |};
   {| id := "2"; title := "Tides";
      messages := [plainMessage "21" "Tides" user 1700000002000];
      createdAt := TimeValue 1700000002000; updatedAt := TimeValue 1700000002000 |}].

(** The state after selecting an id that names no session. *)
Definition staleState : ChatState := selectSession "42" initialState.

Definition sampleMachine : Graph.Machine :=
  match Graph.machineOf threeMessages (Some "1") with
  | Some m => m
  | None => {| Graph.store := ∅; Graph.sessionsRef := 1%positive;
               Graph.current := None; Graph.loading := false |}
  end.

(** A stored session whose [createdAt] is not a date-time string. *)
Definition misdatedStored : StoredSession :=
  {| ss_id := "1"; ss_title := "New Chat"; ss_messages := [];
     ss_createdAt := JDateString "yesterday";
     ss_updatedAt := JDateString "1970-01-01T00:00:00.000Z" |}.

(** A reply of the service that holds no text. *)
Definition emptyResponse : ResponseObject :=
  {| r_answer := None; r_response := None; r_sources := None;
     r_entities := None; r_confidence := None |}.

(** One exchange answered by the service with that reply. *)
Definition textlessConversation : list ChatSession :=
  sessions (sendMessage "What is INSAT-3D?" (HttpOk (BodyObject emptyResponse))
              sampleBegin sampleSettle sampleState).

(** A session whose title and text hold markup. *)
Definition markupSession : ChatSession :=
  {| id := "1"; title := "<b>Rain</b>";
     messages := [plainMessage "11" "<script>alert(1)</script>" user 1700000000000];
     createdAt := TimeValue 1700000000000; updatedAt := TimeValue 1700000000000 |}.

(** Not the letter that ends the date in a date-time string. *)
Definition notT (c : ascii) : bool := negb (Ascii.eqb c "T").

(* ===================================================================== *)
(** * Part II.  Theorems                                                  *)
(* ===================================================================== *)

(** ** Strings *)

Lemma string_app_assoc (a b c : string) : (a ++ b) ++ c = a ++ (b ++ c).
Proof. induction a as [|x a IH]; simpl; [reflexivity|]. rewrite IH. reflexivity. Qed.

Lemma string_app_nil_r (a : string) : a ++ "" = a.
Proof. induction a as [|x a IH]; simpl; [reflexivity|]. rewrite IH. reflexivity. Qed.

Lemma prefix_spec (k s : string) : String.prefix k s = true <-> exists b, s = k ++ b.
Proof.
  revert s. induction k as [|c k IH]; intros s.
  - destruct s; simpl; split; eauto.
  - destruct s as [|c' s]; simpl.
    + split; [discriminate|]. intros [b Hb]. discriminate.
    + destruct (ascii_dec c c') as [->|Hne].
      * rewrite IH. split; intros [b Hb]; exists b; congruence.
      * split; [discriminate|]. intros [b Hb]. congruence.
Qed.

Lemma includes_spec (s k : string) : includes s k = true <-> occursIn k s.
Proof.
  induction s as [|c s IH]; cbn [includes].
  - rewrite orb_false_r, prefix_spec. split.
    + intros [b Hb]. exists "", b. exact Hb.
    + intros [a [b Hab]]. destruct a; simpl in Hab; [eauto|discriminate].
  - rewrite orb_true_iff, prefix_spec, IH. split.
    + intros [[b Hb]|[a [b Hab]]].
      * exists "", b. exact Hb.
      * exists (String c a), b. simpl. congruence.
    + intros [a [b Hab]]. destruct a as [|c' a]; simpl in Hab.
      * left. eauto.
      * right. exists a, b. congruence.
Qed.

Lemma includes_false_spec (s k : string) : includes s k = false <-> ~ occursIn k s.
Proof.
  rewrite <- includes_spec. destruct (includes s k); split; congruence.
Qed.

(** ** The local substitute *)

Lemma firstMatch_first (lq : string) (table pre post : list MockResponse)
    (m : MockResponse) (k : string) :
  table = (pre ++ m :: post)%list ->
  query m = Some k -> occursIn k lq ->
  (forall m' k', In m' pre -> query m' = Some k' -> ~ occursIn k' lq) ->
  firstMatch lq table = Some m.
Proof.
  intros -> Hq Hk. induction pre as [|m0 pre IH]; intros Hpre; cbn [app firstMatch].
  - rewrite Hq. apply includes_spec in Hk. rewrite Hk. reflexivity.
  - destruct (query m0) as [k0|] eqn:E0.
    + assert (includes lq k0 = false) as ->.
      { apply includes_false_spec. apply (Hpre m0); [left; reflexivity|exact E0]. }
      apply IH. intros m' k' Hin. apply Hpre. right. exact Hin.
    + apply IH. intros m' k' Hin. apply Hpre. right. exact Hin.
Qed.

Lemma firstMatch_none (lq : string) (table : list MockResponse) :
  (forall m k, In m table -> query m = Some k -> ~ occursIn k lq) ->
  firstMatch lq table = None.
Proof.
  induction table as [|m0 table IH]; intros H; cbn [firstMatch]; [reflexivity|].
  destruct (query m0) as [k0|] eqn:E0.
  - assert (includes lq k0 = false) as ->.
    { apply includes_false_spec. apply (H m0); [left; reflexivity|exact E0]. }
    apply IH. intros m k Hin. apply H. right. exact Hin.
  - apply IH. intros m k Hin. apply H. right. exact Hin.
Qed.

(** C3.  The fallback generator answers with the entry of the first keyword
    of the table that occurs in the lowercased query, whole (answer, sources,
    entities, confidence); when no keyword occurs it answers with the generic
    text, confidence 0.75 and no entities.  The query [What is INSAT-3D?]
    gets the INSAT entry, confidence 0.92. *)
Theorem getMockResponse_spec (q0 : string) :
  (forall pre m post k,
      mockBotResponses = (pre ++ m :: post)%list ->
      query m = Some k -> occursIn k (toLowerCase q0) ->
      (forall m' k', In m' pre -> query m' = Some k' -> ~ occursIn k' (toLowerCase q0)) ->
      getMockResponse q0 = m)
  /\ ((forall m k, In m mockBotResponses -> query m = Some k ->
         ~ occursIn k (toLowerCase q0)) ->
      getMockResponse q0 = defaultResponse q0
      /\ response (getMockResponse q0) = defaultBody q0
      /\ confidence (getMockResponse q0) = Dec 75 (-2)
      /\ entities (getMockResponse q0) = [])
  /\ (occursIn "insat" (toLowerCase "What is INSAT-3D?")
      /\ nth_error mockBotResponses 0 = Some (getMockResponse "What is INSAT-3D?")
      /\ response (getMockResponse "What is INSAT-3D?") = insatBody
      /\ sources (getMockResponse "What is INSAT-3D?") = mockSources
      /\ entities (getMockResponse "What is INSAT-3D?") = mockEntities
      /\ confidence (getMockResponse "What is INSAT-3D?") = Dec 92 (-2)).
Proof.
  split; [|split].
  - intros pre m post k Htab Hq Hk Hpre. unfold getMockResponse.
    rewrite (firstMatch_first _ _ pre post m k Htab Hq Hk Hpre). reflexivity.
  - intros H. unfold getMockResponse. rewrite (firstMatch_none _ _ H).
    repeat split.
  - split; [|repeat split].
    exists "what is ", "-3d?". reflexivity.
Qed.

Lemma getMockResponse_spec_witness :
  getMockResponse "Show me the WEATHER in Delhi" = {|
    query := Some "weather"; response := weatherBody;
    sources := sliceArr 0 1 mockSources; entities := sliceArr 1 2 mockEntities;
    confidence := Dec 88 (-2) |}
  /\ confidence (getMockResponse "Sea surface temperature?") = Dec 75 (-2).
Proof.
  split.
  - refine (proj1 (getMockResponse_spec "Show me the WEATHER in Delhi")
              [_] _ [] "weather" eq_refl eq_refl _ _).
    + exists "show me the ", " in delhi". reflexivity.
    + intros m' k' [<-|[]] E. injection E as <-.
      apply includes_false_spec. vm_compute. reflexivity.
  - refine (proj1 (proj2 (proj2 (proj1 (proj2
              (getMockResponse_spec "Sea surface temperature?")) _)))).
    intros m k Hin E. apply includes_false_spec.
    destruct Hin as [<-|[<-|[]]]; injection E as <-; vm_compute; reflexivity.
Defined.

(** ** Resolution *)

(** C2.  Resolution never hands the failure of the primary call to its
    caller.  Whatever [fetch] does, the resolved response is fulfilled; a
    network error, a status that is not ok and a body that does not parse all
    settle with the fallback response for the same text, and the message the
    dispatcher appends is then built from that fallback. *)
Theorem resolveResponse_never_rejects (text : string) (o : FetchOutcome)
    (reason : string) (clk : SettleClock) :
  (exists body, resolveResponse text (apiService.sendMessage o) = Fulfilled body)
  /\ (let fallback := BodyObject (ofMock (getMockResponse text)) in
      resolveResponse text (apiService.sendMessage (NetworkError reason)) = Fulfilled fallback
      /\ resolveResponse text (apiService.sendMessage (HttpStatus reason)) = Fulfilled fallback
      /\ resolveResponse text (apiService.sendMessage (MalformedBody reason)) = Fulfilled fallback
      /\ resolveResponse text (Rejected reason) = Fulfilled fallback)
  /\ (let m := replyOf text (Rejected reason) clk in
      msg_sender m = bot
      /\ msg_text m = Some (response (getMockResponse text))
      /\ msg_sources m = Some (sources (getMockResponse text))
      /\ msg_entities m = Some (entities (getMockResponse text))
      /\ msg_confidence m = Some (confidence (getMockResponse text))).
Proof.
  split; [|split].
  - destruct o; cbn; eauto.
  - cbn. repeat split.
  - cbv zeta. unfold replyOf, resolveResponse, botMessageOf.
    cbn [msg_sender msg_text msg_sources msg_entities msg_confidence ofMock
         r_answer r_response r_sources r_entities r_confidence orElse].
    repeat split.
Qed.

(** ** The session repository *)

Lemma pointerValid_call (c : RepoCall) (st : ChatState) :
  pointerValid st -> pointerValid (call c st).
Proof.
  unfold pointerValid. destruct c as [clk|sid|sid newTitle now]; cbn.
  - intros _. eexists. split; [left; reflexivity|reflexivity].
  - destruct (currentSessionId st) as [cur|]; [|trivial].
    intros [s [Hin Hid]]. destruct (String.eqb_spec cur sid) as [->|Hne]; [trivial|].
    exists s. split; [|exact Hid]. apply filter_In. split; [exact Hin|].
    destruct (String.eqb_spec (id s) sid); [congruence|reflexivity].
  - destruct (currentSessionId st) as [cur|]; [|trivial].
    intros [s [Hin Hid]].
    eexists. split; [apply in_map_iff; exists s; split; [reflexivity|exact Hin]|].
    destruct (String.eqb (id s) sid); exact Hid.
Qed.

Lemma pointerValid_run (calls : list RepoCall) :
  forall st, pointerValid st -> pointerValid (run calls st).
Proof.
  induction calls as [|c calls IH]; intros st H; [exact H|].
  apply IH, pointerValid_call, H.
Qed.

(** C4.  After any finite sequence of createSession, deleteSession and
    renameSession calls from the empty repository the current-session pointer
    is unset or is the id of a session of the collection; and deleting the
    current session unsets the pointer, whatever other sessions there are. *)
Theorem pointer_always_valid (calls : list RepoCall) (l : list ChatSession)
    (sid : string) (loading : bool) :
  pointerValid (run calls initialState)
  /\ currentSessionId
       (deleteSession sid
          {| sessions := l; currentSessionId := Some sid; isLoading := loading |}) = None.
Proof.
  split.
  - apply pointerValid_run. exact I.
  - cbn. rewrite String.eqb_refl. reflexivity.
Qed.

(** ** Renaming *)








(** ** Dates and their strings *)

Local Open Scope Z_scope.

Lemma DaysInYear_365_366 y : DaysInYear y = 365 \/ DaysInYear y = 366.
Proof. unfold DaysInYear, DayFromYear. Z.div_mod_to_equations. lia. Qed.

Lemma YearFromDay_bracket d :
  DayFromYear (YearFromDay d) <= d < DayFromYear (YearFromDay d + 1).
Proof.
  unfold YearFromDay.
  set (y0 := 400 * d / 146097 + 1970).
  assert (DayFromYear (y0 - 1) <= d < DayFromYear (y0 + 2)).
  { unfold DayFromYear, y0. Z.div_mod_to_equations. lia. }
  destruct (Z.ltb_spec d (DayFromYear y0)).
  - replace (y0 - 1 + 1) with y0 by lia. lia.
  - destruct (Z.leb_spec (DayFromYear (y0 + 1)) d).
    + replace (y0 + 1 + 1) with (y0 + 2) by lia. lia.
    + lia.
Qed.

Lemma MonthFromDayInYear_range diy leap :
  0 <= leap <= 1 -> 0 <= diy < 365 + leap ->
  0 <= MonthFromDayInYear diy leap <= 11
  /\ 1 <= diy - monthStart (MonthFromDayInYear diy leap) leap + 1 <= 31.
Proof.
  intros Hl Hd. unfold MonthFromDayInYear.
  repeat (match goal with |- context [if ?a <? ?b then _ else _] =>
            destruct (Z.ltb_spec a b) end; [cbn [monthStart]; lia|]).
  cbn [monthStart]. lia.
Qed.

Lemma year_range t : validTime t -> -999999 <= YearFromDay (Day t) <= 999999.
Proof.
  unfold validTime, maxTime, Day, msPerDay. intros H.
  pose proof (YearFromDay_bracket (t / 86400000)) as B.
  unfold DayFromYear in B. Z.div_mod_to_equations. lia.
Qed.

Lemma digitVal_digitChar d : 0 <= d < 10 -> digitVal (digitChar d) = Some d.
Proof.
  intros H.
  assert (C : d = 0 \/ d = 1 \/ d = 2 \/ d = 3 \/ d = 4 \/ d = 5 \/ d = 6
              \/ d = 7 \/ d = 8 \/ d = 9) by lia.
  repeat (destruct C as [->|C]; [reflexivity|]). subst; reflexivity.
Qed.

Lemma readDigits_S w : forall acc s,
  readDigits (S w) acc s =
  match readDigits w acc s with
  | Some (v, r) => readDigits 1 v r
  | None => None
  end.
Proof.
  induction w as [|w IH]; intros acc s; [reflexivity|].
  change (readDigits (S (S w)) acc s) with
    (match s with
     | String c r => match digitVal c with
                     | Some d => readDigits (S w) (10 * acc + d) r
                     | None => None
                     end
     | EmptyString => None
     end).
  destruct s as [|c r]; [reflexivity|].
  simpl (readDigits (S w) acc (String c r)).
  destruct (digitVal c); [apply IH|reflexivity].
Qed.

(** Reading [w] digits undoes padding to [w] digits. *)
Lemma readDigits_pad w : forall n acc rest,
  0 <= n < 10 ^ Z.of_nat w ->
  readDigits w acc (pad w n ++ rest) = Some (acc * 10 ^ Z.of_nat w + n, rest).
Proof.
  induction w as [|w IH]; intros n acc rest H.
  - simpl in *. f_equal; f_equal; lia.
  - rewrite Nat2Z.inj_succ, Z.pow_succ_r in * by lia.
    rewrite readDigits_S. cbn [pad]. rewrite string_app_assoc.
    rewrite IH by (Z.div_mod_to_equations; lia).
    cbn [append str readDigits].
    rewrite digitVal_digitChar by (Z.div_mod_to_equations; lia).
    f_equal; f_equal; Z.div_mod_to_equations; lia.
Qed.

Lemma readYear_ok y rest :
  -999999 <= y <= 999999 ->
  readYear ((if (0 <=? y) && (y <=? 9999) then pad 4 y
             else (if y <? 0 then "-" else "+") ++ pad 6 (Z.abs y)) ++ rest)
  = Some (y, rest).
Proof.
  intros H.
  destruct (Z.leb_spec 0 y); destruct (Z.leb_spec y 9999); cbn [andb].
  - unfold readYear.
    assert (E : readDigits 4 0 (pad 4 y ++ rest) = Some (y, rest)).
    { rewrite readDigits_pad by (simpl; lia). f_equal; f_equal; lia. }
    remember (pad 4 y ++ rest) as s eqn:Hs.
    destruct s as [|c r]; [exact E|].
    assert (Hc : exists d, digitVal c = Some d).
    { simpl in E. destruct (digitVal c); [eauto|discriminate]. }
    destruct Hc as [d Hd].
    destruct c as [[] [] [] [] [] [] [] []]; try exact E; vm_compute in Hd; discriminate.
  - destruct (Z.ltb_spec y 0); [lia|]. rewrite string_app_assoc.
    cbn [append readYear]. rewrite readDigits_pad by (simpl; lia).
    f_equal; f_equal; lia.
  - destruct (Z.ltb_spec y 0); [|lia]. rewrite string_app_assoc.
    cbn [append readYear]. rewrite readDigits_pad by (simpl; lia).
    cbn [mbind option_bind].
    destruct (Z.eqb_spec (0 * 10 ^ Z.of_nat 6 + Z.abs y) 0); [lia|].
    f_equal; f_equal; lia.
  - lia.
Qed.

(** Parsing the date-time string of a time value gives the time value
    back, to the millisecond. *)
Lemma parseISO_isoOfTime t : validTime t -> parseISO (isoOfTime t) = TimeValue t.
Proof.
  intros Hv. unfold isoOfTime.
  pose proof (year_range t Hv) as Hy.
  pose proof (YearFromDay_bracket (Day t)) as B.
  set (day := Day t) in *. set (y := YearFromDay day) in *.
  set (tod := TimeWithinDay t).
  assert (Htod : 0 <= tod < 86400000) by (apply Z.mod_pos_bound; reflexivity).
  assert (Hleap : 0 <= InLeapYear y <= 1) by (unfold InLeapYear; destruct (_ =? _); lia).
  assert (Hdiy : 0 <= day - DayFromYear y < 365 + InLeapYear y).
  { unfold InLeapYear. pose proof (DaysInYear_365_366 y) as D. unfold DaysInYear in *.
    destruct (Z.eqb_spec (DayFromYear (y + 1) - DayFromYear y) 366); lia. }
  pose proof (MonthFromDayInYear_range _ _ Hleap Hdiy) as M.
  set (m := MonthFromDayInYear (day - DayFromYear y) (InLeapYear y)) in *.
  set (dt := day - DayFromYear y - monthStart m (InLeapYear y) + 1) in *.
  cbv zeta. unfold parseISO.
  rewrite readYear_ok by exact Hy.
  cbn [mbind option_bind append expect Ascii.eqb Bool.eqb].
  rewrite readDigits_pad by (simpl; lia).
  cbn [mbind option_bind append expect Ascii.eqb Bool.eqb].
  rewrite readDigits_pad by (simpl; lia).
  cbn [mbind option_bind append expect Ascii.eqb Bool.eqb].
  rewrite readDigits_pad by (simpl; Z.div_mod_to_equations; lia).
  cbn [mbind option_bind append expect Ascii.eqb Bool.eqb].
  rewrite readDigits_pad by (simpl; Z.div_mod_to_equations; lia).
  cbn [mbind option_bind append expect Ascii.eqb Bool.eqb].
  rewrite readDigits_pad by (simpl; Z.div_mod_to_equations; lia).
  cbn [mbind option_bind append expect Ascii.eqb Bool.eqb].
  rewrite readDigits_pad by (simpl; Z.div_mod_to_equations; lia).
  cbn [mbind option_bind append expect Ascii.eqb Bool.eqb String.eqb negb].
  change (10 ^ Z.of_nat 2) with 100. change (10 ^ Z.of_nat 3) with 1000.
  rewrite !Z.mul_0_l, !Z.add_0_l.
  replace ((1 <=? m + 1) && (m + 1 <=? 12) && (1 <=? dt) && (dt <=? 31)) with true
    by (symmetry; rewrite !andb_true_iff, !Z.leb_le; lia).
  replace ((tod / 3600000 <=? 23) && (tod / 60000 mod 60 <=? 59)
           && (tod / 1000 mod 60 <=? 59)) with true
    by (symmetry; rewrite !andb_true_iff, !Z.leb_le; Z.div_mod_to_equations; lia).
  cbn [negb].
  assert (E : MakeDay y (m + 1 - 1) dt * msPerDay + tod / 3600000 * 3600000 +
              tod / 60000 mod 60 * 60000 + tod / 1000 mod 60 * 1000 + tod mod 1000 = t).
  { unfold MakeDay. replace (m + 1 - 1) with m by lia.
    replace (DayFromYear y + monthStart m (InLeapYear y) + dt - 1) with day
      by (unfold dt; lia).
    unfold day, Day, tod, TimeWithinDay, msPerDay. Z.div_mod_to_equations. lia. }
  rewrite E. unfold TimeClip. unfold validTime in Hv.
  destruct (Z.leb_spec (Z.abs t) maxTime); [reflexivity|lia].
Qed.

Local Close Scope Z_scope.

Lemma date_roundtrip (d : Date) : validDate d -> dateOfJSON (dateToJSON d) = d.
Proof.
  destruct d as [t|]; [|intros []]. intros H. cbn. apply parseISO_isoOfTime, H.
Qed.

(** ** Persistence *)

Lemma validDateb_spec (d : Date) : validDateb d = true -> validDate d.
Proof.
  destruct d as [t|]; cbn; [|discriminate]. unfold validTime. lia.
Qed.

Lemma sessionDatedb_spec (l : list ChatSession) :
  forallb sessionDatedb l = true -> Forall sessionDated l.
Proof.
  intros H. apply List.Forall_forall. intros s Hs.
  rewrite forallb_forall in H. specialize (H s Hs). unfold sessionDatedb in H.
  apply andb_true_iff in H as [H Hm]. apply andb_true_iff in H as [Hc Hu].
  repeat split; try (apply validDateb_spec; assumption).
  apply List.Forall_forall. intros m Hin. rewrite forallb_forall in Hm.
  apply validDateb_spec, Hm, Hin.
Qed.

Lemma message_roundtrip (m : Message) :
  messageDated m -> reviveMessage (storeMessage m) = m.
Proof.
  intros H. destruct m. unfold reviveMessage, storeMessage. cbn in *.
  rewrite date_roundtrip by exact H. reflexivity.
Qed.

Lemma session_roundtrip (s : ChatSession) :
  sessionDated s -> reviveSession (storeSession s) = s.
Proof.
  intros (Hc & Hu & Hm). destruct s as [i t ms c u].
  unfold reviveSession, storeSession. cbn in *.
  rewrite !date_roundtrip by assumption. f_equal.
  induction Hm as [|m ms Hm _ IH]; cbn; [reflexivity|].
  rewrite message_roundtrip by exact Hm. f_equal. exact IH.
Qed.

(** C7, as the code has it.  For every session collection whose timestamps
    are valid dates, writing it in the persisted form, with [createdAt],
    [updatedAt] and the message timestamps as date-time strings, and loading
    it again gives the same collection: same sessions, same contents, same
    timestamps to the millisecond.  A collection that is not empty makes the
    same round trip through the save effect and the stored item. *)
Theorem persisted_roundtrip (l current : list ChatSession) (item : option StoredItem) :
  Forall sessionDated l ->
  loadSessions (Some (Document (List.map storeSession l))) current = l
  /\ (l <> [] -> loadSessions (saveSessions l item) current = l).
Proof.
  intros H.
  assert (E : List.map reviveSession (List.map storeSession l) = l).
  { induction H as [|s l Hs _ IH]; cbn; [reflexivity|].
    rewrite session_roundtrip by exact Hs. f_equal. exact IH. }
  split; [exact E|]. intros Hne. unfold saveSessions.
  destruct l; [congruence|]. exact E.
Qed.

Lemma persisted_roundtrip_witness :
  loadSessions (Some (Document (List.map storeSession sampleConversation))) [] =
  sampleConversation.
Proof.
  refine (proj1 (persisted_roundtrip sampleConversation [] None _)).
  apply sessionDatedb_spec. vm_compute. reflexivity.
Defined.

(** C7 as stated fails for a collection that holds the Invalid Date, which
    is written as [null] and read back as the epoch. *)
Lemma persisted_roundtrip_counterexample :
  List.map createdAt
    (loadSessions (Some (Document (List.map storeSession [undatedSession]))) []) =
  [TimeValue 0]
  /\ loadSessions (Some (Document (List.map storeSession [undatedSession]))) [] <>
     [undatedSession].
Proof. split; [reflexivity|discriminate]. Qed.

(** The Invalid Date gets into the state when a stored date does not
    parse: the load effect accepts the document as it is. *)
Lemma load_misdated : loadSessions (Some (Document [misdatedStored])) [] = [undatedSession].
Proof. reflexivity. Qed.

(** C6, as the code has it.  After every mutation (a call of the
    repository or an append of [sendMessage]) the save effect writes the
    whole collection to the stored item when the collection is not empty, and
    leaves the stored item as it was when the collection is empty. *)
Theorem commit_saves (m : Mutation) (p : Page) :
  (sessions (hook (commit m p)) <> [] ->
   localStorage (commit m p) =
   Some (Document (List.map storeSession (sessions (hook (commit m p))))))
  /\ (sessions (hook (commit m p)) = [] ->
      localStorage (commit m p) = localStorage p).
Proof.
  unfold commit. cbn [hook localStorage]. unfold saveSessions.
  destruct (sessions (mutate m (hook p))) as [|s l]; cbn; split; congruence.
Qed.

Lemma commit_saves_witness :
  localStorage (commit (Call (RenameSession "1" "Monsoon" 5)) samplePage) =
  Some (Document [storeSession
    {| id := "1"; title := "Monsoon"; messages := [];
       createdAt := TimeValue 0; updatedAt := TimeValue 5 |}])
  /\ localStorage (commit (Call (DeleteSession "1")) samplePage) =
     localStorage samplePage.
Proof.
  split.
  - apply (proj1 (commit_saves (Call (RenameSession "1" "Monsoon" 5)) samplePage)).
    discriminate.
  - apply (proj2 (commit_saves (Call (DeleteSession "1")) samplePage)).
    reflexivity.
Defined.

(** C6 as stated fails when the mutation empties the collection: deleting
    the only session leaves the stored item holding that session, not the
    empty collection. *)
Lemma commit_saves_counterexample :
  sessions (hook (commit (Call (DeleteSession "1")) samplePage)) = []
  /\ localStorage (commit (Call (DeleteSession "1")) samplePage) =
     Some (Document [storeSession sampleSession])
  /\ localStorage (commit (Call (DeleteSession "1")) samplePage) <>
     Some (Document (List.map storeSession
             (sessions (hook (commit (Call (DeleteSession "1")) samplePage))))).
Proof. repeat split. discriminate. Qed.

(** ** Export: the default branch *)

Section ExportFacts.

Variable toLocaleString : Date -> string.

Lemma exportData_json (o : ExportOptions) (clk : ExportClock) (l : list ChatSession) :
  format o = "json" ->
  exportData toLocaleString o clk l =
  Some (exportJson (buildExportData o clk l) (exportName clk)).
Proof. intros E. unfold exportData, renderExport. rewrite E. reflexivity. Qed.

Lemma exportData_default (o : ExportOptions) (clk : ExportClock) (l : list ChatSession) :
  format o <> "json" -> format o <> "csv" -> format o <> "html" ->
  exportData toLocaleString o clk l =
  Some (exportJson (buildExportData o clk l) (exportName clk)).
Proof.
  intros H1 H2 H3. unfold exportData, renderExport.
  destruct (String.eqb_spec (format o) "json"); [congruence|].
  destruct (String.eqb_spec (format o) "csv"); [congruence|].
  destruct (String.eqb_spec (format o) "html"); [congruence|].
  reflexivity.
Qed.

(** C10, as the code has it.  For the format [pdf], and for every format
    other than [json], [csv] and [html], export takes the default branch,
    which does what the [json] branch does: the content is the
    pretty-printed dump of the export object [{ exportedAt, options,
    sessions }], the file name ends in [.json] and the type is
    [application/json].  File name and type are those of the [json] export,
    and so are [exportedAt] and the sessions of the dumped object; its
    [options] are the options that were passed, with the requested format. *)
Theorem export_default_branch (f : string) (o : ExportOptions) (clk : ExportClock)
    (l : list ChatSession) :
  f <> "json" -> f <> "csv" -> f <> "html" ->
  exportData toLocaleString (withFormat f o) clk l =
    Some {| filename := exportName clk ++ ".json";
            mimeType := "application/json";
            content := stringifyPretty
                         (jsonOfExportData (buildExportData (withFormat f o) clk l)) |}
  /\ exportData toLocaleString (withFormat "json" o) clk l =
    Some {| filename := exportName clk ++ ".json";
            mimeType := "application/json";
            content := stringifyPretty
                         (jsonOfExportData (buildExportData (withFormat "json" o) clk l)) |}
  /\ exportedAt (buildExportData (withFormat f o) clk l) =
     exportedAt (buildExportData (withFormat "json" o) clk l)
  /\ exportedSessions (buildExportData (withFormat f o) clk l) =
     exportedSessions (buildExportData (withFormat "json" o) clk l)
  /\ options (buildExportData (withFormat f o) clk l) = withFormat f o.
Proof.
  intros H1 H2 H3. split; [|split; [|repeat split]].
  - rewrite exportData_default by assumption. reflexivity.
  - rewrite exportData_json by reflexivity. reflexivity.
Qed.

End ExportFacts.

Lemma export_default_branch_witness :
  exportData sampleLocale (withFormat "pdf" sampleOptions) sampleExportClock threeMessages =
  Some {| filename := "mosdac-export-2023-11-14.json";
          mimeType := "application/json";
          content := stringifyPretty
            (jsonOfExportData
               (buildExportData (withFormat "pdf" sampleOptions) sampleExportClock
                  threeMessages)) |}.
Proof.
  refine (proj1 (export_default_branch sampleLocale "pdf" sampleOptions sampleExportClock
                   threeMessages _ _ _)); discriminate.
Defined.

(** C10 as stated fails on the content: the dump carries the options, and
    with them the format that was asked for. *)
Lemma export_default_branch_counterexample :
  option_map content
    (exportData sampleLocale (withFormat "pdf" sampleOptions) sampleExportClock []) <>
  option_map content
    (exportData sampleLocale (withFormat "json" sampleOptions) sampleExportClock []).
Proof. vm_compute. discriminate. Qed.

(** ** Export: CSV *)

Lemma allChars_app (p : ascii -> bool) (a b : string) :
  allChars p (a ++ b) = allChars p a && allChars p b.
Proof.
  induction a as [|c a IH]; cbn [append allChars]; [reflexivity|].
  rewrite IH. apply andb_assoc.
Qed.

Lemma allChars_sliceTo (p : ascii -> bool) (n : nat) : forall s,
  allChars p s = true -> allChars p (sliceTo n s) = true.
Proof.
  induction n as [|n IH]; intros [|c s]; cbn; try reflexivity.
  intros H. apply andb_true_iff in H as [H1 H2]. rewrite H1. apply IH, H2.
Qed.

Lemma allChars_dropString (p : ascii -> bool) (n : nat) : forall s,
  allChars p s = true -> allChars p (dropString n s) = true.
Proof.
  induction n as [|n IH]; intros [|c s]; cbn; try (intros H; exact H).
  intros H. apply andb_true_iff in H as [H1 H2]. apply IH, H2.
Qed.

Lemma singleLine_zeros (n : nat) : singleLine (zeros n) = true.
Proof. induction n as [|n IH]; [reflexivity|exact IH]. Qed.

Lemma notNewline_digitChar (d : Z) : (0 <= d < 10)%Z -> notNewline (digitChar d) = true.
Proof.
  intros H.
  assert (C : (d = 0 \/ d = 1 \/ d = 2 \/ d = 3 \/ d = 4 \/ d = 5 \/ d = 6
              \/ d = 7 \/ d = 8 \/ d = 9)%Z) by lia.
  repeat (destruct C as [->|C]; [reflexivity|]). subst; reflexivity.
Qed.

Lemma singleLine_pad (w : nat) : forall n, singleLine (pad w n) = true.
Proof.
  unfold singleLine. induction w as [|w IH]; intros n; cbn [pad]; [reflexivity|].
  rewrite allChars_app, IH. cbn [allChars str].
  rewrite notNewline_digitChar by (apply Z.mod_pos_bound; lia). reflexivity.
Qed.

Lemma singleLine_numeral (n : Z) : singleLine (numeral n) = true.
Proof. apply singleLine_pad. Qed.

Ltac single_line :=
  unfold singleLine in *;
  repeat (rewrite ?allChars_app, ?andb_true_iff; cbn [allChars str append]);
  repeat split;
  try reflexivity;
  try apply singleLine_pad; try apply singleLine_zeros;
  try (apply allChars_sliceTo; apply singleLine_pad);
  try (apply allChars_dropString; apply singleLine_pad);
  try assumption.

Lemma singleLine_isoOfTime (t : Z) : singleLine (isoOfTime t) = true.
Proof.
  unfold isoOfTime. cbv zeta.
  destruct ((0 <=? YearFromDay (Day t))%Z && (YearFromDay (Day t) <=? 9999)%Z).
  - single_line.
  - destruct (YearFromDay (Day t) <? 0)%Z; single_line.
Qed.

Lemma singleLine_numberToString (x : number) : singleLine (numberToString x) = true.
Proof.
  unfold numberToString.
  destruct (mantissa x =? 0)%Z; [reflexivity|].
  destruct (stripZeros _ _ _) as [s e].
  set (ds := numeral s). set (k := Z.of_nat (String.length ds)).
  assert (Hds : singleLine ds = true) by apply singleLine_numeral.
  assert (Hbody : singleLine
    (if ((k <=? k + e) && (k + e <=? 21))%Z then ds ++ zeros (Z.to_nat (k + e - k))
     else if ((0 <? k + e) && (k + e <=? 21))%Z then
       sliceTo (Z.to_nat (k + e)) ds ++ "." ++ dropString (Z.to_nat (k + e)) ds
     else if ((-6 <? k + e) && (k + e <=? 0))%Z then "0." ++ zeros (Z.to_nat (- (k + e))) ++ ds
     else (if (k =? 1)%Z then ds else sliceTo 1 ds ++ "." ++ dropString 1 ds)
          ++ "e" ++ (if (k + e - 1 <? 0)%Z then "-" else "+")
          ++ numeral (Z.abs (k + e - 1))) = true).
  { unfold singleLine in *.
    repeat match goal with
           | |- context [if ?b then _ else _] => destruct b
           end;
    repeat (rewrite ?allChars_app, ?andb_true_iff; cbn [allChars str append]);
    repeat split; try reflexivity; try assumption;
    try apply singleLine_zeros; try apply singleLine_numeral;
    try (apply allChars_sliceTo; assumption);
    try (apply allChars_dropString; assumption). }
  destruct (mantissa x <? 0)%Z; [|exact Hbody].
  unfold singleLine in *. cbn [append allChars]. exact Hbody.
Qed.

Lemma singleLine_doubleQuotes (s : string) :
  singleLine s = true -> singleLine (doubleQuotes s) = true.
Proof.
  unfold singleLine. induction s as [|c s IH]; cbn [doubleQuotes allChars]; [trivial|].
  intros H. apply andb_true_iff in H as [H1 H2].
  destruct (Ascii.eqb c dquote); cbn [allChars]; rewrite ?H1, IH by exact H2; reflexivity.
Qed.

(** Reading an escaped text gives the text back: nothing but the doubling
    of the quotes is changed, so commas and all other characters stay. *)
Lemma undoubleQuotes_doubleQuotes (s : string) : undoubleQuotes (doubleQuotes s) = s.
Proof.
  induction s as [|c s IH]; cbn [doubleQuotes]; [reflexivity|].
  destruct (Ascii.eqb_spec c dquote) as [->|Hne].
  - cbn [undoubleQuotes]. rewrite Ascii.eqb_refl, IH. reflexivity.
  - cbn [undoubleQuotes]. destruct (Ascii.eqb_spec c dquote); [congruence|].
    rewrite IH. reflexivity.
Qed.

Lemma splitChar_app (sep : ascii) (a b : string) :
  allChars (fun c => negb (Ascii.eqb c sep)) a = true ->
  splitChar sep (a ++ String sep b) = a :: splitChar sep b.
Proof.
  induction a as [|c a IH]; cbn [append allChars splitChar]; intros H.
  - rewrite Ascii.eqb_refl. reflexivity.
  - apply andb_true_iff in H as [H1 H2]. apply negb_true_iff in H1. rewrite H1.
    rewrite IH by exact H2. reflexivity.
Qed.

Lemma splitChar_single (sep : ascii) (a : string) :
  allChars (fun c => negb (Ascii.eqb c sep)) a = true -> splitChar sep a = [a].
Proof.
  induction a as [|c a IH]; cbn [allChars splitChar]; intros H; [reflexivity|].
  apply andb_true_iff in H as [H1 H2]. apply negb_true_iff in H1. rewrite H1.
  rewrite IH by exact H2. reflexivity.
Qed.

(** Rows without line feeds, joined by line feeds, are the lines of the
    text. *)
Lemma lines_of_join (rows : list string) :
  rows <> [] -> forallb singleLine rows = true ->
  splitChar newline (join (str newline) rows) = rows.
Proof.
  induction rows as [|r rows IH]; [congruence|]. intros _ H.
  cbn [forallb] in H. apply andb_true_iff in H as [Hr Hrows].
  destruct rows as [|r' rows].
  - cbn [join]. apply splitChar_single, Hr.
  - change (join (str newline) (r :: r' :: rows))
      with (r ++ String newline (join (str newline) (r' :: rows))).
    rewrite splitChar_app by exact Hr. f_equal. apply IH; [discriminate|exact Hrows].
Qed.

Lemma csvRow_ready (s : ChatSession) (m : Message) :
  messageReady m = true ->
  exists row, csvRow s m = Some row /\ rowFor row (s, m).
Proof.
  unfold messageReady, csvRow, rowFor. cbn [fst snd].
  destruct (msg_text m) as [text|]; [|discriminate].
  destruct (msg_timestamp m) as [t|]; [|discriminate]. intros _.
  cbn [mbind option_bind toISOString]. eexists. split; [reflexivity|].
  exists text, (isoOfTime t). repeat split.
Qed.

Lemma csvRow_singleLine (s : ChatSession) (m : Message) (row : string) :
  rowFor row (s, m) ->
  singleLine (id s) = true -> singleLine (title s) = true ->
  messageSingleLine m = true ->
  singleLine row = true.
Proof.
  intros (text & stamp & Ht & Hs & ->) Hid Htitle Hm. cbn [fst snd] in *.
  unfold messageSingleLine in Hm. rewrite Ht in Hm.
  apply andb_true_iff in Hm as [Hmid Htext].
  assert (Hstamp : singleLine stamp = true).
  { destruct (msg_timestamp m); [|discriminate]. injection Hs as <-.
    apply singleLine_isoOfTime. }
  assert (Hconf : singleLine (confidenceColumn (msg_confidence m)) = true).
  { unfold confidenceColumn. destruct (msg_confidence m) as [x|]; [|reflexivity].
    destruct (isZero x); [reflexivity|apply singleLine_numberToString]. }
  assert (Hsender : singleLine (senderName (msg_sender m)) = true)
    by (destruct (msg_sender m); reflexivity).
  apply singleLine_doubleQuotes in Htext.
  cbn [join]. unfold quoted. unfold singleLine in *.
  repeat (rewrite ?allChars_app; cbn [allChars str append]).
  rewrite Hid, Htitle, Hmid, Htext, Hstamp, Hconf, Hsender. reflexivity.
Qed.

Lemma mapM_csvRow (s : ChatSession) (ms : list Message) :
  forallb messageReady ms = true ->
  exists rows, mapM (csvRow s) ms = Some rows
               /\ Forall2 rowFor rows (List.map (pair s) ms).
Proof.
  induction ms as [|m ms IH]; cbn [forallb]; intros H.
  - exists []. split; [reflexivity|constructor].
  - apply andb_true_iff in H as [Hm Hms].
    destruct (csvRow_ready s m Hm) as (row & Erow & Hrow).
    destruct (IH Hms) as (rows & Erows & Hrows).
    exists (row :: rows). split.
    + cbn [mapM]. rewrite Erow. cbn [mbind option_bind]. rewrite Erows. reflexivity.
    + constructor; assumption.
Qed.

Lemma csvRows_ready (selected : list ChatSession) :
  forallb csvReady selected = true ->
  exists rows, csvRows selected = Some (csvHeader :: rows)
               /\ Forall2 rowFor rows (messagesInOrder selected).
Proof.
  unfold csvRows.
  assert (G : forallb csvReady selected = true ->
    exists rowss,
      mapM (fun session => mapM (csvRow session) (messages session)) selected = Some rowss
      /\ Forall2 rowFor (concat rowss) (messagesInOrder selected)).
  { induction selected as [|s selected IH]; cbn [forallb]; intros H.
    - exists []. split; [reflexivity|constructor].
    - apply andb_true_iff in H as [Hs Hsel].
      destruct (mapM_csvRow s (messages s) Hs) as (rows & Erows & Hrows).
      destruct (IH Hsel) as (rowss & Erowss & Hrowss).
      exists (rows :: rowss). split.
      + cbn [mapM]. rewrite Erows. cbn [mbind option_bind]. rewrite Erowss. reflexivity.
      + cbn [concat messagesInOrder flat_map]. apply Forall2_app; assumption. }
  intros H. destruct (G H) as (rowss & E & HF).
  exists (concat rowss). rewrite E. split; [reflexivity|exact HF].
Qed.

Lemma messagesInOrder_length (selected : list ChatSession) :
  length (messagesInOrder selected) =
  list_sum (List.map (fun s => length (messages s)) selected).
Proof.
  induction selected as [|s selected IH]; [reflexivity|].
  cbn [messagesInOrder flat_map List.map]. unfold list_sum. cbn [fold_right].
  rewrite length_app, length_map. f_equal. exact IH.
Qed.

Lemma rows_singleLine (selected : list ChatSession) (rows : list string) :
  Forall2 rowFor rows (messagesInOrder selected) ->
  forallb sessionSingleLine selected = true ->
  forallb singleLine rows = true.
Proof.
  intros HF Hsl.
  assert (Hall : Forall (fun sm => singleLine (id (fst sm)) = true
                                   /\ singleLine (title (fst sm)) = true
                                   /\ messageSingleLine (snd sm) = true)
                        (messagesInOrder selected)).
  { clear HF. induction selected as [|s selected IH]; [constructor|].
    cbn [forallb] in Hsl. apply andb_true_iff in Hsl as [Hs Hsel].
    cbn [messagesInOrder flat_map]. apply Forall_app. split; [|apply IH, Hsel].
    unfold sessionSingleLine in Hs.
    apply andb_true_iff in Hs as [Hs Hm]. apply andb_true_iff in Hs as [Hi Ht].
    rewrite forallb_forall in Hm.
    apply List.Forall_forall. intros [s' m] Hin. apply in_map_iff in Hin as (m' & E & Hin).
    injection E as <- <-. cbn [fst snd]. auto. }
  induction HF as [|row [s m] rows sms Hrow _ IH]; [reflexivity|].
  apply Forall_cons_1 in Hall as [(Hi & Ht & Hm) Hall]. cbn [fst snd] in *.
  cbn [forallb]. rewrite (csvRow_singleLine s m row Hrow Hi Ht Hm). apply IH, Hall.
Qed.

Lemma exportCsv_spec (selected : list ChatSession) (name : string) :
  forallb csvReady selected = true ->
  exists rows,
    exportCsv selected name =
      Some {| filename := name ++ ".csv"; mimeType := "text/csv";
              content := join (str newline) (csvHeader :: rows) |}
    /\ Forall2 rowFor rows (messagesInOrder selected)
    /\ length rows = list_sum (List.map (fun s => length (messages s)) selected)
    /\ (forallb sessionSingleLine selected = true ->
        splitChar newline (join (str newline) (csvHeader :: rows)) = csvHeader :: rows).
Proof.
  intros Hready. destruct (csvRows_ready selected Hready) as (rows & E & HF).
  exists rows. split; [|split; [exact HF|split]].
  - unfold exportCsv. rewrite E. reflexivity.
  - rewrite (Forall2_length _ _ _ HF). apply messagesInOrder_length.
  - intros Hsl. apply lines_of_join; [discriminate|].
    cbn [forallb]. rewrite (rows_singleLine selected rows HF Hsl). reflexivity.
Qed.

(** C8, as the code has it.  When no row throws (every message of the
    selected sessions has a text and a timestamp that is not the Invalid
    Date), the CSV export is the header row [Session ID,Title,Message
    ID,Sender,Text,Timestamp,Confidence] followed by exactly one row per
    message of the selected sessions, session after session and message after
    message, the rows joined by line feeds.  In each row the title is put
    between double quotes as it is, and the text is put between double quotes
    with its own double quotes doubled and everything else, commas included,
    unchanged.  Two sessions holding three messages give four rows; they are
    four lines when no id, title or text contains a line feed. *)
Theorem exportData_csv (toLocaleString : Date -> string) (o : ExportOptions)
    (clk : ExportClock) (l : list ChatSession) :
  format o = "csv" ->
  forallb csvReady (selectSessions o l) = true ->
  exists rows,
    exportData toLocaleString o clk l =
      Some {| filename := exportName clk ++ ".csv"; mimeType := "text/csv";
              content := join (str newline) (csvHeader :: rows) |}
    /\ Forall2 rowFor rows (messagesInOrder (selectSessions o l))
    /\ length rows =
       list_sum (List.map (fun s => length (messages s)) (selectSessions o l))
    /\ (forall text, undoubleQuotes (doubleQuotes text) = text)
    /\ (forallb sessionSingleLine (selectSessions o l) = true ->
        splitChar newline (join (str newline) (csvHeader :: rows)) = csvHeader :: rows)
    /\ (forall s1 s2, selectSessions o l = [s1; s2] ->
        length (messages s1) + length (messages s2) = 3 ->
        length (csvHeader :: rows) = 4
        /\ (forallb sessionSingleLine (selectSessions o l) = true ->
            lineCount (join (str newline) (csvHeader :: rows)) = 4)).
Proof.
  intros Hfmt Hready.
  destruct (exportCsv_spec (selectSessions o l) (exportName clk) Hready)
    as (rows & E & HF & Hlen & Hlines).
  exists rows. split; [|split; [exact HF|split; [exact Hlen|split; [|split]]]].
  - unfold exportData, renderExport. rewrite Hfmt. exact E.
  - apply undoubleQuotes_doubleQuotes.
  - exact Hlines.
  - intros s1 s2 Hsel H3. rewrite Hsel in Hlen.
    unfold list_sum in Hlen. cbn [List.map fold_right] in Hlen.
    assert (L4 : length (csvHeader :: rows) = 4) by (cbn [length]; lia).
    split; [exact L4|]. intros Hsl. unfold lineCount. rewrite Hlines by exact Hsl. exact L4.
Qed.

Lemma exportData_csv_witness :
  exists rows,
    exportData sampleLocale (withFormat "csv" sampleOptions) sampleExportClock threeMessages =
      Some {| filename := "mosdac-export-2023-11-14.csv"; mimeType := "text/csv";
              content := join (str newline) (csvHeader :: rows) |}
    /\ length (csvHeader :: rows) = 4
    /\ lineCount (join (str newline) (csvHeader :: rows)) = 4.
Proof.
  destruct (exportData_csv sampleLocale (withFormat "csv" sampleOptions) sampleExportClock
              threeMessages eq_refl eq_refl)
    as (rows & E & _ & _ & _ & _ & H).
  exists rows. split; [exact E|].
  destruct (H _ _ eq_refl eq_refl) as [L4 Hlines].
  split; [exact L4|exact (Hlines eq_refl)].
Defined.

(** C8 as stated fails on the number of lines: a text that runs over two
    lines is written as it is, so two sessions with three messages give five
    lines. *)
Lemma exportData_csv_counterexample :
  list_sum (List.map (fun s => length (messages s)) threeMessagesTwoLines) = 3
  /\ option_map (fun d => lineCount (content d))
       (exportData sampleLocale (withFormat "csv" sampleOptions) sampleExportClock
          threeMessagesTwoLines) = Some 5.
Proof. split; vm_compute; reflexivity. Qed.

(** The export of one exchange answered by the local substitute: a header
    and two rows, on ten lines. *)
Lemma exportData_csv_fallback_lines :
  option_map (fun d => lineCount (content d))
    (exportData sampleLocale
       {| format := "csv"; includeMessages := true; includeSources := true;
          includeEntities := true; includeMetadata := true; dateRange := "all";
          selectedSessions := ["1700000000000"] |}
       sampleExportClock sampleConversation) = Some 10.
Proof. vm_compute. reflexivity. Qed.

(** ** Sending a message *)


Lemma sendMessageBegin_sessions (text : string) (clk : BeginClock) (st : ChatState) :
  sessions (snd (sendMessageBegin text clk st)) =
  addUserMessage (capturedId clk st) (userMessageOf text clk) text
    (c_userUpdatedAt clk) (sessionsAtSend clk st).
Proof.
  unfold capturedId, sessionsAtSend, sendMessageBegin, falsyId.
  destruct (currentSessionId st) as [sid|]; [destruct (truthy sid)|]; reflexivity.
Qed.


Lemma replyOf_cases (text : string) (api : Settled ResponseBody) (clk : SettleClock) :
  replyOf text api clk = errorMessageOf clk
  \/ exists r, resolveResponse text api = Fulfilled (BodyObject r)
               /\ replyOf text api clk =
                  {| msg_id := intToString (c_botId clk + 1);
                     msg_text := orElse (r_answer r) (r_response r);
                     msg_sender := bot;
                     msg_timestamp := newDate (c_botTimestamp clk);
                     msg_sources := r_sources r;
                     msg_entities := r_entities r;
                     msg_confidence := r_confidence r |}.
Proof.
  unfold replyOf. destruct (resolveResponse text api) as [[|r]|reason] eqn:E; cbn.
  - left. reflexivity.
  - right. exists r. split; reflexivity.
  - left. reflexivity.
Qed.




(** *** While the call waits *)

Lemma messagesOf_addUserMessage (sid text : string) (u : Message) (now : Z)
    (l : list ChatSession) :
  messagesOf sid (addUserMessage sid u text now l) =
  List.map (fun ms => ms ++ [u])%list (messagesOf sid l).
Proof.
  unfold messagesOf, addUserMessage.
  induction l as [|s l IH]; [reflexivity|]. cbn [List.map List.filter].
  destruct (String.eqb (id s) sid) eqn:E; cbn [id]; rewrite E; cbn [List.map messages];
    rewrite IH; reflexivity.
Qed.

Lemma messagesOf_addBotMessage (sid : string) (b : Message) (now : Z)
    (l : list ChatSession) :
  messagesOf sid (addBotMessage sid b now l) =
  List.map (fun ms => ms ++ [b])%list (messagesOf sid l).
Proof.
  unfold messagesOf, addBotMessage.
  induction l as [|s l IH]; [reflexivity|]. cbn [List.map List.filter].
  destruct (String.eqb (id s) sid) eqn:E; cbn [id]; rewrite E; cbn [List.map messages];
    rewrite IH; reflexivity.
Qed.

Lemma messagesOf_react (sid : string) (e : UiEvent) (st : ChatState) :
  spares sid e = true ->
  messagesOf sid (sessions (react e st)) = messagesOf sid (sessions st).
Proof.
  unfold messagesOf. destruct e as [[clk|d|r newTitle now]|sel]; cbn; intros H.
  - apply negb_true_iff in H. rewrite H. reflexivity.
  - apply negb_true_iff, String.eqb_neq in H.
    induction (sessions st) as [|s l IH]; [reflexivity|]. cbn [List.filter].
    destruct (String.eqb_spec (id s) d) as [Ed|Ed]; cbn [negb].
    + destruct (String.eqb_spec (id s) sid); [congruence|]. exact IH.
    + cbn [List.filter]. destruct (String.eqb (id s) sid); cbn [List.map]; rewrite IH;
        reflexivity.
  - induction (sessions st) as [|s l IH]; [reflexivity|]. cbn [List.map List.filter].
    destruct (String.eqb (id s) r); cbn [id];
      destruct (String.eqb (id s) sid); cbn [List.map messages]; rewrite IH; reflexivity.
  - reflexivity.
Qed.

Lemma messagesOf_reactAll (sid : string) (events : list UiEvent) :
  forall st, forallb (spares sid) events = true ->
  messagesOf sid (sessions (reactAll events st)) = messagesOf sid (sessions st).
Proof.
  induction events as [|e events IH]; intros st H; [reflexivity|].
  cbn [forallb] in H. apply andb_true_iff in H as [He Hev].
  cbn [reactAll fold_left]. fold (reactAll events (react e st)).
  rewrite IH by exact Hev. apply messagesOf_react, He.
Qed.

(** X7.  The user may create, select, rename and delete sessions while the call
    waits: as long as the sessions with the captured id are neither deleted
    nor joined by a new one, each of them ends with the user message and the
    assistant message appended, in this order. *)
Lemma sendMessage_while_waiting (text : string) (api : Settled ResponseBody)
    (bclk : BeginClock) (sclk : SettleClock) (events : list UiEvent) (st : ChatState) :
  forallb (spares (capturedId bclk st)) events = true ->
  messagesOf (capturedId bclk st)
    (sessions (sendMessageSettle (capturedId bclk st) text api sclk
                 (reactAll events (snd (sendMessageBegin text bclk st))))) =
  List.map (fun ms => ms ++ [userMessageOf text bclk; replyOf text api sclk])%list
    (messagesOf (capturedId bclk st) (sessionsAtSend bclk st)).
Proof.
  intros H. cbn [sendMessageSettle sessions].
  rewrite messagesOf_addBotMessage, messagesOf_reactAll by exact H.
  rewrite sendMessageBegin_sessions, messagesOf_addUserMessage, List.map_map.
  apply List.map_ext. intros ms. rewrite <- app_assoc. reflexivity.
Qed.

(** Deleting the target while the call waits: the reply is dropped. *)
Lemma sendMessage_target_deleted :
  sessions
    (sendMessageSettle "1" "What is INSAT-3D?" (Rejected "Failed to fetch") sampleSettle
       (reactAll [Repo (DeleteSession "1")]
          (snd (sendMessageBegin "What is INSAT-3D?" sampleBegin sampleState)))) = [].
Proof. reflexivity. Qed.

(** ** Timestamps made by the hook *)

Lemma dated_map (f : ChatSession -> ChatSession) (l : list ChatSession) :
  (forall s, sessionDated s -> sessionDated (f s)) ->
  Forall sessionDated l -> Forall sessionDated (List.map f l).
Proof.
  intros Hf H. induction H as [|s l Hs _ IH]; cbn; constructor; auto.
Qed.

Lemma dated_append (s : ChatSession) (m : Message) (t : string) (now : Z) :
  sessionDated s -> messageDated m -> validTime now ->
  sessionDated {| id := id s; title := t; messages := messages s ++ [m];
                  createdAt := createdAt s; updatedAt := newDate now |}.
Proof.
  intros (Hc & Hu & Hm) Hmsg Hnow. split; [exact Hc|]. split; [exact Hnow|]. cbn.
  apply Forall_app. split; [exact Hm|]. constructor; [exact Hmsg|constructor].
Qed.

Lemma dated_create (clk : CreateClock) (st : ChatState) :
  createClocked clk -> Forall sessionDated (sessions st) ->
  Forall sessionDated (sessions (snd (createNewSession clk st))).
Proof.
  intros [Hc Hu] H. cbn. constructor; [|exact H].
  split; [exact Hc|]. split; [exact Hu|]. constructor.
Qed.

(** The hook only ever makes valid dates: a mutation whose clock readings
    are time values keeps every timestamp of the collection valid. *)
Lemma mutate_keeps_dated (m : Mutation) (st : ChatState) :
  mutationClocked m -> Forall sessionDated (sessions st) ->
  Forall sessionDated (sessions (mutate m st)).
Proof.
  destruct m as [[clk|sid|sid newTitle now]|text clk|sid text api clk]; cbn [mutate call];
    intros Hclk H.
  - apply dated_create; assumption.
  - cbn. apply List.Forall_forall. intros s Hs. apply filter_In in Hs as [Hs _].
    rewrite List.Forall_forall in H. apply H, Hs.
  - cbn. apply dated_map; [|exact H]. intros s (Hc & Hu & Hm).
    destruct (String.eqb (id s) sid); [|repeat split; assumption].
    split; [exact Hc|]. split; [exact Hclk|exact Hm].
  - destruct Hclk as (Hcreate & Hts & Hupd).
    rewrite sendMessageBegin_sessions. unfold addUserMessage.
    apply dated_map.
    + intros s Hs. destruct (String.eqb (id s) (capturedId clk st)); [|exact Hs].
      apply dated_append; auto.
    + unfold sessionsAtSend. destruct (falsyId (currentSessionId st)); [|exact H].
      apply (dated_create (c_session clk) st Hcreate H).
  - destruct Hclk as [Hts Hupd]. cbn [sendMessageSettle sessions]. unfold addBotMessage.
    apply dated_map; [|exact H].
    intros s Hs. destruct (String.eqb (id s) sid); [|exact Hs].
    apply dated_append; auto.
    unfold messageDated, replyOf.
    destruct (resolveResponse text api) as [[|r]|]; cbn; exact Hts.
Qed.

(** ** Export on the object graph *)

Module GraphFacts.

(** [exportData] on the collection as a list, as opposed to [Graph.exportData]. *)
Local Abbreviation exportDataOfList := exportData.

Import Graph GraphSpec.

Lemma subseteq_preserved (h h' : heap) : h ⊆ h' -> preserved h h'.
Proof. intros H l o Hl _. eapply lookup_weaken; eauto. Qed.

Lemma preserved_refl (h : heap) : preserved h h.
Proof. intros l o Hl _. exact Hl. Qed.

Lemma preserved_trans (h1 h2 h3 : heap) :
  preserved h1 h2 -> preserved h2 h3 -> preserved h1 h3.
Proof. intros H12 H23 l o Hl Ho. apply H23; [apply H12|]; assumption. Qed.

Lemma mapM_stable {X} (R : heap -> loc -> option X) (h h' : heap) :
  stable R -> preserved h h' ->
  forall ls xs, mapM (R h) ls = Some xs -> mapM (R h') ls = Some xs.
Proof.
  intros HR Hp. induction ls as [|l ls IH]; intros xs H; [exact H|].
  cbn in H |- *. destruct (R h l) as [x|] eqn:E; [|discriminate].
  rewrite (HR _ _ _ _ Hp E). cbn in H |- *.
  destruct (mapM (R h) ls) as [xs'|]; [|discriminate].
  rewrite (IH xs' eq_refl). exact H.
Qed.

Lemma arrayAt_stable {X} (R : heap -> loc -> option X) : stable R -> stable (arrayAt R).
Proof.
  intros HR h h' a xs Hp. unfold arrayAt.
  destruct (h !! a) as [[| |items|]|] eqn:E; try discriminate.
  rewrite (Hp _ _ E eq_refl). apply mapM_stable; assumption.
Qed.

Lemma messageAt_stable : stable messageAt.
Proof.
  intros h h' l m Hp. unfold messageAt.
  destruct (h !! l) as [[| m0 | |]|] eqn:E; try discriminate.
  rewrite (Hp _ _ E eq_refl). trivial.
Qed.

Lemma messagesAt_stable : stable messagesAt.
Proof. exact (arrayAt_stable messageAt messageAt_stable). Qed.

Lemma sessionAt_stable : stable sessionAt.
Proof.
  intros h h' l s Hp. unfold sessionAt.
  destruct (h !! l) as [[sid stitle sm c u| | |]|] eqn:E; try discriminate.
  rewrite (Hp _ _ E eq_refl).
  destruct (messagesAt h sm) as [ms|] eqn:Em; [|discriminate].
  rewrite (messagesAt_stable _ _ _ _ Hp Em). trivial.
Qed.

Lemma sessionsAt_stable : stable sessionsAt.
Proof. exact (arrayAt_stable sessionAt sessionAt_stable). Qed.

(** The rules of [grows]. *)
Lemma grows_ret {A} (a : A) (h : heap) (Q : A -> heap -> Prop) :
  Q a h -> grows (ret a) h Q.
Proof. intros H. exists a, h. split; [reflexivity|]. split; [reflexivity|exact H]. Qed.

Lemma grows_bind {A B} (c : M A) (k : A -> M B) (h : heap) (Q : B -> heap -> Prop) :
  grows c h (fun a h1 => grows (k a) h1 Q) -> grows (bind c k) h Q.
Proof.
  intros (a & h1 & Ec & S1 & (b & h2 & Ek & S2 & HQ)).
  exists b, h2. unfold bind. rewrite Ec. split; [exact Ek|].
  split; [etrans; eassumption|exact HQ].
Qed.

Lemma grows_wand {A} (c : M A) (h : heap) (Q Q' : A -> heap -> Prop) :
  grows c h Q -> (forall a h', h ⊆ h' -> Q a h' -> Q' a h') -> grows c h Q'.
Proof.
  intros (a & h' & Ec & S & HQ) HW. exists a, h'. auto.
Qed.

Lemma grows_alloc (o : object) (h : heap) (Q : loc -> heap -> Prop) :
  (forall l, h !! l = None -> Q l (<[l := o]> h)) -> grows (alloc o) h Q.
Proof.
  intros H. set (l := fresh (dom h)).
  assert (Hl : h !! l = None) by (apply not_elem_of_dom, is_fresh).
  exists l, (<[l := o]> h). split; [reflexivity|].
  split; [apply insert_subseteq, Hl|apply H, Hl].
Qed.

Lemma grows_readObject (l : loc) (o : object) (h : heap) (Q : object -> heap -> Prop) :
  h !! l = Some o -> Q o h -> grows (readObject l) h Q.
Proof.
  intros E H. exists o, h. unfold readObject. rewrite E. auto.
Qed.

Lemma grows_readArray (l : loc) (items : list loc) (h : heap)
    (Q : list loc -> heap -> Prop) :
  h !! l = Some (ArrayObject items) -> Q items h -> grows (readArray l) h Q.
Proof.
  intros E H. exists items, h. unfold readArray. rewrite E. auto.
Qed.

(** [map] over the references of an array. *)
Lemma grows_mapLocs {X Y} (f : loc -> M loc) (R : heap -> loc -> option X)
    (R' : heap -> loc -> option Y) (g : X -> Y) :
  stable R -> stable R' ->
  (forall h l x, R h l = Some x -> grows (f l) h (fun l' h' => R' h' l' = Some (g x))) ->
  forall ls xs h, mapM (R h) ls = Some xs ->
  grows (mapLocs f ls) h (fun ls' h' => mapM (R' h') ls' = Some (List.map g xs)).
Proof.
  intros HR HR' Hf. induction ls as [|l ls IH]; intros xs h H.
  - cbn in H. injection H as <-. apply grows_ret. reflexivity.
  - cbn in H. destruct (R h l) as [x|] eqn:Ex; [|discriminate]. cbn in H.
    destruct (mapM (R h) ls) as [xs'|] eqn:Exs; [|discriminate]. injection H as <-.
    cbn [mapLocs]. apply grows_bind. apply (grows_wand _ _ _ _ (Hf h l x Ex)).
    intros l' h1 S1 Hl'. apply grows_bind.
    assert (E1 : mapM (R h1) ls = Some xs').
    { apply (mapM_stable R h); auto using subseteq_preserved. }
    apply (grows_wand _ _ _ _ (IH xs' h1 E1)).
    intros ls' h2 S2 Hls'. apply grows_ret. cbn.
    rewrite (HR' _ _ _ _ (subseteq_preserved _ _ S2) Hl'). cbn. rewrite Hls'. reflexivity.
Qed.

Lemma grows_arrayMap {X Y} (f : loc -> M loc) (R : heap -> loc -> option X)
    (R' : heap -> loc -> option Y) (g : X -> Y) (a : loc) (xs : list X) (h : heap) :
  stable R -> stable R' ->
  (forall h l x, R h l = Some x -> grows (f l) h (fun l' h' => R' h' l' = Some (g x))) ->
  arrayAt R h a = Some xs ->
  grows (arrayMap f a) h (fun a' h' => arrayAt R' h' a' = Some (List.map g xs)).
Proof.
  intros HR HR' Hf H. unfold arrayAt in H.
  destruct (h !! a) as [[| |items|]|] eqn:Ea; try discriminate.
  unfold arrayMap. apply grows_bind. apply (grows_readArray _ _ _ _ Ea).
  apply grows_bind. apply (grows_wand _ _ _ _ (grows_mapLocs f R R' g HR HR' Hf _ _ _ H)).
  intros items' h1 S1 Hitems'. apply grows_alloc. intros l Hl.
  unfold arrayAt. rewrite lookup_insert_eq.
  apply (mapM_stable R' h1); auto.
  apply subseteq_preserved, insert_subseteq, Hl.
Qed.

Lemma grows_filterLocs {X} (keep : loc -> M bool) (R : heap -> loc -> option X)
    (p : X -> bool) :
  stable R ->
  (forall h l x, R h l = Some x -> grows (keep l) h (fun b h' => b = p x)) ->
  forall ls xs h, mapM (R h) ls = Some xs ->
  grows (filterLocs keep ls) h (fun ls' h' => mapM (R h') ls' = Some (List.filter p xs)).
Proof.
  intros HR Hk. induction ls as [|l ls IH]; intros xs h H.
  - cbn in H. injection H as <-. apply grows_ret. reflexivity.
  - cbn in H. destruct (R h l) as [x|] eqn:Ex; [|discriminate]. cbn in H.
    destruct (mapM (R h) ls) as [xs'|] eqn:Exs; [|discriminate]. injection H as <-.
    cbn [filterLocs]. apply grows_bind. apply (grows_wand _ _ _ _ (Hk h l x Ex)).
    intros b h1 S1 ->. apply grows_bind.
    assert (E1 : mapM (R h1) ls = Some xs').
    { apply (mapM_stable R h); auto using subseteq_preserved. }
    apply (grows_wand _ _ _ _ (IH xs' h1 E1)).
    intros ls' h2 S2 Hls'. apply grows_ret. cbn [List.filter].
    destruct (p x); [|exact Hls']. cbn.
    assert (S12 : preserved h h2) by (apply subseteq_preserved; etrans; eassumption).
    rewrite (HR _ _ _ _ S12 Ex). cbn. rewrite Hls'. reflexivity.
Qed.

Lemma grows_arrayFilter {X} (keep : loc -> M bool) (R : heap -> loc -> option X)
    (p : X -> bool) (a : loc) (xs : list X) (h : heap) :
  stable R ->
  (forall h l x, R h l = Some x -> grows (keep l) h (fun b h' => b = p x)) ->
  arrayAt R h a = Some xs ->
  grows (arrayFilter keep a) h (fun a' h' => arrayAt R h' a' = Some (List.filter p xs)).
Proof.
  intros HR Hk H. unfold arrayAt in H.
  destruct (h !! a) as [[| |items|]|] eqn:Ea; try discriminate.
  unfold arrayFilter. apply grows_bind. apply (grows_readArray _ _ _ _ Ea).
  apply grows_bind. apply (grows_wand _ _ _ _ (grows_filterLocs keep R p HR Hk _ _ _ H)).
  intros items' h1 S1 Hitems'. apply grows_alloc. intros l Hl.
  unfold arrayAt. rewrite lookup_insert_eq.
  apply (mapM_stable R h1); auto.
  apply subseteq_preserved, insert_subseteq, Hl.
Qed.

(** The callbacks. *)
Lemma grows_isSelected (o : ExportOptions) (h : heap) (l : loc) (s : ChatSession) :
  sessionAt h l = Some s ->
  grows (isSelected o l) h
    (fun b _ => b = existsb (String.eqb (id s)) (selectedSessions o)).
Proof.
  unfold sessionAt. destruct (h !! l) as [[sid stitle sm c u| | |]|] eqn:E; try discriminate.
  destruct (messagesAt h sm) as [ms|]; [|discriminate]. intros [= <-].
  unfold isSelected. apply grows_bind. apply (grows_readObject _ _ _ _ E).
  apply grows_ret. reflexivity.
Qed.

Lemma grows_withoutMessages (h : heap) (l : loc) (s : ChatSession) :
  sessionAt h l = Some s ->
  grows (withoutMessages l) h (fun l' h' => sessionAt h' l' = Some (withMessages s [])).
Proof.
  unfold sessionAt at 1.
  destruct (h !! l) as [[sid stitle sm c u| | |]|] eqn:E; try discriminate.
  destruct (messagesAt h sm) as [ms|]; [|discriminate]. intros [= <-].
  unfold withoutMessages. apply grows_bind. apply (grows_readObject _ _ _ _ E).
  apply grows_bind. apply grows_alloc. intros e He. apply grows_alloc. intros l' Hl'.
  unfold sessionAt. rewrite lookup_insert_eq. unfold messagesAt.
  assert (l' <> e) by (intros ->; rewrite lookup_insert_eq in Hl'; discriminate).
  rewrite lookup_insert_ne, lookup_insert_eq by auto. reflexivity.
Qed.

Lemma grows_withoutSources (h : heap) (l : loc) (m : Message) :
  messageAt h l = Some m ->
  grows (withoutSources l) h (fun l' h' => messageAt h' l' = Some (stripSources m)).
Proof.
  unfold messageAt at 1. destruct (h !! l) as [[|m0| |]|] eqn:E; try discriminate.
  intros [= <-]. unfold withoutSources. apply grows_bind.
  apply (grows_readObject _ _ _ _ E). apply grows_alloc. intros l' Hl'.
  unfold messageAt. rewrite lookup_insert_eq. reflexivity.
Qed.

Lemma grows_withoutEntities (h : heap) (l : loc) (m : Message) :
  messageAt h l = Some m ->
  grows (withoutEntities l) h (fun l' h' => messageAt h' l' = Some (stripEntities m)).
Proof.
  unfold messageAt at 1. destruct (h !! l) as [[|m0| |]|] eqn:E; try discriminate.
  intros [= <-]. unfold withoutEntities. apply grows_bind.
  apply (grows_readObject _ _ _ _ E). apply grows_alloc. intros l' Hl'.
  unfold messageAt. rewrite lookup_insert_eq. reflexivity.
Qed.

Lemma grows_mapMessages (f : loc -> M loc) (g : Message -> Message)
    (h : heap) (l : loc) (s : ChatSession) :
  (forall h l m, messageAt h l = Some m ->
     grows (f l) h (fun l' h' => messageAt h' l' = Some (g m))) ->
  sessionAt h l = Some s ->
  grows (mapMessages f l) h
    (fun l' h' => sessionAt h' l' = Some (withMessages s (List.map g (messages s)))).
Proof.
  intros Hf. unfold sessionAt at 1.
  destruct (h !! l) as [[sid stitle sm c u| | |]|] eqn:E; try discriminate.
  destruct (messagesAt h sm) as [ms|] eqn:Em; [|discriminate]. intros [= <-].
  unfold mapMessages. apply grows_bind. apply (grows_readObject _ _ _ _ E).
  apply grows_bind.
  apply (grows_wand _ _ _ _
           (grows_arrayMap f messageAt messageAt g sm ms h
              messageAt_stable messageAt_stable Hf Em)).
  intros sm' h1 S1 Hsm'. apply grows_alloc. intros l' Hl'.
  unfold sessionAt. rewrite lookup_insert_eq.
  assert (Hm : messagesAt (<[l' := SessionObject sid stitle sm' c u]> h1) sm'
               = Some (List.map g ms)).
  { apply (messagesAt_stable h1); [|exact Hsm'].
    apply subseteq_preserved, insert_subseteq, Hl'. }
  rewrite Hm. reflexivity.
Qed.

Lemma remapSessions_exporting (f : loc -> M loc) (g : ChatSession -> ChatSession)
    (h0 : heap) (d : loc) (e : string) (o : ExportOptions) (sel : loc)
    (selected cur : list ChatSession) (h : heap) :
  (forall h l x, sessionAt h l = Some x ->
     grows (f l) h (fun l' h' => sessionAt h' l' = Some (g x))) ->
  exporting h0 d e o sel selected cur h ->
  exists h', remapSessions f d h = Some (tt, h')
             /\ exporting h0 d e o sel selected (List.map g cur) h'.
Proof.
  intros Hf (S0 & Hd0 & Hsel & a & Hd & Ha).
  destruct (grows_arrayMap f sessionAt sessionAt g a cur h
              sessionAt_stable sessionAt_stable Hf Ha) as (a' & h1 & E1 & S1 & Ha').
  assert (Hd1 : h1 !! d = Some (ExportObject e o a)) by (eapply lookup_weaken; eauto).
  set (h' := <[d := ExportObject e o a']> h1).
  assert (P1 : preserved h1 h').
  { intros k x Hk Hx. unfold h'. rewrite lookup_insert_ne; [exact Hk|].
    intros ->. rewrite Hd1 in Hk. injection Hk as <-. discriminate. }
  exists h'. split.
  - unfold remapSessions, bind, readObject. rewrite Hd. cbv beta iota.
    rewrite E1. unfold assignSessions. rewrite Hd1. reflexivity.
  - split; [|split; [|split]].
    + apply map_subseteq_spec. intros k x Hk. unfold h'.
      rewrite lookup_insert_ne by (intros ->; congruence).
      eapply lookup_weaken; [|exact S1]. eapply lookup_weaken; eauto.
    + exact Hd0.
    + apply (sessionsAt_stable h); [|exact Hsel].
      eapply preserved_trans; [apply subseteq_preserved, S1|exact P1].
    + exists a'. split; [apply lookup_insert_eq|].
      apply (sessionsAt_stable h1); assumption.
Qed.

Lemma dropMessages_map (l : list ChatSession) :
  dropMessages l = List.map (fun s => withMessages s []) l.
Proof. reflexivity. Qed.

Lemma dropSources_map (l : list ChatSession) :
  dropSources l =
  List.map (fun s => withMessages s (List.map stripSources (messages s))) l.
Proof. reflexivity. Qed.

Lemma dropEntities_map (l : list ChatSession) :
  dropEntities l =
  List.map (fun s => withMessages s (List.map stripEntities (messages s))) l.
Proof. reflexivity. Qed.

Section ExportGraph.

Variable toLocaleString : Date -> string.

(** On a store in which the reference of the hook reads as the collection
    [l], the export on the object graph returns what [exportData] returns on
    [l], and every object of that store is afterwards what it was. *)
Lemma exportData_graph (o : ExportOptions) (clk : ExportClock) (ref : loc)
    (l : list ChatSession) (h : heap) :
  sessionsAt h ref = Some l ->
  exists h', Graph.exportData toLocaleString o clk ref h =
               Some (exportDataOfList toLocaleString o clk l, h')
             /\ h ⊆ h'.
Proof.
  intros Hl.
  destruct (grows_arrayFilter (isSelected o) sessionAt
              (fun s => existsb (String.eqb (id s)) (selectedSessions o)) ref l h
              sessionAt_stable (grows_isSelected o) Hl)
    as (sel & h1 & E1 & S1 & Hsel).
  fold (selectSessions o l) in Hsel. fold (sessionsAt h1 sel) in Hsel.
  set (e := isoOfTime (c_exportedAt clk)).
  set (d := fresh (dom h1)).
  assert (Hd1 : h1 !! d = None) by (apply not_elem_of_dom, is_fresh).
  set (h2 := <[d := ExportObject e o sel]> h1).
  assert (S2 : h1 ⊆ h2) by (apply insert_subseteq, Hd1).
  assert (I2 : exporting h d e o sel (selectSessions o l) (selectSessions o l) h2).
  { split; [etrans; eassumption|]. split; [eapply lookup_weaken_None; eauto|].
    assert (sessionsAt h2 sel = Some (selectSessions o l))
      by (apply (sessionsAt_stable h1); auto using subseteq_preserved).
    split; [assumption|]. exists sel. split; [apply lookup_insert_eq|assumption]. }
  set (l1 := if includeMessages o then selectSessions o l
             else dropMessages (selectSessions o l)).
  assert (Step1 : exists h3,
            (if includeMessages o then ret tt else remapSessions withoutMessages d) h2
              = Some (tt, h3)
            /\ exporting h d e o sel (selectSessions o l) l1 h3).
  { unfold l1. destruct (includeMessages o).
    - exists h2. split; [reflexivity|exact I2].
    - rewrite dropMessages_map.
      apply (remapSessions_exporting withoutMessages _ h d e o sel _ _ h2
               grows_withoutMessages I2). }
  destruct Step1 as (h3 & E3 & I3).
  set (l2 := if includeSources o then l1 else dropSources l1).
  assert (Step2 : exists h4,
            (if includeSources o then ret tt
             else remapSessions (mapMessages withoutSources) d) h3 = Some (tt, h4)
            /\ exporting h d e o sel (selectSessions o l) l2 h4).
  { unfold l2. destruct (includeSources o).
    - exists h3. split; [reflexivity|exact I3].
    - rewrite dropSources_map.
      apply (remapSessions_exporting (mapMessages withoutSources) _ h d e o sel _ _ h3);
        [|exact I3].
      intros h' k x. apply grows_mapMessages. exact grows_withoutSources. }
  destruct Step2 as (h4 & E4 & I4).
  set (l3 := if includeEntities o then l2 else dropEntities l2).
  assert (Step3 : exists h5,
            (if includeEntities o then ret tt
             else remapSessions (mapMessages withoutEntities) d) h4 = Some (tt, h5)
            /\ exporting h d e o sel (selectSessions o l) l3 h5).
  { unfold l3. destruct (includeEntities o).
    - exists h4. split; [reflexivity|exact I4].
    - rewrite dropEntities_map.
      apply (remapSessions_exporting (mapMessages withoutEntities) _ h d e o sel _ _ h4);
        [|exact I4].
      intros h' k x. apply grows_mapMessages. exact grows_withoutEntities. }
  destruct Step3 as (h5 & E5 & (S5 & _ & Hsel5 & a5 & Hd5 & Ha5)).
  exists h5. split; [|exact S5].
  unfold Graph.exportData, bind. rewrite E1.
  change (alloc (ExportObject (isoOfTime (c_exportedAt clk)) o sel) h1)
    with (Some (d, h2)).
  cbv beta iota. rewrite E3, E4, E5.
  unfold readExportData, exportDataAt. rewrite Hd5, Ha5. cbn [mbind option_bind].
  unfold readSessions. rewrite Hsel5. reflexivity.
Qed.

(** C9.  For every ExportOptions value export is a pure read.  Started from
    a state of the hook whose reference reads as the collection [l], the
    call returns the file that [exportData] computes from [l], and it changes
    nothing that the hook holds: every object that was in the store (the
    array of sessions, each session, each array of messages, each message) is
    what it was, the reference to the collection, the current-session pointer
    and the loading flag are unchanged, and the collection reads as [l]
    again.  Filtering, stripping and rendering work on new arrays and new
    objects; the one assignment is to the export object, itself new. *)
Theorem exportCall_pure_read (o : ExportOptions) (clk : ExportClock) (m : Machine)
    (l : list ChatSession) :
  collection m = Some l ->
  exists m', exportCall toLocaleString o clk m =
               Some (exportDataOfList toLocaleString o clk l, m')
             /\ (forall k x, store m !! k = Some x -> store m' !! k = Some x)
             /\ sessionsRef m' = sessionsRef m
             /\ current m' = current m
             /\ loading m' = loading m
             /\ collection m' = Some l.
Proof.
  intros Hl. unfold collection in Hl.
  destruct (exportData_graph o clk (sessionsRef m) l (store m) Hl) as (h' & E & S).
  eexists. unfold exportCall. rewrite E. split; [reflexivity|]. cbn.
  split; [intros k x Hk; eapply lookup_weaken; eauto|].
  repeat split. unfold collection. cbn.
  apply (sessionsAt_stable (store m)); [apply subseteq_preserved, S|exact Hl].
Qed.

End ExportGraph.

(** Every collection is the reading of some store. *)
Lemma grows_allocAll {X} (f : X -> M loc) (R : heap -> loc -> option X) :
  stable R ->
  (forall x h, grows (f x) h (fun l h' => R h' l = Some x)) ->
  forall xs h, grows (allocAll f xs) h (fun ls h' => mapM (R h') ls = Some xs).
Proof.
  intros HR Hf. induction xs as [|x xs IH]; intros h.
  - apply grows_ret. reflexivity.
  - cbn [allocAll]. apply grows_bind. apply (grows_wand _ _ _ _ (Hf x h)).
    intros l h1 S1 Hl. apply grows_bind. apply (grows_wand _ _ _ _ (IH h1)).
    intros ls h2 S2 Hls. apply grows_ret. cbn.
    rewrite (HR _ _ _ _ (subseteq_preserved _ _ S2) Hl). cbn. rewrite Hls. reflexivity.
Qed.

Lemma grows_allocMessage (m : Message) (h : heap) :
  grows (alloc (MessageObject m)) h (fun l h' => messageAt h' l = Some m).
Proof.
  apply grows_alloc. intros l _. unfold messageAt. rewrite lookup_insert_eq. reflexivity.
Qed.

Lemma grows_allocSession (s : ChatSession) (h : heap) :
  grows (allocSession s) h (fun l h' => sessionAt h' l = Some s).
Proof.
  unfold allocSession. apply grows_bind.
  apply (grows_wand _ _ _ _
           (grows_allocAll (fun m => alloc (MessageObject m)) messageAt
              messageAt_stable grows_allocMessage (messages s) h)).
  intros ms h1 S1 Hms. apply grows_bind. apply grows_alloc. intros a Ha.
  apply grows_alloc. intros l Hl.
  unfold sessionAt. rewrite lookup_insert_eq.
  assert (l <> a) by (intros ->; rewrite lookup_insert_eq in Hl; discriminate).
  unfold messagesAt. rewrite lookup_insert_ne, lookup_insert_eq by auto.
  rewrite (mapM_stable messageAt h1 _ messageAt_stable
             (subseteq_preserved _ _
                (transitivity (insert_subseteq h1 a _ Ha) (insert_subseteq _ l _ Hl)))
             _ _ Hms).
  destruct s; reflexivity.
Qed.

Lemma machineOf_collection (l : list ChatSession) (cur : option string) :
  exists m, machineOf l cur = Some m /\ collection m = Some l /\ current m = cur.
Proof.
  assert (G : grows (allocSessions l) ∅ (fun r h => sessionsAt h r = Some l)).
  { unfold allocSessions. apply grows_bind.
    apply (grows_wand _ _ _ _
             (grows_allocAll allocSession sessionAt sessionAt_stable
                grows_allocSession l ∅)).
    intros ss h1 S1 Hss. apply grows_alloc. intros r Hr.
    unfold sessionsAt. rewrite lookup_insert_eq.
    apply (mapM_stable sessionAt h1); [exact sessionAt_stable| |exact Hss].
    apply subseteq_preserved, insert_subseteq, Hr. }
  destruct G as (r & h & E & _ & Hr).
  unfold machineOf. rewrite E. eexists. split; [reflexivity|]. split; [exact Hr|reflexivity].
Qed.

End GraphFacts.

Lemma exportCall_pure_read_witness :
  exists m',
    Graph.exportCall sampleLocale (withFormat "html" sampleOptions) sampleExportClock
      sampleMachine =
    Some (exportData sampleLocale (withFormat "html" sampleOptions) sampleExportClock
            threeMessages, m')
    /\ Graph.current m' = Some "1"
    /\ Graph.collection m' = Some threeMessages.
Proof.
  destruct (GraphFacts.exportCall_pure_read sampleLocale
              (withFormat "html" sampleOptions) sampleExportClock sampleMachine
              threeMessages)
    as (m' & E & _ & _ & Hc & _ & Hl).
  - vm_compute. reflexivity.
  - exists m'. split; [exact E|]. split; [exact Hc|exact Hl].
Defined.

(* ===================================================================== *)
(** * Part III.  Further properties of the code                           *)
(* ===================================================================== *)

(** ** Deleting, selecting and creating sessions *)

Lemma filter_id (A : Type) (p : A -> bool) (l : list A) :
  (forall x, In x l -> p x = true) -> List.filter p l = l.
Proof.
  induction l as [|x l IH]; intros H; [reflexivity|]. cbn.
  rewrite (H x (or_introl eq_refl)). f_equal. apply IH. intros y Hy. apply H. right. exact Hy.
Qed.

Lemma filter_twice (A : Type) (p : A -> bool) (l : list A) :
  List.filter p (List.filter p l) = List.filter p l.
Proof.
  apply filter_id. intros x Hx. apply filter_In in Hx. tauto.
Qed.

(** X1.  [deleteSession] removes every session that has the id, duplicates
    included, and keeps the others; the pointer is cleared exactly when it
    was that id.  Deleting again, or deleting an id that no session has while
    another session is current, changes nothing. *)
Theorem deleteSession_spec (sid : string) (st : ChatState) :
  (forall s, In s (sessions (deleteSession sid st)) <->
             In s (sessions st) /\ id s <> sid)
  /\ currentSessionId (deleteSession sid st) <> Some sid
  /\ (forall cur, currentSessionId st = Some cur -> cur <> sid ->
        currentSessionId (deleteSession sid st) = Some cur)
  /\ deleteSession sid (deleteSession sid st) = deleteSession sid st
  /\ ((forall s, In s (sessions st) -> id s <> sid) ->
      currentSessionId st <> Some sid ->
      deleteSession sid st = st).
Proof.
  split; [|split; [|split; [|split]]].
  - intros s. cbn [deleteSession sessions]. rewrite filter_In, negb_true_iff.
    rewrite String.eqb_neq. reflexivity.
  - cbn. destruct (currentSessionId st) as [cur|]; [|discriminate].
    destruct (String.eqb_spec cur sid); congruence.
  - intros cur E Hne. cbn. rewrite E.
    destruct (String.eqb_spec cur sid); congruence.
  - unfold deleteSession. cbn [sessions currentSessionId isLoading].
    rewrite filter_twice. f_equal.
    destruct (currentSessionId st) as [cur|]; [|reflexivity].
    destruct (String.eqb cur sid) eqn:E; [reflexivity|]. rewrite E. reflexivity.
  - intros Hnone Hcur. destruct st as [l cur load]. unfold deleteSession. cbn in *.
    f_equal.
    + apply filter_id. intros s Hs. apply negb_true_iff, String.eqb_neq, Hnone, Hs.
    + destruct cur as [c|]; [|reflexivity].
      destruct (String.eqb_spec c sid); congruence.
Qed.

Lemma deleteSession_spec_witness :
  currentSessionId (deleteSession "2" sampleState) = Some "1"
  /\ deleteSession "2" sampleState = sampleState.
Proof.
  split.
  - apply (proj1 (proj2 (proj2 (deleteSession_spec "2" sampleState))) "1");
      [reflexivity|discriminate].
  - apply (proj2 (proj2 (proj2 (proj2 (deleteSession_spec "2" sampleState))))).
    + intros s [<-|[]]. discriminate.
    + discriminate.
Defined.

Lemma find_some_first (l : list ChatSession) (sid : string) (s : ChatSession) :
  findSession sid l = Some s ->
  exists pre post, l = (pre ++ s :: post)%list /\ id s = sid
                   /\ forall s', In s' pre -> id s' <> sid.
Proof.
  unfold findSession. induction l as [|x l IH]; cbn; [discriminate|].
  destruct (String.eqb_spec (id x) sid) as [E|E].
  - intros [= <-]. exists [], l. repeat split; [exact E|]. intros s' [].
  - intros H. destruct (IH H) as (pre & post & -> & Hid & Hpre).
    exists (x :: pre), post. repeat split; [exact Hid|].
    intros s' [<-|Hin]; [exact E|apply Hpre, Hin].
Qed.

(** X2.  [selectSession] accepts any id.  The session shown as current is the
    first session of the collection with that id; when no session has it,
    no session is current although an id is selected, and the pointer then
    names no session of the collection. *)
Theorem selectSession_current (sid : string) (st : ChatState) :
  sessions (selectSession sid st) = sessions st
  /\ currentSessionId (selectSession sid st) = Some sid
  /\ (forall s, currentSession (selectSession sid st) = Some s ->
        exists pre post, sessions st = (pre ++ s :: post)%list /\ id s = sid
                         /\ forall s', In s' pre -> id s' <> sid)
  /\ (currentSession (selectSession sid st) = None <->
      forall s, In s (sessions st) -> id s <> sid)
  /\ (pointerValid (selectSession sid st) <->
      exists s, In s (sessions st) /\ id s = sid).
Proof.
  split; [reflexivity|]. split; [reflexivity|]. split; [|split].
  - intros s H. apply find_some_first. exact H.
  - unfold currentSession, findSession. cbn [selectSession currentSessionId sessions]. split.
    + intros H s Hs E.
      apply (find_none _ _ H) in Hs. apply String.eqb_neq in Hs. congruence.
    + intros H. destruct (List.find _ _) as [s|] eqn:E; [|reflexivity].
      apply find_some in E as [Hin Heq]. apply String.eqb_eq in Heq.
      exfalso. exact (H s Hin Heq).
  - reflexivity.
Qed.

Lemma selectSession_current_witness :
  exists pre post, sessions sampleState = (pre ++ sampleSession :: post)%list
                   /\ id sampleSession = "1"
                   /\ forall s', In s' pre -> id s' <> "1".
Proof.
  exact (proj1 (proj2 (proj2 (selectSession_current "1" sampleState)))
           sampleSession eq_refl).
Defined.

(** X3.  [createNewSession] puts the new session in front and makes it the one
    shown as current, also when an older session has the same id.  Deleting
    it again leaves the sessions with other ids as they were and no session
    current: the session that was current before is not selected again. *)
Theorem createNewSession_then_delete (clk : CreateClock) (st : ChatState) :
  let fresh := fst (createNewSession clk st) in
  let st1 := snd (createNewSession clk st) in
  sessions st1 = fresh :: sessions st
  /\ currentSession st1 = Some fresh
  /\ messages fresh = [] /\ title fresh = "New Chat"
  /\ sessions (deleteSession (id fresh) st1) =
     List.filter (fun s => negb (String.eqb (id s) (id fresh))) (sessions st)
  /\ currentSessionId (deleteSession (id fresh) st1) = None
  /\ ((forall s, In s (sessions st) -> id s <> id fresh) ->
      sessions (deleteSession (id fresh) st1) = sessions st).
Proof.
  cbv zeta. split; [reflexivity|]. split; [|split; [reflexivity|split; [reflexivity|]]].
  - unfold currentSession, findSession. cbn. rewrite String.eqb_refl. reflexivity.
  - assert (E : sessions (deleteSession (id (fst (createNewSession clk st)))
                            (snd (createNewSession clk st))) =
                List.filter (fun s => negb (String.eqb (id s)
                                          (id (fst (createNewSession clk st)))))
                            (sessions st)).
    { cbn. rewrite String.eqb_refl. reflexivity. }
    split; [exact E|]. split.
    + cbn. rewrite String.eqb_refl. reflexivity.
    + intros H. rewrite E. apply filter_id. intros s Hs.
      apply negb_true_iff, String.eqb_neq, H, Hs.
Qed.

Lemma createNewSession_then_delete_witness :
  sessions (deleteSession "1700000000000"
              (snd (createNewSession (c_session sampleBegin) sampleState))) =
  sessions sampleState.
Proof.
  apply (proj2 (proj2 (proj2 (proj2 (proj2 (proj2
           (createNewSession_then_delete (c_session sampleBegin) sampleState))))))).
  intros s [<-|[]]. discriminate.
Defined.

(** ** Session ids *)

Local Open Scope Z_scope.

Lemma pad_length (w : nat) : forall n, String.length (pad w n) = w.
Proof.
  induction w as [|w IH]; intros n; [reflexivity|]. cbn [pad].
  assert (L : forall a b, String.length (a ++ b) = (String.length a + String.length b)%nat).
  { intros a b. induction a as [|c a IHa]; cbn; [reflexivity|]. rewrite IHa. reflexivity. }
  rewrite L, IH. cbn. lia.
Qed.

Lemma countDigits_bound (fuel : nat) : forall n,
  0 <= n < 10 * 2 ^ Z.of_nat fuel ->
  n < 10 ^ Z.of_nat (countDigits fuel n).
Proof.
  induction fuel as [|fuel IH]; intros n H.
  - cbn in *. lia.
  - cbn [countDigits]. destruct (Z.ltb_spec n 10) as [Hlt|Hge]; [cbn; lia|].
    rewrite Nat2Z.inj_succ, Z.pow_succ_r in * by lia.
    assert (n / 10 < 10 ^ Z.of_nat (countDigits fuel (n / 10))).
    { apply IH. Z.div_mod_to_equations. lia. }
    Z.div_mod_to_equations. lia.
Qed.

Lemma numeral_value (n : Z) :
  0 <= n -> n < 10 ^ Z.of_nat (countDigits (Z.to_nat (Z.log2 n)) n).
Proof.
  intros H. apply countDigits_bound. split; [exact H|].
  destruct (Z.eq_dec n 0) as [->|Hne]; [cbn; lia|].
  pose proof (Z.log2_spec n ltac:(lia)) as [_ Hu].
  rewrite Z2Nat.id by apply Z.log2_nonneg.
  rewrite Z.pow_succ_r in Hu by apply Z.log2_nonneg. lia.
Qed.

(** The decimal numeral determines the number. *)
Lemma numeral_inj (a b : Z) : 0 <= a -> 0 <= b -> numeral a = numeral b -> a = b.
Proof.
  intros Ha Hb E.
  assert (W : countDigits (Z.to_nat (Z.log2 a)) a = countDigits (Z.to_nat (Z.log2 b)) b).
  { apply (f_equal String.length) in E. unfold numeral in E.
    rewrite !pad_length in E. exact E. }
  pose proof (numeral_value a Ha) as Va. pose proof (numeral_value b Hb) as Vb.
  unfold numeral in E. rewrite <- W in E, Vb.
  set (w := countDigits (Z.to_nat (Z.log2 a)) a) in *.
  pose proof (readDigits_pad w a 0 "" (conj Ha Va)) as Ra.
  pose proof (readDigits_pad w b 0 "" (conj Hb Vb)) as Rb.
  rewrite E in Ra. rewrite Ra in Rb. injection Rb as Rb. lia.
Qed.

Lemma intToString_inj (a b : Z) : 0 <= a -> 0 <= b -> intToString a = intToString b -> a = b.
Proof.
  intros Ha Hb. unfold intToString.
  destruct (Z.ltb_spec a 0); [lia|]. destruct (Z.ltb_spec b 0); [lia|].
  apply numeral_inj; assumption.
Qed.

Local Close Scope Z_scope.

(** X4.  Two sessions get the same id exactly when they are created in the same
    millisecond.  When they are, they cannot be told apart by id: a rename
    renames both and a delete removes both. *)
Theorem session_ids (clk1 clk2 : CreateClock) (st : ChatState) :
  (0 <= c_id clk1)%Z -> (0 <= c_id clk2)%Z ->
  let first := fst (createNewSession clk1 st) in
  let st1 := snd (createNewSession clk1 st) in
  let second := fst (createNewSession clk2 st1) in
  let st2 := snd (createNewSession clk2 st1) in
  (id first = id second <-> c_id clk1 = c_id clk2)
  /\ (c_id clk1 = c_id clk2 ->
      (forall newTitle now,
          List.map title (firstn 2 (sessions (renameSession (id second) newTitle now st2)))
          = [newTitle; newTitle])
      /\ forall s, In s (sessions (deleteSession (id second) st2)) ->
                   In s (sessions st) /\ id s <> id first).
Proof.
  intros H1 H2. cbv zeta. split.
  - cbn. split; [apply intToString_inj; assumption|intros ->; reflexivity].
  - intros E. split.
    + intros newTitle now. cbn. rewrite E, String.eqb_refl. reflexivity.
    + intros s. cbn [createNewSession fst snd deleteSession sessions id].
      rewrite E. cbn [List.filter]. rewrite String.eqb_refl. cbn [negb List.filter].
      rewrite String.eqb_refl. cbn [negb]. intros Hs. apply filter_In in Hs as [Hin Hne].
      apply negb_true_iff, String.eqb_neq in Hne. split; assumption.
Qed.

Lemma session_ids_witness :
  id (fst (createNewSession (c_session sampleBegin) initialState)) <>
  id (fst (createNewSession {| c_id := 1700000000001; c_createdAt := 1700000000001;
                               c_updatedAt := 1700000000001 |}
             (snd (createNewSession (c_session sampleBegin) initialState)))).
Proof.
  intros E.
  apply (proj1 (session_ids (c_session sampleBegin)
                  {| c_id := 1700000000001; c_createdAt := 1700000000001;
                     c_updatedAt := 1700000000001 |} initialState
                  ltac:(cbn; lia) ltac:(cbn; lia))) in E.
  discriminate E.
Defined.

(** ** More on sending *)





Lemma addUserMessage_absent (sid text : string) (u : Message) (now : Z)
    (l : list ChatSession) :
  (forall s, In s l -> id s <> sid) -> addUserMessage sid u text now l = l.
Proof.
  intros H. unfold addUserMessage. induction l as [|s l IH]; [reflexivity|]. cbn.
  destruct (String.eqb_spec (id s) sid) as [E|_].
  - exfalso. exact (H s (or_introl eq_refl) E).
  - f_equal. apply IH. intros s' Hs'. apply H. right. exact Hs'.
Qed.

Lemma addBotMessage_absent (sid : string) (b : Message) (now : Z)
    (l : list ChatSession) :
  (forall s, In s l -> id s <> sid) -> addBotMessage sid b now l = l.
Proof.
  intros H. unfold addBotMessage. induction l as [|s l IH]; [reflexivity|]. cbn.
  destruct (String.eqb_spec (id s) sid) as [E|_].
  - exfalso. exact (H s (or_introl eq_refl) E).
  - f_equal. apply IH. intros s' Hs'. apply H. right. exact Hs'.
Qed.

(** X6.  A reply whose target is gone is dropped without a trace: when no
    session has the captured id, settling changes no session and only clears
    the loading flag.  This is the case after the target has been deleted,
    and the reply does not bring it back. *)
Theorem reply_dropped (sid text : string) (api : Settled ResponseBody)
    (clk : SettleClock) (st : ChatState) :
  ((forall s, In s (sessions st) -> id s <> sid) ->
   sendMessageSettle sid text api clk st =
   {| sessions := sessions st; currentSessionId := currentSessionId st;
      isLoading := false |})
  /\ sessions (sendMessageSettle sid text api clk (deleteSession sid st)) =
     sessions (deleteSession sid st)
  /\ forall s, In s (sessions (sendMessageSettle sid text api clk (deleteSession sid st))) ->
               id s <> sid.
Proof.
  assert (A : forall st', (forall s, In s (sessions st') -> id s <> sid) ->
            sendMessageSettle sid text api clk st' =
            {| sessions := sessions st'; currentSessionId := currentSessionId st';
               isLoading := false |}).
  { intros st' H. unfold sendMessageSettle. rewrite addBotMessage_absent by exact H.
    reflexivity. }
  assert (D : forall s, In s (sessions (deleteSession sid st)) -> id s <> sid).
  { intros s Hs. cbn in Hs. apply filter_In in Hs as [_ Hs].
    apply negb_true_iff, String.eqb_neq in Hs. exact Hs. }
  split; [exact (A st)|]. rewrite (A _ D). cbn [sessions]. split; [reflexivity|exact D].
Qed.

Lemma reply_dropped_witness :
  sendMessageSettle "42" "What is INSAT-3D?" (Rejected "Failed to fetch") sampleSettle
    sampleState =
  {| sessions := [sampleSession]; currentSessionId := Some "1"; isLoading := false |}.
Proof.
  apply (proj1 (reply_dropped "42" "What is INSAT-3D?" (Rejected "Failed to fetch")
                  sampleSettle sampleState)).
  intros s [<-|[]]. discriminate.
Defined.

Lemma sendMessage_while_waiting_witness :
  messagesOf "1"
    (sessions (sendMessageSettle "1" "What is INSAT-3D?" (Rejected "Failed to fetch")
                 sampleSettle
                 (reactAll [Select "7"; Repo (CreateSession (c_session sampleBegin));
                            Repo (RenameSession "1" "Satellites" 1700000001000);
                            Repo (DeleteSession "1700000000000")]
                    (snd (sendMessageBegin "What is INSAT-3D?" sampleBegin sampleState)))))
  = [[userMessageOf "What is INSAT-3D?" sampleBegin;
      replyOf "What is INSAT-3D?" (Rejected "Failed to fetch") sampleSettle]].
Proof.
  exact (sendMessage_while_waiting "What is INSAT-3D?" (Rejected "Failed to fetch")
           sampleBegin sampleSettle
           [Select "7"; Repo (CreateSession (c_session sampleBegin));
            Repo (RenameSession "1" "Satellites" 1700000001000);
            Repo (DeleteSession "1700000000000")]
           sampleState eq_refl).
Defined.

(** ** The callers of the hook *)

Lemma sendMessageBeginFrom_current (text : string) (clk : BeginClock) (st : ChatState) :
  sendMessageBeginFrom (currentSessionId st) text clk st = sendMessageBegin text clk st.
Proof. reflexivity. Qed.

(** X8.  The quick start on the welcome screen, which is shown when no session
    is current.  With no id selected it creates two sessions, not one:
    [createNewSession] is called, and then [sendMessage], which still sees no
    id, calls it again.  The second one is in front, current, titled by the
    query and holds the user message.  The first one stays behind as an empty
    [New Chat] when the two ids differ; when both are created in the same
    millisecond they share the id and the first one gets the title and the
    message as well.  With a selected id that names no session nothing is
    created and the message is lost. *)
Theorem handleQuickStart_sessions (q0 : string) (clk0 : CreateClock) (clk : BeginClock)
    (st : ChatState) :
  let first := fst (createNewSession clk0 st) in
  let second := fst (createNewSession (c_session clk) (snd (createNewSession clk0 st))) in
  let u := userMessageOf q0 clk in
  let titled (s : ChatSession) :=
    {| id := id s; title := sliceTo 50 q0; messages := [u];
       createdAt := createdAt s; updatedAt := TimeValue (c_userUpdatedAt clk) |} in
  let r := handleQuickStart q0 clk0 clk st in
  (falsyId (currentSessionId st) = true ->
     fst r = id second
     /\ currentSessionId (snd r) = Some (id second)
     /\ exists other,
          sessions (snd r) =
            titled second :: other
              :: addUserMessage (id second) u q0 (c_userUpdatedAt clk) (sessions st)
          /\ (id first <> id second -> other = first)
          /\ (id first = id second -> other = titled first))
  /\ (falsyId (currentSessionId st) = false -> currentSession st = None ->
      sessions (snd r) = sessions st /\ currentSessionId (snd r) = currentSessionId st).
Proof.
  cbv zeta. unfold handleQuickStart. split.
  - intros Hf. rewrite Hf. unfold sendMessageBeginFrom.
    assert (C : match currentSessionId st with
                | Some sid => truthy sid = false
                | None => True
                end).
    { unfold falsyId in Hf. destruct (currentSessionId st); [|exact I].
      apply negb_true_iff, Hf. }
    set (st1 := snd (createNewSession clk0 st)).
    assert (E : (let '(sessionId, st2) :=
                   match currentSessionId st with
                   | Some sid =>
                       if truthy sid then (sid, st1)
                       else let '(newSession, st') := createNewSession (c_session clk) st1 in
                            (id newSession, st')
                   | None =>
                       let '(newSession, st') := createNewSession (c_session clk) st1 in
                       (id newSession, st')
                   end in
                 (sessionId,
                  {| sessions := addUserMessage sessionId (userMessageOf q0 clk) q0
                                   (c_userUpdatedAt clk) (sessions st2);
                     currentSessionId := currentSessionId st2;
                     isLoading := true |})) =
                (id (fst (createNewSession (c_session clk) st1)),
                 {| sessions := addUserMessage (id (fst (createNewSession (c_session clk) st1)))
                                  (userMessageOf q0 clk) q0 (c_userUpdatedAt clk)
                                  (sessions (snd (createNewSession (c_session clk) st1)));
                    currentSessionId := Some (id (fst (createNewSession (c_session clk) st1)));
                    isLoading := true |})).
    { destruct (currentSessionId st) as [sid|]; [rewrite C|]; reflexivity. }
    rewrite E. cbn [fst snd]. split; [reflexivity|]. split; [reflexivity|].
    cbn [createNewSession fst snd sessions id addUserMessage List.map st1
         messages length title createdAt].
    rewrite String.eqb_refl. cbn [Nat.eqb].
    destruct (String.eqb_spec (intToString (c_id clk0)) (intToString (c_id (c_session clk))))
      as [Eid|Nid]; eexists; (split; [reflexivity|]); cbn [id]; split; intros H;
      first [reflexivity | exfalso; congruence].
  - intros Hf Hcur. rewrite Hf. unfold sendMessageBeginFrom, falsyId, currentSession in *.
    destruct (currentSessionId st) as [sid|] eqn:Ecur; [|discriminate].
    apply negb_false_iff in Hf. rewrite Hf. cbn [snd sessions currentSessionId].
    split; [|exact Ecur]. apply addUserMessage_absent.
    intros s Hs E. apply (find_none _ _ Hcur) in Hs.
    apply String.eqb_neq in Hs. congruence.
Qed.

Lemma handleQuickStart_sessions_witness :
  fst (handleQuickStart "What is INSAT-3D?" (c_session sampleBegin) sampleBegin initialState)
    = "1700000000000"
  /\ length (sessions (snd (handleQuickStart "What is INSAT-3D?" (c_session sampleBegin)
                              sampleBegin initialState))) = 2
  /\ sessions (snd (handleQuickStart "What is INSAT-3D?" (c_session sampleBegin)
                      sampleBegin staleState)) = [].
Proof.
  destruct (proj1 (handleQuickStart_sessions "What is INSAT-3D?" (c_session sampleBegin)
                     sampleBegin initialState) eq_refl) as (E1 & _ & other & E2 & _).
  split; [exact E1|]. split; [rewrite E2; reflexivity|].
  exact (proj1 (proj2 (handleQuickStart_sessions "What is INSAT-3D?" (c_session sampleBegin)
                         sampleBegin staleState) eq_refl eq_refl)).
Defined.

Lemma handleFileUpload_step (sid : string) (files : list (File * BeginClock)) :
  truthy sid = true ->
  forall st,
    fst (handleFileUpload (Some sid) files st) = List.map (fun _ => sid) files
    /\ sessions (snd (handleFileUpload (Some sid) files st)) =
       fold_left (fun l fc => addUserMessage sid (userMessageOf (fileMessage (fst fc)) (snd fc))
                                (fileMessage (fst fc)) (c_userUpdatedAt (snd fc)) l)
                 files (sessions st)
    /\ currentSessionId (snd (handleFileUpload (Some sid) files st)) = currentSessionId st.
Proof.
  intros Ht. induction files as [|[f clk] files IH]; intros st; [repeat split|].
  cbn [handleFileUpload].
  assert (Eb : sendMessageBeginFrom (Some sid) (fileMessage f) clk st =
               (sid, {| sessions := addUserMessage sid (userMessageOf (fileMessage f) clk)
                                      (fileMessage f) (c_userUpdatedAt clk) (sessions st);
                        currentSessionId := currentSessionId st;
                        isLoading := true |})).
  { unfold sendMessageBeginFrom. rewrite Ht. reflexivity. }
  rewrite Eb.
  match goal with
  | |- context [handleFileUpload (Some sid) files ?st1] =>
      specialize (IH st1); destruct (handleFileUpload (Some sid) files st1) as [sids st2]
  end.
  cbn [fst snd sessions currentSessionId] in *. destruct IH as (E1 & E2 & E3).
  cbn [List.map fold_left fst snd]. split; [congruence|]. split; assumption.
Qed.

(** X9.  Uploading files from the input box, which is shown when a session is
    current: every file becomes one user message of the current session, in
    the order of the files and before any reply; no session is created, and
    all the calls capture the same id. *)
Theorem handleFileUpload_messages (sid : string) (files : list (File * BeginClock))
    (st : ChatState) :
  truthy sid = true ->
  fst (handleFileUpload (Some sid) files st) = List.map (fun _ => sid) files
  /\ length (sessions (snd (handleFileUpload (Some sid) files st))) = length (sessions st)
  /\ currentSessionId (snd (handleFileUpload (Some sid) files st)) = currentSessionId st
  /\ messagesOf sid (sessions (snd (handleFileUpload (Some sid) files st))) =
     List.map (fun ms => ms ++ List.map (fun fc => userMessageOf (fileMessage (fst fc)) (snd fc))
                                        files)%list
              (messagesOf sid (sessions st)).
Proof.
  intros Ht. destruct (handleFileUpload_step sid files Ht st) as (E1 & E2 & E3).
  split; [exact E1|]. split; [|split; [exact E3|]]; rewrite E2; clear E1 E2 E3.
  - generalize (sessions st). induction files as [|fc files IH]; intros l; [reflexivity|].
    cbn [fold_left]. rewrite IH. unfold addUserMessage. apply length_map.
  - generalize (sessions st). induction files as [|fc files IH]; intros l.
    + cbn [fold_left List.map].
      transitivity (List.map (fun ms : list Message => ms) (messagesOf sid l));
        [symmetry; apply List.map_id|].
      apply List.map_ext. intros ms. rewrite app_nil_r. reflexivity.
    + cbn [fold_left List.map]. rewrite IH, messagesOf_addUserMessage, List.map_map.
      apply List.map_ext. intros ms. rewrite <- app_assoc. reflexivity.
Qed.

Lemma handleFileUpload_messages_witness :
  messagesOf "1"
    (sessions (snd (handleFileUpload (Some "1")
                      [({| fileName := "sst.csv"; fileSize := 2048 |}, sampleBegin);
                       ({| fileName := "wind.json"; fileSize := 256 |}, sampleBegin)]
                      sampleState))) =
  [[userMessageOf "📎 Uploaded file: sst.csv (2.0 KB)" sampleBegin;
    userMessageOf "📎 Uploaded file: wind.json (0.3 KB)" sampleBegin]].
Proof.
  exact (proj2 (proj2 (proj2
           (handleFileUpload_messages "1"
              [({| fileName := "sst.csv"; fileSize := 2048 |}, sampleBegin);
               ({| fileName := "wind.json"; fileSize := 256 |}, sampleBegin)]
              sampleState eq_refl)))).
Defined.





(** ** Reloading the page *)

Lemma sessions_roundtrip (l : list ChatSession) :
  Forall sessionDated l -> List.map reviveSession (List.map storeSession l) = l.
Proof.
  intros H. induction H as [|s l Hs _ IH]; cbn [List.map]; [reflexivity|].
  rewrite session_roundtrip by exact Hs. f_equal. exact IH.
Qed.

Lemma commits_snoc (ms : list Mutation) (m : Mutation) (p : Page) :
  commits (ms ++ [m]) p = commit m (commits ms p).
Proof. unfold commits. rewrite fold_left_app. reflexivity. Qed.

Lemma commits_keep_dated (ms : list Mutation) :
  Forall mutationClocked ms ->
  forall p, Forall sessionDated (sessions (hook p)) ->
            Forall sessionDated (sessions (hook (commits ms p))).
Proof.
  intros H. induction H as [|m ms Hm _ IH]; intros p Hp; [exact Hp|].
  cbn [commits fold_left]. apply IH. unfold commit. cbn [hook].
  apply mutate_keeps_dated; assumption.
Qed.

Lemma mount_stored (l : list ChatSession) :
  Forall sessionDated l -> l <> [] ->
  mount (Some (Document (List.map storeSession l))) =
  {| hook := {| sessions := l; currentSessionId := None; isLoading := false |};
     localStorage := Some (Document (List.map storeSession l)) |}.
Proof.
  intros H Hne. unfold mount. cbn [loadSessions initialState sessions currentSessionId isLoading].
  rewrite (sessions_roundtrip l H). unfold saveSessions at 1.
  destruct l as [|s l]; [congruence|]. reflexivity.
Qed.

(** X12.  Closing the page after any run of mutations and opening it again
    restores the collection the run ended with, provided that collection is
    not empty and all dates are valid; the stored item is left as it is.  The
    current session is not restored: no session is current after a reload. *)
Theorem reload_after_commits (ms : list Mutation) (p : Page) :
  Forall sessionDated (sessions (hook p)) ->
  Forall mutationClocked ms ->
  ms <> [] ->
  sessions (hook (commits ms p)) <> [] ->
  mount (localStorage (commits ms p)) =
  {| hook := {| sessions := sessions (hook (commits ms p));
                currentSessionId := None; isLoading := false |};
     localStorage := localStorage (commits ms p) |}.
Proof.
  intros Hp Hms Hne Hlast.
  pose proof (commits_keep_dated ms Hms p Hp) as Hd.
  destruct (exists_last Hne) as (ms' & m & ->).
  rewrite commits_snoc in *. set (q := commits ms' p) in *.
  assert (E : localStorage (commit m q) =
              Some (Document (List.map storeSession (sessions (hook (commit m q)))))).
  { unfold commit in *. cbn [hook localStorage] in *. unfold saveSessions.
    destruct (sessions (mutate m (hook q))); [congruence|reflexivity]. }
  rewrite E. apply mount_stored; assumption.
Qed.

Lemma reload_after_commits_witness :
  sessions (hook (mount (localStorage
     (commits [Call (RenameSession "1" "Monsoon" 5); Call (RenameSession "1" "Cyclones" 6)]
              samplePage)))) =
  [{| id := "1"; title := "Cyclones"; messages := [];
      createdAt := TimeValue 0; updatedAt := TimeValue 6 |}].
Proof.
  refine (f_equal (fun q => sessions (hook q))
            (reload_after_commits
               [Call (RenameSession "1" "Monsoon" 5); Call (RenameSession "1" "Cyclones" 6)]
               samplePage _ _ _ _)).
  - apply sessionDatedb_spec. reflexivity.
  - repeat constructor; cbn; unfold validTime, maxTime; lia.
  - discriminate.
  - discriminate.
Defined.

(** X13.  A mutation that empties the collection is not saved: when the stored
    item mirrors the collection, deleting the last session leaves the item
    as it was, and the next load brings the deleted sessions back. *)
Theorem emptied_collection_returns (m : Mutation) (p : Page) :
  Forall sessionDated (sessions (hook p)) ->
  localStorage p = Some (Document (List.map storeSession (sessions (hook p)))) ->
  sessions (hook (commit m p)) = [] ->
  localStorage (commit m p) = localStorage p
  /\ sessions (hook (mount (localStorage (commit m p)))) = sessions (hook p).
Proof.
  intros Hd Hst Hempty.
  assert (E : localStorage (commit m p) = localStorage p).
  { unfold commit in *. cbn [hook localStorage] in *. rewrite Hempty. reflexivity. }
  split; [exact E|]. rewrite E, Hst. unfold mount.
  cbn [hook sessions loadSessions]. apply sessions_roundtrip, Hd.
Qed.

Lemma emptied_collection_returns_witness :
  sessions (hook (commit (Call (DeleteSession "1")) samplePage)) = []
  /\ sessions (hook (mount (localStorage (commit (Call (DeleteSession "1")) samplePage)))) =
     [sampleSession].
Proof.
  split; [reflexivity|].
  refine (proj2 (emptied_collection_returns (Call (DeleteSession "1")) samplePage _ _ _)).
  - apply sessionDatedb_spec. reflexivity.
  - reflexivity.
  - reflexivity.
Defined.

(** ** Settings *)

Lemma storedNumber_fixed (x : NumberSetting) :
  storedNumber x = x <-> notFinite x = false.
Proof. destruct x; cbn; split; congruence. Qed.

(** X14.  What [updateSettings] stores is read back on the next mount as the
    updated settings with every numeric field that is not finite (as after
    emptying a number box, which makes it NaN) replaced by [null]; the
    defaults play no part, since every field is stored.  So the settings
    survive a reload exactly when the three numeric fields are finite or
    already [null]. *)
Theorem settings_reload (s current : Settings) (p : PartialSettings) :
  fst (updateSettings s p) = mergeSettings s p
  /\ loadSettings (snd (updateSettings s p)) current = nonFiniteAsNull (mergeSettings s p)
  /\ (loadSettings (snd (updateSettings s p)) current = mergeSettings s p
      <-> hasNotFinite (mergeSettings s p) = false).
Proof.
  split; [reflexivity|].
  assert (E : loadSettings (snd (updateSettings s p)) current =
              nonFiniteAsNull (mergeSettings s p)) by reflexivity.
  split; [exact E|]. rewrite E. generalize (mergeSettings s p). intros u.
  unfold hasNotFinite, nonFiniteAsNull. split.
  - intros H. destruct u. cbn in *. injection H as H1 H2 H3.
    apply storedNumber_fixed in H1, H2, H3. rewrite H1, H2, H3. reflexivity.
  - intros H. apply orb_false_iff in H as [H H3]. apply orb_false_iff in H as [H1 H2].
    apply storedNumber_fixed in H1, H2, H3. destruct u. cbn in *. congruence.
Qed.

Lemma settings_reload_witness :
  loadSettings
    (snd (updateSettings defaultSettings
            {| p_theme := Some "dark"; p_language := None; p_enableNotifications := None;
               p_enableVoice := None; p_apiEndpoint := None; p_apiKey := None;
               p_requestTimeout := Some (IsNumber (Dec 45 0));
               p_enableRealTimeUpdates := None; p_maxMessages := None;
               p_autoSaveInterval := None; p_enableCaching := None;
               p_enableAnalytics := None |})) defaultSettings =
  mergeSettings defaultSettings
    {| p_theme := Some "dark"; p_language := None; p_enableNotifications := None;
       p_enableVoice := None; p_apiEndpoint := None; p_apiKey := None;
       p_requestTimeout := Some (IsNumber (Dec 45 0));
       p_enableRealTimeUpdates := None; p_maxMessages := None;
       p_autoSaveInterval := None; p_enableCaching := None;
       p_enableAnalytics := None |}.
Proof.
  apply (proj2 (proj2 (proj2 (settings_reload defaultSettings defaultSettings _)))).
  reflexivity.
Defined.

(** ** More on the export *)

Lemma csvRow_None (s : ChatSession) (m : Message) :
  csvRow s m = None <-> messageReady m = false.
Proof.
  unfold csvRow, messageReady.
  destruct (msg_text m); destruct (msg_timestamp m); cbn; split; congruence.
Qed.

Lemma csvRows_None (selected : list ChatSession) :
  csvRows selected = None <-> forallb csvReady selected = false.
Proof.
  split.
  - intros H. destruct (forallb csvReady selected) eqn:E; [|reflexivity].
    destruct (csvRows_ready selected E) as (rows & Er & _). congruence.
  - intros H. unfold csvRows.
    assert (E : mapM (fun session => mapM (csvRow session) (messages session)) selected
                = None).
    { apply mapM_None_2. induction selected as [|s selected IH]; cbn [forallb] in H;
        [discriminate|].
      apply andb_false_iff in H as [H|H]; [left|right; exact (IH H)].
      apply mapM_None_2. unfold csvReady in H.
      induction (messages s) as [|m ms IHm]; cbn [forallb] in H; [discriminate|].
      apply andb_false_iff in H as [H|H]; [left; apply csvRow_None, H|right; exact (IHm H)]. }
    rewrite E. reflexivity.
Qed.

(** X15.  [exportData] ends with an exception, so that nothing is downloaded,
    exactly when the format is CSV and some message of a selected session has
    no text or the Invalid Date as its timestamp.  In every other case a file
    is produced, named after the date with the extension and the media type
    of its format, JSON for a format that is not known. *)
Theorem exportData_throws (toLocaleString : Date -> string) (o : ExportOptions)
    (clk : ExportClock) (l : list ChatSession) :
  (exportData toLocaleString o clk l = None <->
   format o = "csv" /\ forallb csvReady (selectSessions o l) = false)
  /\ (forall d, exportData toLocaleString o clk l = Some d ->
        (format o = "csv" /\ filename d = exportName clk ++ ".csv" /\ mimeType d = "text/csv")
        \/ (format o = "html" /\ filename d = exportName clk ++ ".html"
            /\ mimeType d = "text/html")
        \/ (format o <> "csv" /\ format o <> "html"
            /\ filename d = exportName clk ++ ".json" /\ mimeType d = "application/json")).
Proof.
  unfold exportData, renderExport. fold (exportName clk).
  destruct (String.eqb_spec (format o) "json") as [Ej|Ej].
  { split.
    - split; [discriminate|]. intros [H _]. rewrite H in Ej. discriminate.
    - intros d [= <-]. right. right. rewrite Ej. repeat split; discriminate. }
  destruct (String.eqb_spec (format o) "csv") as [Ec|Ec].
  { unfold exportCsv. split.
    - rewrite <- csvRows_None.
      destruct (csvRows (selectSessions o l)); cbn; split.
      + discriminate.
      + intros [_ H]. discriminate.
      + auto.
      + reflexivity.
    - intros d H. left. destruct (csvRows (selectSessions o l)); [|discriminate].
      cbn in H. injection H as <-. repeat split. exact Ec. }
  destruct (String.eqb_spec (format o) "html") as [Eh|Eh].
  { split.
    - split; [discriminate|]. intros [H _]. congruence.
    - intros d [= <-]. right. left. repeat split. exact Eh. }
  split.
  - split; [discriminate|]. intros [H _]. congruence.
  - intros d [= <-]. right. right. repeat split; assumption.
Qed.

Lemma exportData_throws_witness :
  exportData sampleLocale
    {| format := "csv"; includeMessages := true; includeSources := true;
       includeEntities := true; includeMetadata := true; dateRange := "all";
       selectedSessions := ["1"] |}
    sampleExportClock textlessConversation = None.
Proof.
  apply (proj1 (exportData_throws sampleLocale _ sampleExportClock textlessConversation)).
  split; reflexivity.
Defined.






(** X17.  The check boxes for messages, sources, entities and metadata and the
    date range have no effect on a CSV or HTML export: the file depends on
    the format, the selection, the sessions and the clock only. *)
Theorem export_flags_ignored (toLocaleString : Date -> string) (o o' : ExportOptions)
    (clk clk' : ExportClock) (l : list ChatSession) :
  format o = "csv" \/ format o = "html" ->
  format o' = format o ->
  selectedSessions o' = selectedSessions o ->
  c_filename clk' = c_filename clk ->
  c_report clk' = c_report clk ->
  exportData toLocaleString o' clk' l = exportData toLocaleString o clk l.
Proof.
  intros Hf Ef Es Ec Er. unfold exportData, renderExport, selectSessions, exportHtml, htmlReport.
  rewrite Ef, Es, Ec, Er. destruct Hf as [-> | ->]; reflexivity.
Qed.

Lemma export_flags_ignored_witness :
  exportData sampleLocale
    {| format := "html"; includeMessages := false; includeSources := false;
       includeEntities := false; includeMetadata := false; dateRange := "week";
       selectedSessions := ["1"; "2"] |}
    sampleExportClock threeMessages =
  exportData sampleLocale (withFormat "html" sampleOptions) sampleExportClock threeMessages.
Proof.
  apply export_flags_ignored; solve [reflexivity | right; reflexivity].
Defined.

(** X18.  What the JSON export holds: the selected sessions in the order of the
    collection with their ids, titles and dates; no message at all when
    messages are excluded, whatever the other boxes say; and otherwise every
    message, with its sources and its entities removed when the box is not
    ticked and everything else, the confidence included, as it is.  The
    metadata box and the date range change nothing. *)
Theorem buildExportData_strips (o : ExportOptions) (clk : ExportClock)
    (l : list ChatSession) :
  let out := exportedSessions (buildExportData o clk l) in
  List.map (fun s => (id s, title s, createdAt s, updatedAt s)) out =
    List.map (fun s => (id s, title s, createdAt s, updatedAt s)) (selectSessions o l)
  /\ (includeMessages o = false -> List.map messages out = List.map (fun _ => []) out)
  /\ (includeMessages o = true ->
      List.map messages out =
      List.map (fun s =>
        List.map (fun m =>
          {| msg_id := msg_id m; msg_text := msg_text m; msg_sender := msg_sender m;
             msg_timestamp := msg_timestamp m;
             msg_sources := if includeSources o then msg_sources m else None;
             msg_entities := if includeEntities o then msg_entities m else None;
             msg_confidence := msg_confidence m |}) (messages s))
        (selectSessions o l)).
Proof.
  cbv zeta. unfold buildExportData. cbn [exportedSessions].
  generalize (selectSessions o l). intros sel.
  unfold dropMessages, dropSources, dropEntities, withMessages.
  destruct (includeMessages o), (includeSources o), (includeEntities o);
    (split; [|split]); try discriminate; intros;
    rewrite ?List.map_map; cbn [id title createdAt updatedAt messages];
    try reflexivity;
    apply List.map_ext; intros s; rewrite ?List.map_map;
    try reflexivity;
    try (induction (messages s) as [|m ms IH]; [reflexivity|];
         cbn [List.map]; rewrite <- IH; destruct m; reflexivity).
Qed.

Lemma buildExportData_strips_witness :
  List.map messages
    (exportedSessions (buildExportData
       {| format := "json"; includeMessages := false; includeSources := true;
          includeEntities := true; includeMetadata := true; dateRange := "all";
          selectedSessions := ["1"; "2"] |}
       sampleExportClock threeMessages)) = [[]; []].
Proof.
  exact (proj1 (proj2 (buildExportData_strips
           {| format := "json"; includeMessages := false; includeSources := true;
              includeEntities := true; includeMetadata := true; dateRange := "all";
              selectedSessions := ["1"; "2"] |}
           sampleExportClock threeMessages)) eq_refl).
Defined.

(** ** The export dialog *)

Lemma existsb_eqb_In (x : string) (l : list string) :
  existsb (String.eqb x) l = true <-> In x l.
Proof.
  rewrite existsb_exists. split.
  - intros (y & Hy & E). apply String.eqb_eq in E. subst y. exact Hy.
  - intros H. exists x. split; [exact H|apply String.eqb_refl].
Qed.

(** X19.  Ticking the box that selects all makes the export cover the whole
    collection, in its order; clearing it selects nothing, and then the
    export button does nothing.  The dialog opens with nothing selected. *)
Theorem toggleAll_selects (checked : bool) (l : list ChatSession) (o : ExportOptions) :
  selectSessions (toggleAll checked l o) l = (if checked then l else [])
  /\ (forall tl clk,
        clickExport tl (toggleAll checked l o) clk l =
        if checked && negb (length l =? 0)%nat
        then Some (exportData tl (toggleAll checked l o) clk l)
        else None)
  /\ (forall tl clk, clickExport tl initialExportOptions clk l = None).
Proof.
  split; [|split].
  - unfold selectSessions, toggleAll. cbn [selectedSessions withSelected].
    destruct checked.
    + apply filter_id. intros s Hs. apply existsb_eqb_In, in_map, Hs.
    + induction l as [|s l IH]; [reflexivity|exact IH].
  - intros tl clk. unfold clickExport, toggleAll. cbn [selectedSessions withSelected].
    destruct checked; [|reflexivity]. rewrite length_map.
    destruct (length l =? 0)%nat; reflexivity.
  - reflexivity.
Qed.

(** X20.  The check box of one session.  Ticking the box of a session that is not
    selected and clearing it again restores the selection; clearing a box
    removes the id however often it is listed.  After ticking, the export
    covers what it covered before and every session with that id; after
    clearing, it covers what it covered before without those sessions. *)
Theorem toggleSession_selects (sid : string) (o : ExportOptions) (l : list ChatSession) :
  (~ In sid (selectedSessions o) ->
   toggleSession sid false (toggleSession sid true o) = withSelected (selectedSessions o) o)
  /\ ~ In sid (selectedSessions (toggleSession sid false o))
  /\ (forall s, In s (selectSessions (toggleSession sid true o) l) <->
                In s (selectSessions o l) \/ (In s l /\ id s = sid))
  /\ (forall s, In s (selectSessions (toggleSession sid false o) l) <->
                In s (selectSessions o l) /\ id s <> sid).
Proof.
  split; [|split; [|split]].
  - intros Hn. unfold toggleSession, withSelected. cbn [selectedSessions format
      includeMessages includeSources includeEntities includeMetadata dateRange].
    f_equal. rewrite List.filter_app. cbn [List.filter]. rewrite String.eqb_refl.
    cbn [negb]. rewrite app_nil_r. apply filter_id. intros x Hx.
    apply negb_true_iff, String.eqb_neq. intros ->. exact (Hn Hx).
  - unfold toggleSession. cbn [selectedSessions withSelected]. rewrite filter_In.
    intros [_ H]. rewrite String.eqb_refl in H. discriminate.
  - intros s. unfold selectSessions, toggleSession. cbn [selectedSessions withSelected].
    rewrite !filter_In, !existsb_eqb_In, in_app_iff. cbn [In]. intuition congruence.
  - intros s. unfold selectSessions, toggleSession. cbn [selectedSessions withSelected].
    rewrite !filter_In, !existsb_eqb_In, filter_In, negb_true_iff, String.eqb_neq.
    tauto.
Qed.

Lemma toggleSession_selects_witness :
  toggleSession "2" false (toggleSession "2" true (toggleSession "1" true initialExportOptions))
  = toggleSession "1" true initialExportOptions.
Proof.
  refine (proj1 (toggleSession_selects "2" (toggleSession "1" true initialExportOptions) []) _).
  cbn. intros [H|[]]. discriminate.
Defined.

(** ** The HTML report *)

Lemma occursIn_here (a k b : string) : occursIn k (a ++ k ++ b).
Proof. exists a, b. reflexivity. Qed.

Lemma occursIn_app_l (k s b : string) : occursIn k s -> occursIn k (s ++ b).
Proof.
  intros (x & y & ->). exists x, (y ++ b). rewrite !string_app_assoc. reflexivity.
Qed.

Lemma occursIn_app_r (k a s : string) : occursIn k s -> occursIn k (a ++ s).
Proof.
  intros (x & y & ->). exists (a ++ x), y. rewrite !string_app_assoc. reflexivity.
Qed.

Lemma occursIn_join (k sep x : string) (parts : list string) :
  In x parts -> occursIn k x -> occursIn k (join sep parts).
Proof.
  intros Hin Hk. induction parts as [|p parts IH]; [destruct Hin|].
  destruct parts as [|p' parts].
  - destruct Hin as [->|[]]. exact Hk.
  - change (occursIn k (p ++ sep ++ join sep (p' :: parts))).
    destruct Hin as [->|Hin].
    + apply occursIn_app_l, Hk.
    + apply occursIn_app_r, occursIn_app_r, IH, Hin.
Qed.

(** [t] stands between the last [n1] characters of the literal before it
    and the first [n2] characters of the literal after it. *)
Ltac occurs_between t n1 n2 :=
  match goal with
  | |- occursIn _ (?L ++ t ++ q ?R ++ ?X) =>
      exists (substring 0 (String.length L - n1) L),
             (substring n2 (String.length R - n2) (q R) ++ X);
      rewrite ?string_app_assoc; reflexivity
  end.

Lemma htmlMessage_text (tl : Date -> string) (m : Message) (t : string) :
  msg_text m = Some t -> occursIn ("<p>" ++ t ++ "</p>") (htmlMessage tl m).
Proof.
  intros E. unfold htmlMessage. rewrite E.
  do 4 apply occursIn_app_r. occurs_between t 3%nat 4%nat.
Qed.

Lemma htmlSession_title (tl : Date -> string) (s : ChatSession) :
  occursIn ("<h2>" ++ title s ++ "</h2>") (htmlSession tl s).
Proof.
  unfold htmlSession. occurs_between (title s) 4%nat 5%nat.
Qed.

Lemma htmlSession_text (tl : Date -> string) (s : ChatSession) (m : Message) (t : string) :
  In m (messages s) -> msg_text m = Some t ->
  occursIn ("<p>" ++ t ++ "</p>") (htmlSession tl s).
Proof.
  intros Hin E. unfold htmlSession. do 5 apply occursIn_app_r. apply occursIn_app_l.
  apply (occursIn_join _ _ (htmlMessage tl m)); [apply in_map, Hin|].
  apply htmlMessage_text, E.
Qed.

Lemma htmlReport_session (tl : Date -> string) (selected : list ChatSession)
    (clk : ExportClock) (s : ChatSession) (k : string) :
  In s selected -> occursIn k (htmlSession tl s) -> occursIn k (htmlReport tl selected clk).
Proof.
  intros Hin Hk. unfold htmlReport. do 2 apply occursIn_app_r. apply occursIn_app_r.
  apply occursIn_app_l.
  apply (occursIn_join _ _ (htmlSession tl s)); [apply in_map, Hin|exact Hk].
Qed.

(** X21.  The HTML report inserts titles and message texts as they are, without
    escaping: the report of a selected session holds its title between the
    [h2] tags and the text of each of its messages between the [p] tags,
    character for character, so markup in a text becomes markup of the
    report.  A message without a text is reported as [undefined]. *)
Theorem exportHtml_verbatim (toLocaleString : Date -> string) (o : ExportOptions)
    (clk : ExportClock) (l : list ChatSession) (s : ChatSession) :
  format o = "html" ->
  In s (selectSessions o l) ->
  exists d,
    exportData toLocaleString o clk l = Some d
    /\ filename d = exportName clk ++ ".html"
    /\ occursIn ("<h2>" ++ title s ++ "</h2>") (content d)
    /\ (forall m t, In m (messages s) -> msg_text m = Some t ->
          occursIn ("<p>" ++ t ++ "</p>") (content d))
    /\ (forall m, In m (messages s) -> msg_text m = None ->
          occursIn "<p>undefined</p>" (content d)).
Proof.
  intros Hf Hs. unfold exportData, renderExport. rewrite Hf.
  cbn [String.eqb Ascii.eqb Bool.eqb]. eexists. split; [reflexivity|].
  cbn [filename content exportHtml]. split; [reflexivity|].
  split; [|split].
  - apply (htmlReport_session _ _ _ s); [exact Hs|apply htmlSession_title].
  - intros m t Hm Ht. apply (htmlReport_session _ _ _ s); [exact Hs|].
    apply (htmlSession_text _ _ m); assumption.
  - intros m Hm Ht. apply (htmlReport_session _ _ _ s); [exact Hs|].
    unfold htmlSession. do 5 apply occursIn_app_r. apply occursIn_app_l.
    apply (occursIn_join _ _ (htmlMessage toLocaleString m)); [apply in_map, Hm|].
    unfold htmlMessage. rewrite Ht. do 4 apply occursIn_app_r.
    occurs_between "undefined" 3%nat 4%nat.
Qed.

Lemma exportHtml_verbatim_witness :
  exists d,
    exportData sampleLocale (withFormat "html" sampleOptions) sampleExportClock
      [markupSession] = Some d
    /\ occursIn "<h2><b>Rain</b></h2>" (content d)
    /\ occursIn "<p><script>alert(1)</script></p>" (content d).
Proof.
  destruct (exportHtml_verbatim sampleLocale (withFormat "html" sampleOptions)
              sampleExportClock [markupSession] markupSession eq_refl (or_introl eq_refl))
    as (d & E & _ & Ht & Hm & _).
  exists d. split; [exact E|]. split; [exact Ht|].
  exact (Hm _ _ (or_introl eq_refl) eq_refl).
Defined.

(** ** The name of the exported file *)

Lemma notT_digitChar (d : Z) : (0 <= d < 10)%Z -> notT (digitChar d) = true.
Proof.
  intros H.
  assert (C : (d = 0 \/ d = 1 \/ d = 2 \/ d = 3 \/ d = 4 \/ d = 5 \/ d = 6
              \/ d = 7 \/ d = 8 \/ d = 9)%Z) by lia.
  repeat (destruct C as [->|C]; [reflexivity|]). subst; reflexivity.
Qed.

Lemma notT_pad (w : nat) : forall n, allChars notT (pad w n) = true.
Proof.
  induction w as [|w IH]; intros n; cbn [pad]; [reflexivity|].
  rewrite allChars_app, IH. cbn [allChars str].
  rewrite notT_digitChar by (apply Z.mod_pos_bound; lia). reflexivity.
Qed.

Lemma length_append (a b : string) :
  String.length (a ++ b) = (String.length a + String.length b)%nat.
Proof. induction a as [|c a IH]; cbn; [reflexivity|]. rewrite IH. reflexivity. Qed.

Lemma isoOfTime_date (t : Z) :
  exists date rest,
    isoOfTime t = date ++ String "T" rest
    /\ allChars notT date = true
    /\ date = (let y := YearFromDay (Day t) in
               let leap := InLeapYear y in
               let diy := Day t - DayFromYear y in
               let m := MonthFromDayInYear diy leap in
               (if (0 <=? y) && (y <=? 9999) then pad 4 y
                else (if y <? 0 then "-" else "+") ++ pad 6 (Z.abs y))
               ++ "-" ++ pad 2 (m + 1) ++ "-" ++ pad 2 (diy - monthStart m leap + 1))%Z.
Proof.
  unfold isoOfTime. cbv zeta.
  set (y := YearFromDay (Day t)). set (leap := InLeapYear y).
  set (diy := (Day t - DayFromYear y)%Z). set (m := MonthFromDayInYear diy leap).
  set (year := if ((0 <=? y) && (y <=? 9999))%Z then pad 4 y
               else (if (y <? 0)%Z then "-" else "+") ++ pad 6 (Z.abs y)).
  eexists _, _. split; [|split; [|reflexivity]].
  - rewrite !string_app_assoc. reflexivity.
  - rewrite !allChars_app, !notT_pad. cbn [allChars str append].
    subst year. destruct ((0 <=? y) && (y <=? 9999))%Z; [rewrite notT_pad; reflexivity|].
    rewrite allChars_app, notT_pad. destruct (y <? 0)%Z; reflexivity.
Qed.

(** X22.  The exported file is named after the UTC date of the export, whatever
    the format: two exports on the same UTC day get the same name.  For a
    year of four digits the name is [mosdac-export-] and the ten characters
    of the date. *)
Theorem exportName_same_day (clk clk' : ExportClock) :
  Day (c_filename clk) = Day (c_filename clk') ->
  exportName clk = exportName clk'
  /\ ((0 <= YearFromDay (Day (c_filename clk)) <= 9999)%Z ->
      String.length (exportName clk) = 24%nat).
Proof.
  intros H. unfold exportName.
  destruct (isoOfTime_date (c_filename clk)) as (d1 & r1 & E1 & A1 & D1).
  destruct (isoOfTime_date (c_filename clk')) as (d2 & r2 & E2 & A2 & D2).
  rewrite E1, E2, !splitChar_app by assumption. cbn [hd].
  rewrite H in D1. split; [congruence|].
  intros Hy. rewrite <- H in D1. subst d1. cbv zeta.
  destruct (Z.leb_spec 0 (YearFromDay (Day (c_filename clk)))); [|lia].
  destruct (Z.leb_spec (YearFromDay (Day (c_filename clk))) 9999); [|lia].
  cbn [andb]. rewrite !length_append, !pad_length. reflexivity.
Qed.

Lemma exportName_same_day_witness :
  exportName sampleExportClock =
  exportName {| c_exportedAt := 1700000009000; c_filename := 1700000009000;
                c_report := 1700000009001 |}
  /\ String.length (exportName sampleExportClock) = 24%nat.
Proof.
  destruct (exportName_same_day sampleExportClock
              {| c_exportedAt := 1700000009000; c_filename := 1700000009000;
                 c_report := 1700000009001 |} eq_refl) as [E L].
  split; [exact E|]. apply L. vm_compute. split; discriminate.
Defined.

(** ** The pointer over a whole run *)

Lemma ids_map (f : ChatSession -> ChatSession) (l : list ChatSession) (sid : string) :
  (forall s, id (f s) = id s) ->
  (exists s, In s l /\ id s = sid) -> exists s, In s (List.map f l) /\ id s = sid.
Proof.
  intros Hf (s & Hin & Hid). exists (f s). split; [apply in_map, Hin|].
  rewrite Hf. exact Hid.
Qed.

Lemma pointerValid_mutate (m : Mutation) (st : ChatState) :
  pointerValid st -> pointerValid (mutate m st).
Proof.
  destruct m as [c|text clk|sid text api clk]; cbn [mutate].
  - apply pointerValid_call.
  - unfold pointerValid, sendMessageBegin.
    assert (Hnew : forall sid u t now,
              exists s, In s (addUserMessage sid u t now
                                (sessions (snd (createNewSession (c_session clk) st))))
                        /\ id s = id (fst (createNewSession (c_session clk) st))).
    { intros sid u t now. unfold addUserMessage. apply ids_map.
      - intros s. destruct (String.eqb (id s) sid); reflexivity.
      - eexists. split; [left; reflexivity|reflexivity]. }
    destruct (currentSessionId st) as [cur|] eqn:Ecur.
    + destruct (truthy cur).
      * cbn [snd currentSessionId sessions]. rewrite Ecur. intros H.
        unfold addUserMessage. apply ids_map; [|exact H].
        intros s. destruct (String.eqb (id s) cur); reflexivity.
      * intros _. apply Hnew.
    + intros _. apply Hnew.
  - unfold pointerValid. cbn [sendMessageSettle currentSessionId sessions].
    destruct (currentSessionId st) as [cur|]; [|trivial].
    unfold addBotMessage. apply ids_map.
    intros s. destruct (String.eqb (id s) sid); reflexivity.
Qed.

(** X23.  From the moment the page is loaded, creating, deleting and renaming
    sessions and sending messages, in any order and number, never leave the
    pointer naming a session that is not in the collection.  Only selecting
    an id can do that. *)
Theorem pointer_valid_over_run (ms : list Mutation) (item : option StoredItem) :
  pointerValid (hook (mount item))
  /\ (forall p, pointerValid (hook p) -> pointerValid (hook (commits ms p)))
  /\ pointerValid (hook (commits ms (mount item))).
Proof.
  assert (H0 : pointerValid (hook (mount item))) by exact I.
  assert (H : forall p, pointerValid (hook p) -> pointerValid (hook (commits ms p))).
  { induction ms as [|m ms IH]; intros p Hp; [exact Hp|].
    cbn [commits fold_left]. apply IH. unfold commit. cbn [hook].
    apply pointerValid_mutate, Hp. }
  split; [exact H0|]. split; [exact H|]. apply H, H0.
Qed.

Lemma pointer_valid_over_run_witness :
  pointerValid (hook (commits [Call (DeleteSession "1");
                               AppendUserMessage "What is INSAT-3D?" sampleBegin]
                              samplePage)).
Proof.
  apply (proj1 (proj2 (pointer_valid_over_run
                         [Call (DeleteSession "1");
                          AppendUserMessage "What is INSAT-3D?" sampleBegin] None))
               samplePage).
  exists sampleSession. split; [left; reflexivity|reflexivity].
Defined.

(** ** Message ids *)

(** X24.  Within one call of [sendMessage] the user message and the assistant
    message, reply or apology, get different ids whenever the clock does not
    run backwards between the two readings: the second id is the later
    reading plus one. *)
Theorem message_ids (text : string) (api : Settled ResponseBody)
    (bclk : BeginClock) (sclk : SettleClock) :
  (0 <= c_userId bclk)%Z -> (c_userId bclk <= c_botId sclk)%Z ->
  msg_id (replyOf text api sclk) = intToString (c_botId sclk + 1)
  /\ msg_id (userMessageOf text bclk) <> msg_id (replyOf text api sclk).
Proof.
  intros H0 Hle.
  assert (E : msg_id (replyOf text api sclk) = intToString (c_botId sclk + 1)).
  { destruct (replyOf_cases text api sclk) as [-> | (r & _ & ->)]; reflexivity. }
  split; [exact E|]. rewrite E. cbn [userMessageOf msg_id]. intros Heq.
  apply intToString_inj in Heq; lia.
Qed.

Lemma message_ids_witness :
  msg_id (userMessageOf "What is INSAT-3D?" sampleBegin) <>
  msg_id (replyOf "What is INSAT-3D?" (Rejected "Failed to fetch") sampleSettle).
Proof.
  apply (message_ids "What is INSAT-3D?" (Rejected "Failed to fetch") sampleBegin sampleSettle);
    cbn; lia.
Defined.
